(** * docwriter: section parser, storage paths and document store

    A shallow embedding of the document pipeline of the AI document writer
    back end:

    - [parseAIResponse] and [parseStepByStepResponse] (server.js), the two
      section parsers, and the dispatch between them;
    - [getUserStoragePath] and [generateDocumentPath]
      (services/documentStorage.js), with Node's POSIX [path.join];
    - the document store ([saveDocument], [getDocument], [deleteDocument],
      [updateDocument], [addDocumentTags]) as programs of a state and
      exception monad over a world made of the file system, the three
      tables and the answers of the collaborators;
    - the batch route of routes/UserRoutes.js.

    JavaScript strings are sequences of UTF-16 code units; they are
    modelled as lists of numbers, so that [split], [trim] and the regular
    expressions of the source act on exactly the units they act on in the
    engine. *)

From Stdlib Require Import String Ascii DecimalString DecimalPos.
From Stdlib Require Import List Bool Arith NArith ZArith Lia.
Import ListNotations.

Set Implicit Arguments.

(* ================================================================== *)
(** * JavaScript strings *)
(* ================================================================== *)

Module Js.

(** A string value: its UTF-16 code units. *)
Definition jsstring := list N.

(** A literal of the source, unit by unit. *)
Definition lit (s : string) : jsstring :=
  map N_of_ascii (list_ascii_of_string s).

Definition eqb (a b : jsstring) : bool :=
  if list_eq_dec N.eq_dec a b then true else false.

(** ToBoolean on a string: only the empty string is falsy. *)
Definition truthy (s : jsstring) : bool :=
  match s with [] => false | _ :: _ => true end.

(** [s || d] on strings. *)
Definition or_else (s d : jsstring) : jsstring :=
  if truthy s then s else d.

(** White space and line terminators: the units removed by
    [String.prototype.trim] and matched by [\s]. *)
Definition is_space (c : N) : bool :=
  ((9 <=? c) && (c <=? 13) || (c =? 32) || (c =? 160) || (c =? 5760)
   || (8192 <=? c) && (c <=? 8202) || (c =? 8232) || (c =? 8233)
   || (c =? 8239) || (c =? 8287) || (c =? 12288) || (c =? 65279))%N.

Fixpoint trimStart (s : jsstring) : jsstring :=
  match s with
  | [] => []
  | c :: s' => if is_space c then trimStart s' else s
  end.

Definition trimEnd (s : jsstring) : jsstring := rev (trimStart (rev s)).

Definition trim (s : jsstring) : jsstring := trimEnd (trimStart s).

(** Does [s] begin with [p]? *)
Fixpoint starts_with (p s : jsstring) : bool :=
  match p, s with
  | [], _ => true
  | _ :: _, [] => false
  | a :: p', b :: s' => (a =? b)%N && starts_with p' s'
  end.

(** Does [p] occur in [s]? ([String.prototype.includes]) *)
Fixpoint includes (s p : jsstring) : bool :=
  starts_with p s ||
  match s with
  | [] => false
  | _ :: s' => includes s' p
  end.

(** [String.prototype.split] with a non-empty separator: scan from the
    left; at a position where the separator matches, close the current
    piece and resume after the separator.  [skip] counts the units of a
    matched separator still to be passed over, [cur] holds the current
    piece backwards. *)
Fixpoint split_from (sep : jsstring) (skip : nat) (cur s : jsstring)
  : list jsstring :=
  match s with
  | [] => [rev cur]
  | c :: s' =>
      match skip with
      | S k => split_from sep k cur s'
      | O =>
          if starts_with sep s
          then rev cur :: split_from sep (length sep - 1) [] s'
          else split_from sep 0 (c :: cur) s'
      end
  end.

(** [s.split(sep)]; with the empty separator the string falls apart into
    its units. *)
Definition split (s sep : jsstring) : list jsstring :=
  match sep with
  | [] => map (fun c => [c]) s
  | _ :: _ => split_from sep 0 [] s
  end.

(** [Array.prototype.join] on an array of strings. *)
Fixpoint join (sep : jsstring) (l : list jsstring) : jsstring :=
  match l with
  | [] => []
  | [x] => x
  | x :: l' => x ++ sep ++ join sep l'
  end.

(** [s.padStart(n, c)] for a one-unit filler. *)
Definition padStart (s : jsstring) (n : nat) (c : N) : jsstring :=
  repeat c (n - length s) ++ s.

(** [Number.prototype.toString] on a non-negative integer. *)
Definition toString (n : N) : jsstring :=
  lit (NilEmpty.string_of_uint (N.to_uint n)).

End Js.

Import Js.

(* ================================================================== *)
(** * The section parsers (server.js) *)
(* ================================================================== *)

Module Parser.

(** An object literal of the source: its properties in insertion order. *)
Definition SectionMap := list (jsstring * jsstring).

Definition lookup (key : jsstring) (sections : SectionMap) : option jsstring :=
  match find (fun kv => eqb (fst kv) key) sections with
  | Some kv => Some (snd kv)
  | None => None
  end.

(** The separator ['---'] asked of the model. *)
Definition delimiter : jsstring := lit "---".

(** Two line feeds: the blank line between paragraphs. *)
Definition blank_line : jsstring := [10; 10]%N.

(** [parts[i] ? parts[i].trim() : ''] *)
Definition trimmed_part (parts : list jsstring) (i : nat) : jsstring :=
  match nth_error parts i with
  | Some p => if truthy p then trim p else []
  | None => []
  end.

(** [paragraphs[i] || ''] *)
Definition paragraph_or_empty (paragraphs : list jsstring) (i : nat)
  : jsstring :=
  match nth_error paragraphs i with
  | Some p => or_else p []
  | None => []
  end.

(** [parseStepByStepResponse(content)] *)
Definition parseStepByStepResponse (content : jsstring) : SectionMap :=
  let parts := split content delimiter in
  if 5 <=? length parts then
    [ (lit "guide_overview", trimmed_part parts 0);
      (lit "target_audience", trimmed_part parts 1);
      (lit "prerequisites", trimmed_part parts 2);
      (lit "steps_content", trimmed_part parts 3);
      (lit "conclusion", trimmed_part parts 4) ]
  else
    [ (lit "guide_overview", content);
      (lit "target_audience", lit "General users");
      (lit "prerequisites", lit "No specific prerequisites");
      (lit "steps_content", lit "Steps not properly parsed");
      (lit "conclusion", lit "Conclusion not available") ].

(** [parseAIResponse(content)]; the console output is left out. *)
Definition parseAIResponse (content : jsstring) : SectionMap :=
  let parts := split content delimiter in
  if 6 <=? length parts then
    [ (lit "initial_findings", trimmed_part parts 0);
      (lit "executive_summary", trimmed_part parts 1);
      (lit "timeline_events", trimmed_part parts 2);
      (lit "risk_impact", trimmed_part parts 3);
      (lit "resolution_actions", trimmed_part parts 4);
      (lit "lessons_learned", trimmed_part parts 5) ]
  else
    let paragraphs :=
      filter (fun p => truthy (trim p)) (split content blank_line) in
    if 6 <=? length paragraphs then
      [ (lit "initial_findings", paragraph_or_empty paragraphs 0);
        (lit "executive_summary", paragraph_or_empty paragraphs 1);
        (lit "timeline_events", paragraph_or_empty paragraphs 2);
        (lit "risk_impact", paragraph_or_empty paragraphs 3);
        (lit "resolution_actions", paragraph_or_empty paragraphs 4);
        (lit "lessons_learned", paragraph_or_empty paragraphs 5) ]
    else
      [ (lit "initial_findings", content);
        (lit "executive_summary", lit "Executive summary not properly parsed");
        (lit "timeline_events", lit "Timeline not properly parsed");
        (lit "risk_impact", lit "Risk assessment not properly parsed");
        (lit "resolution_actions", lit "Resolution actions not properly parsed");
        (lit "lessons_learned", lit "Lessons learned not properly parsed") ].

(** The choice of parser in the generation routes:
    [template === 'step-by-step-guide'] takes the guide parser, every
    other template the report parser. *)
Definition is_guide (template : jsstring) : bool :=
  eqb template (lit "step-by-step-guide").

Definition parse (template content : jsstring) : SectionMap :=
  if is_guide template then parseStepByStepResponse content
  else parseAIResponse content.

(** ** Vocabulary of the statements *)

Definition report_keys : list jsstring :=
  [ lit "initial_findings"; lit "executive_summary"; lit "timeline_events";
    lit "risk_impact"; lit "resolution_actions"; lit "lessons_learned" ].

Definition guide_keys : list jsstring :=
  [ lit "guide_overview"; lit "target_audience"; lit "prerequisites";
    lit "steps_content"; lit "conclusion" ].

Definition section_keys (template : jsstring) : list jsstring :=
  if is_guide template then guide_keys else report_keys.

(** Six sections for a report, five for a guide. *)
Definition required_count (template : jsstring) : nat :=
  length (section_keys template).

(** The pieces between delimiters. *)
Definition parts_of (content : jsstring) : list jsstring :=
  split content delimiter.

(** The paragraphs: pieces between blank lines that are not blank
    themselves. *)
Definition paragraphs_of (content : jsstring) : list jsstring :=
  filter (fun p => truthy (trim p)) (split content blank_line).

(** The assignment of the first tier: key number [i] gets
    [parts[i] ? parts[i].trim() : '']. *)
Definition strict_assignment (template : jsstring) (parts : list jsstring)
  : SectionMap :=
  combine (section_keys template)
          (map (trimmed_part parts) (seq 0 (required_count template))).

(** The parser has taken the first tier. *)
Definition uses_strict_split (template content : jsstring) : Prop :=
  parse template content = strict_assignment template (parts_of content).

(** The strings of the last tier for the keys after the first. *)
Definition report_placeholders : list jsstring :=
  [ lit "Executive summary not properly parsed";
    lit "Timeline not properly parsed";
    lit "Risk assessment not properly parsed";
    lit "Resolution actions not properly parsed";
    lit "Lessons learned not properly parsed" ].

Definition guide_placeholders : list jsstring :=
  [ lit "General users"; lit "No specific prerequisites";
    lit "Steps not properly parsed"; lit "Conclusion not available" ].

Definition placeholders (template : jsstring) : list jsstring :=
  if is_guide template then guide_placeholders else report_placeholders.

(** The whole text under the first key, the fixed strings under the
    others. *)
Definition total_fallback (template content : jsstring) : SectionMap :=
  combine (section_keys template) (content :: placeholders template).

(** Is [v] of the form ["<Section name> not properly parsed"]? *)
Definition not_properly_parsed_form (v : jsstring) : bool :=
  starts_with (rev (lit " not properly parsed")) (rev v).

(** A hyphen. *)
Definition hyphen : N := 45%N.

(** A segment that can stand between delimiters: it holds no delimiter
    and does not end in a hyphen (which would run into the delimiter
    after it). *)
Definition ends_in_hyphen (s : jsstring) : bool :=
  match rev s with c :: _ => (c =? hyphen)%N | [] => false end.

Definition clean_segment (s : jsstring) : bool :=
  negb (includes s delimiter) && negb (ends_in_hyphen s).

(** The value under the last key. *)
Definition last_value (sections : SectionMap) : jsstring :=
  snd (last sections ([], [])).

End Parser.

Import Parser.

(* ================================================================== *)
(** * Storage paths (services/documentStorage.js) *)
(* ================================================================== *)

Module Path.

Definition slash : N := 47%N.
Definition dot : N := 46%N.
Definition underscore : N := 95%N.

(** Node's [normalizeString] for POSIX paths, on the pieces between
    slashes: empty pieces and ['.'] vanish; ['..'] removes the piece
    before it, and is kept only when there is none to remove and the path
    may climb above its start.  [res] holds the pieces kept so far, the
    last one first. *)
Fixpoint normalize_pieces (allowAboveRoot : bool) (res pieces : list jsstring)
  : list jsstring :=
  match pieces with
  | [] => rev res
  | p :: pieces' =>
      if eqb p [] || eqb p [dot] then
        normalize_pieces allowAboveRoot res pieces'
      else if eqb p [dot; dot] then
        match res with
        | top :: res' =>
            if eqb top [dot; dot]
            then normalize_pieces allowAboveRoot
                   (if allowAboveRoot then p :: res else res) pieces'
            else normalize_pieces allowAboveRoot res' pieces'
        | [] =>
            normalize_pieces allowAboveRoot
              (if allowAboveRoot then [p] else []) pieces'
        end
      else normalize_pieces allowAboveRoot (p :: res) pieces'
  end.

(** [path.posix.normalize] *)
Definition normalize (path : jsstring) : jsstring :=
  match path with
  | [] => [dot]
  | first :: _ =>
      let isAbsolute := (first =? slash)%N in
      let trailingSeparator := (last path 0%N =? slash)%N in
      let body :=
        join [slash]
             (normalize_pieces (negb isAbsolute) [] (split path [slash])) in
      match body with
      | [] =>
          if isAbsolute then [slash]
          else if trailingSeparator then [dot; slash] else [dot]
      | _ :: _ =>
          let body' := if trailingSeparator then body ++ [slash] else body in
          if isAbsolute then slash :: body' else body'
      end
  end.

(** [path.join(...args)] on a POSIX host: the non-empty arguments joined
    by slashes, then normalized. *)
Definition path_join (args : list jsstring) : jsstring :=
  match filter truthy args with
  | [] => [dot]
  | kept => normalize (join [slash] kept)
  end.

Definition is_alnum (c : N) : bool :=
  ((97 <=? c) && (c <=? 122) || (65 <=? c) && (c <=? 90)
   || (48 <=? c) && (c <=? 57))%N.

(** The class [[a-zA-Z0-9@.-]] of [getUserStoragePath]. *)
Definition email_unit (c : N) : bool :=
  (is_alnum c || (c =? 64) || (c =? 46) || (c =? 45))%N.

(** The class [[a-zA-Z0-9\s-]] of [generateDocumentPath]. *)
Definition title_unit (c : N) : bool :=
  (is_alnum c || is_space c || (c =? 45))%N.

(** [userEmail.replace(/[^a-zA-Z0-9@.-]/g, '_')] *)
Definition sanitizedEmail (userEmail : jsstring) : jsstring :=
  map (fun c => if email_unit c then c else underscore) userEmail.

(** [s.replace(/\s+/g, '_')]: every maximal run of white space becomes one
    underscore.  [in_run] tells that the unit before was white space. *)
Fixpoint replace_space_runs (in_run : bool) (s : jsstring) : jsstring :=
  match s with
  | [] => []
  | c :: s' =>
      if is_space c
      then (if in_run then replace_space_runs true s'
            else underscore :: replace_space_runs true s')
      else c :: replace_space_runs false s'
  end.

(** [title.replace(/[^a-zA-Z0-9\s-]/g, '').replace(/\s+/g, '_')] *)
Definition safeTitle (title : jsstring) : jsstring :=
  replace_space_runs false (filter title_unit title).

(** What the two clock reads of [generateDocumentPath] give:
    [new Date()] in local time and [Date.now()]; and the [NOW()] of the
    database server. *)
Record Clock := mkClock {
  fullYear : N;       (* now.getFullYear() *)
  monthIndex : N;     (* now.getMonth(), 0 to 11 *)
  nowMs : N;          (* Date.now() *)
  sqlNow : N          (* NOW() *)
}.

(** [getUserStoragePath(userEmail)]; [base] is [this.baseStoragePath]. *)
Definition getUserStoragePath (base userEmail : jsstring) : jsstring :=
  path_join [base; sanitizedEmail userEmail].

(** [datePath] of [generateDocumentPath]: the directory it creates. *)
Definition datePath (base : jsstring) (c : Clock) (userEmail : jsstring)
  : jsstring :=
  let userPath := getUserStoragePath base userEmail in
  let documentsPath := path_join [userPath; lit "documents"] in
  let year := toString (fullYear c) in
  let month := padStart (toString (monthIndex c + 1)) 2 48%N in
  path_join [documentsPath; year; month].

(** [filename] of [generateDocumentPath]. *)
Definition filename (c : Clock) (templateType title format : jsstring)
  : jsstring :=
  toString (nowMs c) ++ [underscore] ++ templateType ++ [underscore]
  ++ safeTitle title ++ [dot] ++ format.

(** The value [generateDocumentPath] returns. *)
Definition documentPath (base : jsstring) (c : Clock)
           (userEmail templateType title format : jsstring) : jsstring :=
  path_join [datePath base c userEmail; filename c templateType title format].

(** ** Vocabulary of the statements *)

(** A piece that [path.join] leaves alone: not empty, without a slash,
    and neither ['.'] nor ['..']. *)
Definition plain_piece (p : jsstring) : bool :=
  truthy p && negb (existsb (N.eqb slash) p)
  && negb (eqb p [dot]) && negb (eqb p [dot; dot]).

(** An absolute path in normal form: a slash before each of its plain
    pieces, as [path.join(__dirname, '..', 'stored')] gives. *)
Definition absolute_of (pieces : list jsstring) : jsstring :=
  slash :: join [slash] pieces.

Definition without_slash (s : jsstring) : bool :=
  negb (existsb (N.eqb slash) s).

Definition is_digit (c : N) : bool := ((48 <=? c) && (c <=? 57))%N.

(** The units of a safe title: letters, digits, hyphens and the
    underscores that stand for white space. *)
Definition safe_unit (c : N) : bool :=
  (is_alnum c || (c =? 45) || (c =? underscore))%N.

(** The owner key as the specification words it: the units outside
    [[A-Za-z0-9 .@-]] stripped. *)
Definition spec_owner_unit (c : N) : bool :=
  (is_alnum c || (c =? 32) || (c =? 46) || (c =? 64) || (c =? 45))%N.

Definition spec_sanitizedOwner (owner : jsstring) : jsstring :=
  filter spec_owner_unit owner.

(** The title as the specification words it: the units outside
    [[A-Za-z0-9 -]] stripped, then the white space collapsed. *)
Definition spec_title_unit (c : N) : bool :=
  (is_alnum c || (c =? 32) || (c =? 45))%N.

Definition spec_sanitizedTitle (title : jsstring) : jsstring :=
  replace_space_runs false (filter spec_title_unit title).

(** The path as the specification words it. *)
Definition spec_documentPath (base : jsstring) (c : Clock)
           (owner templateKind title format : jsstring) : jsstring :=
  base ++ [slash] ++ spec_sanitizedOwner owner ++ lit "/documents/"
  ++ toString (fullYear c) ++ [slash]
  ++ padStart (toString (monthIndex c + 1)) 2 48%N ++ [slash]
  ++ toString (nowMs c) ++ [underscore] ++ templateKind ++ [underscore]
  ++ spec_sanitizedTitle title ++ [dot] ++ format.

End Path.

Import Path.

(* ================================================================== *)
(** * The document store (services/documentStorage.js) *)
(* ================================================================== *)

Module Store.

(** ** Values and rows *)

(** A primitive value of a request body, as it is bound to a placeholder
    of a statement and as the column keeps it. *)
Inductive Value :=
| VUndefined
| VNull
| VBool (b : bool)
| VNum (z : Z)
| VStr (s : jsstring).

Definition is_undefined (v : Value) : bool :=
  match v with VUndefined => true | _ => false end.

(** The [metadata] column: [{generatedAt, version, aiModel}]. *)
Record Metadata := mkMetadata {
  generatedAt : N;
  version : N;
  aiModel : jsstring
}.

(** A row of [documents].  The three columns a request may rewrite hold
    the value bound to them; the JSON columns hold the object that is
    serialized into them. *)
Record DocRow := mkDocRow {
  doc_id : jsstring;
  doc_user_id : jsstring;
  doc_title : Value;
  doc_template_type : jsstring;
  doc_file_path : jsstring;
  doc_content_preview : jsstring;
  doc_original_sections : SectionMap;
  doc_parsed_sections : SectionMap;
  doc_metadata : Metadata;
  doc_file_size : N;
  doc_file_format : jsstring;
  doc_is_favorite : Value;
  doc_is_archived : Value;
  doc_created_at : N;
  doc_updated_at : N
}.

(** A row of [document_tags]. *)
Record TagRow := mkTagRow {
  tag_id : jsstring;
  tag_document_id : jsstring;
  tag_name : jsstring
}.

(** A row of [ai_generation_logs]. *)
Record LogRow := mkLogRow {
  log_id : jsstring;
  log_user_id : jsstring;
  log_document_id : jsstring;
  log_template_type : jsstring;
  log_input_data : SectionMap;
  log_generated_content : jsstring;
  log_success : bool;
  log_model_used : jsstring;
  log_created_at : N
}.

(** ** Calls to the collaborators, and what can go wrong *)

(** A call that leaves the process: to the database or the file system. *)
Inductive Op :=
| Connect                                   (* mysql.createConnection *)
| EndConnection                             (* connection.end *)
| Mkdir (path : jsstring)                   (* fs.mkdir, recursive *)
| WriteFile (path : jsstring)               (* fs.writeFile *)
| Stat (path : jsstring)                    (* fs.stat *)
| Unlink (path : jsstring)                  (* fs.unlink *)
| InsertDocument (id : jsstring)            (* INSERT INTO documents *)
| InsertLog (documentId : jsstring)         (* INSERT INTO ai_generation_logs *)
| SelectDocument (id userId : jsstring)     (* SELECT ... FROM documents *)
| DeleteDocument (id userId : jsstring)     (* DELETE FROM documents *)
| UpdateDocument (id userId : jsstring)     (* UPDATE documents *)
| DeleteTags (documentId : jsstring)        (* DELETE FROM document_tags *)
| InsertTags (documentId : jsstring).       (* INSERT INTO document_tags *)

(** What the trace records of a call: it came back, or it was rejected. *)
Inductive Event :=
| Done (o : Op)
| Failed (o : Op).

(** The errors that travel through the store. *)
Inductive Err :=
| DocumentNotFound            (* new Error('Document not found') *)
| NoValidUpdates              (* new Error('No valid updates provided') *)
| InvalidBatchAction          (* new Error('Invalid batch action') *)
| FailedToSave (cause : Err)  (* new Error(`Failed to save document: ...`) *)
| Rejected (o : Op)           (* the collaborator rejected the call *)
| NoSuchFile (path : jsstring)             (* ENOENT *)
| BindUndefined               (* mysql2: a bound parameter is undefined *)
| UnknownColumn (column : jsstring).       (* the statement names no such column *)

(** ** The world *)

Record World := mkWorld {
  files : list (jsstring * list N);     (* the file system: path, bytes *)
  documents : list DocRow;
  document_tags : list TagRow;
  ai_generation_logs : list LogRow;
  tags_cascade : bool;                  (* see [delete_documents] *)
  baseStoragePath : jsstring;           (* this.baseStoragePath *)
  clock : Clock;
  answers : list bool;   (* the fate of the calls to come: [false] rejects;
                            when the list runs out every call goes through *)
  uuids : list jsstring; (* what crypto.randomUUID() will give *)
  trace : list Event     (* the calls so far, the first one first *)
}.

Definition set_files (f : list (jsstring * list N)) (w : World) : World :=
  mkWorld f (documents w) (document_tags w) (ai_generation_logs w)
          (tags_cascade w) (baseStoragePath w) (clock w) (answers w)
          (uuids w) (trace w).

Definition set_documents (d : list DocRow) (w : World) : World :=
  mkWorld (files w) d (document_tags w) (ai_generation_logs w)
          (tags_cascade w) (baseStoragePath w) (clock w) (answers w)
          (uuids w) (trace w).

Definition set_document_tags (t : list TagRow) (w : World) : World :=
  mkWorld (files w) (documents w) t (ai_generation_logs w)
          (tags_cascade w) (baseStoragePath w) (clock w) (answers w)
          (uuids w) (trace w).

Definition set_logs (l : list LogRow) (w : World) : World :=
  mkWorld (files w) (documents w) (document_tags w) l
          (tags_cascade w) (baseStoragePath w) (clock w) (answers w)
          (uuids w) (trace w).

Definition set_answers (a : list bool) (w : World) : World :=
  mkWorld (files w) (documents w) (document_tags w) (ai_generation_logs w)
          (tags_cascade w) (baseStoragePath w) (clock w) a
          (uuids w) (trace w).

Definition set_uuids (u : list jsstring) (w : World) : World :=
  mkWorld (files w) (documents w) (document_tags w) (ai_generation_logs w)
          (tags_cascade w) (baseStoragePath w) (clock w) (answers w)
          u (trace w).

Definition set_clock (c : Clock) (w : World) : World :=
  mkWorld (files w) (documents w) (document_tags w) (ai_generation_logs w)
          (tags_cascade w) (baseStoragePath w) c (answers w)
          (uuids w) (trace w).

Definition record_event (e : Event) (w : World) : World :=
  mkWorld (files w) (documents w) (document_tags w) (ai_generation_logs w)
          (tags_cascade w) (baseStoragePath w) (clock w) (answers w)
          (uuids w) (trace w ++ [e]).

(** ** Asynchronous functions: state and exceptions *)

Inductive Outcome (A : Type) :=
| Returned (a : A)
| Thrown (e : Err).

Arguments Returned {A} a.
Arguments Thrown {A} e.

Definition M (A : Type) : Type := World -> Outcome A * World.

Definition ret {A} (a : A) : M A := fun w => (Returned a, w).

Definition throw {A} (e : Err) : M A := fun w => (Thrown e, w).

Definition bind {A B} (m : M A) (f : A -> M B) : M B := fun w =>
  match m w with
  | (Returned a, w') => f a w'
  | (Thrown e, w') => (Thrown e, w')
  end.

(** [try { m } catch (error) { handler }] *)
Definition try_catch {A} (m : M A) (handler : Err -> M A) : M A := fun w =>
  match m w with
  | (Returned a, w') => (Returned a, w')
  | (Thrown e, w') => handler e w'
  end.

(** [try { m } finally { f }]: [f] runs on every way out of [m]; when [f]
    throws, its error takes the place of the outcome of [m]. *)
Definition finally_ {A} (m : M A) (f : M unit) : M A := fun w =>
  match m w with
  | (r, w') =>
      match f w' with
      | (Returned _, w'') => (r, w'')
      | (Thrown e, w'') => (Thrown e, w'')
      end
  end.

Notation "x <- m1 ;; m2" := (bind m1 (fun x => m2))
  (at level 61, m1 at next level, right associativity).
Notation "m1 ;; m2" := (bind m1 (fun _ => m2))
  (at level 61, right associativity).

(** A call [o] to a collaborator.  The next answer decides whether the
    collaborator rejects it; otherwise [body] is what the call does.  The
    trace gets the call and its fate. *)
Definition call {A} (o : Op) (body : World -> Outcome A * World) : M A :=
  fun w =>
    match answers w with
    | false :: rest =>
        (Thrown (Rejected o), record_event (Failed o) (set_answers rest w))
    | _ =>
        match body (set_answers (tl (answers w)) w) with
        | (Returned a, w') => (Returned a, record_event (Done o) w')
        | (Thrown e, w') => (Thrown e, record_event (Failed o) w')
        end
    end.

(** [crypto.randomUUID()] *)
Definition randomUUID : M jsstring := fun w =>
  (Returned (hd [] (uuids w)), set_uuids (tl (uuids w)) w).

Definition read_clock : M Clock := fun w => (Returned (clock w), w).

(** ** The file system *)

Definition file_at (path : jsstring) (entry : jsstring * list N) : bool :=
  eqb (fst entry) path.

Definition fs_mkdir (path : jsstring) : M unit :=
  call (Mkdir path) (fun w => (Returned tt, w)).

Definition fs_writeFile (path : jsstring) (data : list N) : M unit :=
  call (WriteFile path) (fun w =>
    (Returned tt,
     set_files ((path, data) :: filter (fun e => negb (file_at path e)) (files w)) w)).

(** [(await fs.stat(path)).size] *)
Definition fs_stat_size (path : jsstring) : M N :=
  call (Stat path) (fun w =>
    match find (file_at path) (files w) with
    | Some e => (Returned (N.of_nat (length (snd e))), w)
    | None => (Thrown (NoSuchFile path), w)
    end).

Definition fs_unlink (path : jsstring) : M unit :=
  call (Unlink path) (fun w =>
    match find (file_at path) (files w) with
    | Some _ =>
        (Returned tt,
         set_files (filter (fun e => negb (file_at path e)) (files w)) w)
    | None => (Thrown (NoSuchFile path), w)
    end).

(** ** The database *)

Definition createConnection : M unit :=
  call Connect (fun w => (Returned tt, w)).

Definition connection_end : M unit :=
  call EndConnection (fun w => (Returned tt, w)).

(** [WHERE id = ? AND user_id = ?] *)
Definition owned_by (documentId userId : jsstring) (d : DocRow) : bool :=
  eqb (doc_id d) documentId && eqb (doc_user_id d) userId.

(** [WHERE document_id = ?] *)
Definition tag_of (documentId : jsstring) (t : TagRow) : bool :=
  eqb (tag_document_id t) documentId.

(** [GROUP_CONCAT(dt.tag_name)] over the tag rows joined to a document, in
    the order of the table: [NULL] when there is none, else the names
    with commas between them. *)
Definition group_concat (names : list jsstring) : option jsstring :=
  match names with
  | [] => None
  | _ :: _ => Some (join (lit ",") names)
  end.

(** [SELECT d.*, GROUP_CONCAT(dt.tag_name) as tags FROM documents d
     LEFT JOIN document_tags dt ON d.id = dt.document_id
     WHERE d.id = ? AND d.user_id = ? GROUP BY d.id]: the rows of the
    caller under this identifier, in the order of the table, each with
    the names of its tags; [getDocument] looks at the first one only. *)
Definition select_document (documentId userId : jsstring)
  : M (list (DocRow * option jsstring)) :=
  call (SelectDocument documentId userId) (fun w =>
    (Returned
       (map (fun d =>
               (d, group_concat
                     (map tag_name
                          (filter (tag_of (doc_id d)) (document_tags w)))))
            (filter (owned_by documentId userId) (documents w))),
     w)).

(** [INSERT INTO documents (...) VALUES (...)] *)
Definition insert_document (d : DocRow) : M unit :=
  call (InsertDocument (doc_id d)) (fun w =>
    (Returned tt, set_documents (documents w ++ [d]) w)).

(** [INSERT INTO ai_generation_logs (...) VALUES (...)] *)
Definition insert_log (l : LogRow) : M unit :=
  call (InsertLog (log_document_id l)) (fun w =>
    (Returned tt, set_logs (ai_generation_logs w ++ [l]) w)).

(** Modelled from the spec: the foreign key of [document_tags], whose
    declaration is not among the sources.  The specification has the tag
    rows of a deleted document "removed by referential cascade or explicit
    cleanup"; [deleteDocument] issues no statement on [document_tags], so
    the cascade is a property of the schema: [tags_cascade] tells whether
    the schema of this world declares it.

    [DELETE FROM documents WHERE id = ? AND user_id = ?] *)
Definition delete_documents (documentId userId : jsstring) : M unit :=
  call (DeleteDocument documentId userId) (fun w =>
    let gone := existsb (owned_by documentId userId) (documents w) in
    let w1 :=
      set_documents
        (filter (fun d => negb (owned_by documentId userId d)) (documents w)) w in
    (Returned tt,
     if tags_cascade w && gone
     then set_document_tags
            (filter (fun t => negb (tag_of documentId t)) (document_tags w)) w1
     else w1)).

(** The columns of [documents] a statement may assign, with the values
    they take. *)
Definition column_accepts (column : jsstring) (v : Value) : bool :=
  if eqb column (lit "title") || eqb column (lit "is_favorite")
     || eqb column (lit "is_archived")
  then true
  else if eqb column (lit "id") || eqb column (lit "user_id")
          || eqb column (lit "template_type") || eqb column (lit "file_path")
          || eqb column (lit "content_preview")
          || eqb column (lit "file_format")
  then match v with VStr _ => true | _ => false end
  else false.

Definition text_of (v : Value) (otherwise : jsstring) : jsstring :=
  match v with VStr s => s | _ => otherwise end.

(** [SET column = ?] on one row. *)
Definition set_column (column : jsstring) (v : Value) (d : DocRow) : DocRow :=
  mkDocRow
    (if eqb column (lit "id") then text_of v (doc_id d) else doc_id d)
    (if eqb column (lit "user_id") then text_of v (doc_user_id d)
     else doc_user_id d)
    (if eqb column (lit "title") then v else doc_title d)
    (if eqb column (lit "template_type") then text_of v (doc_template_type d)
     else doc_template_type d)
    (if eqb column (lit "file_path") then text_of v (doc_file_path d)
     else doc_file_path d)
    (if eqb column (lit "content_preview")
     then text_of v (doc_content_preview d) else doc_content_preview d)
    (doc_original_sections d) (doc_parsed_sections d) (doc_metadata d)
    (doc_file_size d)
    (if eqb column (lit "file_format") then text_of v (doc_file_format d)
     else doc_file_format d)
    (if eqb column (lit "is_favorite") then v else doc_is_favorite d)
    (if eqb column (lit "is_archived") then v else doc_is_archived d)
    (doc_created_at d) (doc_updated_at d).

(** The assignments of a [SET] clause, from left to right. *)
Definition set_columns (assignments : list (jsstring * Value)) (d : DocRow)
  : DocRow :=
  fold_left (fun row kv => set_column (fst kv) (snd kv) row) assignments d.

(** [updated_at = NOW()] *)
Definition touch (now : N) (d : DocRow) : DocRow :=
  mkDocRow (doc_id d) (doc_user_id d) (doc_title d) (doc_template_type d)
           (doc_file_path d) (doc_content_preview d) (doc_original_sections d)
           (doc_parsed_sections d) (doc_metadata d) (doc_file_size d)
           (doc_file_format d) (doc_is_favorite d) (doc_is_archived d)
           (doc_created_at d) now.

(** [UPDATE documents SET k1 = ?, ..., updated_at = NOW()
     WHERE id = ? AND user_id = ?]: the driver refuses an undefined
    parameter, the server a column it does not know. *)
Definition update_documents (assignments : list (jsstring * Value))
           (documentId userId : jsstring) : M unit :=
  call (UpdateDocument documentId userId) (fun w =>
    if existsb (fun kv => is_undefined (snd kv)) assignments
    then (Thrown BindUndefined, w)
    else
      match find (fun kv => negb (column_accepts (fst kv) (snd kv)))
                 assignments with
      | Some kv => (Thrown (UnknownColumn (fst kv)), w)
      | None =>
          (Returned tt,
           set_documents
             (map (fun d =>
                     if owned_by documentId userId d
                     then touch (sqlNow (clock w)) (set_columns assignments d)
                     else d)
                  (documents w)) w)
      end).

(** [DELETE FROM document_tags WHERE document_id = ?] *)
Definition delete_tags (documentId : jsstring) : M unit :=
  call (DeleteTags documentId) (fun w =>
    (Returned tt,
     set_document_tags
       (filter (fun t => negb (tag_of documentId t)) (document_tags w)) w)).

(** [INSERT INTO document_tags (id, document_id, tag_name) VALUES ...] *)
Definition insert_tags (documentId : jsstring) (rows : list TagRow) : M unit :=
  call (InsertTags documentId) (fun w =>
    (Returned tt, set_document_tags (document_tags w ++ rows) w)).

(** ** The service *)

(** What [getDocument] hands back: the row, and its tags as a list. *)
Record Document := mkDocument {
  row : DocRow;
  tags : list jsstring
}.

(** [document.tags ? document.tags.split(',') : []], the reading of the
    [tags] column in [getDocument] and in [getUserDocuments]. *)
Definition tags_of_column (column : option jsstring) : list jsstring :=
  match column with
  | Some t => if truthy t then split t (lit ",") else []
  | None => []
  end.

(** [getDocument(documentId, userId)] *)
Definition getDocument (documentId userId : jsstring) : M Document :=
  createConnection ;;
  finally_
    (try_catch
       (found <- select_document documentId userId ;;
        match found with
        | [] => throw DocumentNotFound
        | document :: _ =>
            ret (mkDocument (fst document) (tags_of_column (snd document)))
        end)
       (fun error => throw error))
    connection_end.

(** [generateDocumentPath(userEmail, templateType, title, format)]: the
    directory of the month is created on the way. *)
Definition generateDocumentPath (userEmail templateType title format : jsstring)
  : M jsstring :=
  fun w =>
    (c <- read_clock ;;
     fs_mkdir (datePath (baseStoragePath w) c userEmail) ;;
     ret (documentPath (baseStoragePath w) c userEmail templateType title format))
    w.

(** [logDocumentGeneration(connection, logData)]: a failure to log is
    written to the console and goes no further. *)
Definition logDocumentGeneration (userId documentId templateType : jsstring)
           (inputData : SectionMap) (generatedContent : jsstring)
           (success : bool) : M unit :=
  try_catch
    (id <- randomUUID ;;
     c <- read_clock ;;
     insert_log
       (mkLogRow id userId documentId templateType inputData
                 (or_else generatedContent []) success (lit "azure-gpt-4")
                 (sqlNow c)))
    (fun _ => ret tt).

(** The [documentData] of [saveDocument]; an absent string property is
    the empty string, which [||] treats alike. *)
Record DocumentData := mkDocumentData {
  data_userId : jsstring;
  data_title : jsstring;
  data_template : jsstring;
  data_format : jsstring;
  data_contentPreview : jsstring;
  data_originalSections : SectionMap;
  data_parsedSections : SectionMap;
  data_aiModel : jsstring
}.

Record SaveResult := mkSaveResult {
  saved_id : jsstring;
  saved_filePath : jsstring;
  saved_fileSize : N;
  saved_created : bool
}.

(** Modelled from the spec: the default of the columns [is_favorite] and
    [is_archived], which the [INSERT] of [saveDocument] leaves to the
    schema; the schema is not among the sources.  A document is listed
    among the documents that are not archived unless it is asked
    otherwise, and its two flags are set by [updateDocument] only: a new
    row has both flags false. *)
Definition default_flag : Value := VBool false.

(** [saveDocument(userEmail, documentData, fileBuffer)] *)
Definition saveDocument (userEmail : jsstring) (documentData : DocumentData)
           (fileBuffer : list N) : M SaveResult :=
  createConnection ;;
  finally_
    (try_catch
       (documentId <- randomUUID ;;
        filePath <- generateDocumentPath userEmail
                      (data_template documentData) (data_title documentData)
                      (or_else (data_format documentData) (lit "docx")) ;;
        fs_writeFile filePath fileBuffer ;;
        fileSize <- fs_stat_size filePath ;;
        c <- read_clock ;;
        insert_document
          (mkDocRow documentId (data_userId documentData)
                    (VStr (data_title documentData))
                    (data_template documentData) filePath
                    (or_else (data_contentPreview documentData) [])
                    (data_originalSections documentData)
                    (data_parsedSections documentData)
                    (mkMetadata (nowMs c) 1
                                (or_else (data_aiModel documentData)
                                         (lit "gpt-4")))
                    fileSize
                    (or_else (data_format documentData) (lit "docx"))
                    default_flag default_flag (sqlNow c) (sqlNow c)) ;;
        logDocumentGeneration (data_userId documentData) documentId
          (data_template documentData) (data_originalSections documentData)
          (data_contentPreview documentData) true ;;
        ret (mkSaveResult documentId filePath fileSize true))
       (fun error => throw (FailedToSave error)))
    connection_end.

(** [deleteDocument(documentId, userId)]: a file that cannot be removed
    is a warning on the console. *)
Definition deleteDocument (documentId userId : jsstring) : M unit :=
  createConnection ;;
  finally_
    (try_catch
       (document <- getDocument documentId userId ;;
        try_catch (fs_unlink (doc_file_path (row document)))
                  (fun _ => ret tt) ;;
        delete_documents documentId userId ;;
        ret tt)
       (fun error => throw error))
    connection_end.

Definition allowedUpdates : list jsstring :=
  [lit "title"; lit "is_favorite"; lit "is_archived"].

(** [allowedUpdates.includes(key)] *)
Definition allowed (key : jsstring) : bool := existsb (eqb key) allowedUpdates.

(** The loop over [Object.entries(updates)]: the entries with an allowed
    key, in their order. *)
Definition updateFields (updates : list (jsstring * Value))
  : list (jsstring * Value) :=
  filter (fun kv => allowed (fst kv)) updates.

(** [updateDocument(documentId, userId, updates)] *)
Definition updateDocument (documentId userId : jsstring)
           (updates : list (jsstring * Value)) : M Document :=
  createConnection ;;
  finally_
    (try_catch
       (match updateFields updates with
        | [] => throw NoValidUpdates
        | fields =>
            update_documents fields documentId userId ;;
            getDocument documentId userId
        end)
       (fun error => throw error))
    connection_end.

(** [tags.map(tag => [crypto.randomUUID(), documentId, tag.trim()])] *)
Fixpoint tagValues (documentId : jsstring) (tags : list jsstring)
  : M (list TagRow) :=
  match tags with
  | [] => ret []
  | tag :: rest =>
      id <- randomUUID ;;
      rows <- tagValues documentId rest ;;
      ret (mkTagRow id documentId (trim tag) :: rows)
  end.

(** [addDocumentTags(documentId, userId, tags)]; a missing [tags] is the
    empty list. *)
Definition addDocumentTags (documentId userId : jsstring)
           (tags : list jsstring) : M (list jsstring) :=
  createConnection ;;
  finally_
    (try_catch
       (getDocument documentId userId ;;
        delete_tags documentId ;;
        match tags with
        | [] => ret tt
        | _ :: _ =>
            rows <- tagValues documentId tags ;;
            insert_tags documentId rows
        end ;;
        ret tags)
       (fun error => throw error))
    connection_end.

(** ** The batch route (routes/UserRoutes.js) *)

(** [req.body.data]: an absent property is [undefined]. *)
Record BatchData := mkBatchData {
  data_favorite : Value;
  data_archived : Value
}.

(** The [result] of one item. *)
Inductive ActionResult :=
| DeletedResult                      (* { success: true, message } *)
| UpdatedResult (d : Document).

(** An entry of [results]. *)
Inductive ItemResult :=
| ItemSucceeded (documentId : jsstring) (result : ActionResult)
| ItemFailed (documentId : jsstring) (error : Err).

Definition item_id (r : ItemResult) : jsstring :=
  match r with
  | ItemSucceeded documentId _ => documentId
  | ItemFailed documentId _ => documentId
  end.

Definition item_success (r : ItemResult) : bool :=
  match r with
  | ItemSucceeded _ _ => true
  | ItemFailed _ _ => false
  end.

(** The [switch (action)] of the loop body. *)
Definition batch_action (userId action : jsstring) (data : BatchData)
           (documentId : jsstring) : M ActionResult :=
  if eqb action (lit "delete") then
    deleteDocument documentId userId ;; ret DeletedResult
  else if eqb action (lit "favorite") then
    d <- updateDocument documentId userId
           [(lit "is_favorite", data_favorite data)] ;;
    ret (UpdatedResult d)
  else if eqb action (lit "archive") then
    d <- updateDocument documentId userId
           [(lit "is_archived", data_archived data)] ;;
    ret (UpdatedResult d)
  else throw InvalidBatchAction.

(** The body of the loop: the inner [try]/[catch] around one item. *)
Definition batch_item (userId action : jsstring) (data : BatchData)
           (documentId : jsstring) : M ItemResult :=
  try_catch
    (result <- batch_action userId action data documentId ;;
     ret (ItemSucceeded documentId result))
    (fun error => ret (ItemFailed documentId error)).

(** [for (const documentId of documentIds) { ... results.push(...) }] *)
Fixpoint batch_loop (userId action : jsstring) (data : BatchData)
         (documentIds : list jsstring) (results : list ItemResult)
  : M (list ItemResult) :=
  match documentIds with
  | [] => ret results
  | documentId :: rest =>
      r <- batch_item userId action data documentId ;;
      batch_loop userId action data rest (results ++ [r])
  end.

(** What the route answers. *)
Inductive Response :=
| Json (results : list ItemResult)   (* { success: true, results } *)
| Status500 (error : Err).

(** [router.post('/user/documents/batch', ...)] for the user [userId]. *)
Definition batch (userId action : jsstring) (documentIds : list jsstring)
           (data : BatchData) : M Response :=
  try_catch
    (results <- batch_loop userId action data documentIds [] ;;
     ret (Json results))
    (fun error => ret (Status500 error)).

(** ** The states a store can be in *)

(** A call of the service. *)
Inductive Request :=
| Save (userEmail : jsstring) (documentData : DocumentData)
       (fileBuffer : list N)
| Get (documentId userId : jsstring)
| Delete (documentId userId : jsstring)
| Update (documentId userId : jsstring) (updates : list (jsstring * Value))
| Tags (documentId userId : jsstring) (tags : list jsstring)
| Batch (userId action : jsstring) (documentIds : list jsstring)
        (data : BatchData).

(** The world after a request. *)
Definition after (r : Request) (w : World) : World :=
  match r with
  | Save userEmail documentData fileBuffer =>
      snd (saveDocument userEmail documentData fileBuffer w)
  | Get documentId userId => snd (getDocument documentId userId w)
  | Delete documentId userId => snd (deleteDocument documentId userId w)
  | Update documentId userId updates =>
      snd (updateDocument documentId userId updates w)
  | Tags documentId userId tags =>
      snd (addDocumentTags documentId userId tags w)
  | Batch userId action documentIds data =>
      snd (batch userId action documentIds data w)
  end.

(** A store starts with empty tables; requests take it from state to
    state, and between requests the clock, the identifiers to come and
    the fate of the calls to come are anything. *)
Inductive reachable : World -> Prop :=
| reachable_start : forall fs cascade base c a u,
    reachable (mkWorld fs [] [] [] cascade base c a u [])
| reachable_request : forall w r,
    reachable w -> reachable (after r w)
| reachable_surroundings : forall w c a u,
    reachable w -> reachable (set_clock c (set_answers a (set_uuids u w))).

(** ** Vocabulary of the statements *)

(** The names of the tags of a document, in the order of the table. *)
Definition tag_names (documentId : jsstring) (w : World) : list jsstring :=
  map tag_name (filter (tag_of documentId) (document_tags w)).

(** Is there a row of [documents] with this identifier? *)
Definition has_document (documentId : jsstring) (w : World) : bool :=
  existsb (fun d => eqb (doc_id d) documentId) (documents w).

(** Does [userId] own a document [documentId]? *)
Definition owns (userId documentId : jsstring) (w : World) : bool :=
  existsb (owned_by documentId userId) (documents w).

(** Every tag row of [tgs] points to a row of [docs]. *)
Definition tags_have_documents (docs : list DocRow) (tgs : list TagRow)
  : Prop :=
  forall t, In t tgs ->
            existsb (fun d => eqb (doc_id d) (tag_document_id t)) docs = true.

(** No tag row points to a document that has no row. *)
Definition no_orphan_tags (w : World) : Prop :=
  tags_have_documents (documents w) (document_tags w).

(** The events a run has added to the trace. *)
Definition events_since (w w' : World) : list Event :=
  skipn (length (trace w)) (trace w').

Definition is_insert_document (e : Event) : bool :=
  match e with
  | Done (InsertDocument _) | Failed (InsertDocument _) => true
  | _ => false
  end.

Definition is_insert_log (e : Event) : bool :=
  match e with
  | Done (InsertLog _) | Failed (InsertLog _) => true
  | _ => false
  end.

Definition is_write_done (e : Event) : bool :=
  match e with Done (WriteFile _) => true | _ => false end.

Definition is_write_failed (e : Event) : bool :=
  match e with Failed (WriteFile _) => true | _ => false end.

Definition is_insert_document_done (e : Event) : bool :=
  match e with Done (InsertDocument _) => true | _ => false end.

Definition is_returned {A} (r : Outcome A) : bool :=
  match r with Returned _ => true | Thrown _ => false end.

(** In [evs], is every event that [trigger] picks preceded by one that
    [need] picks?  [seen] tells that one has gone by already. *)
Fixpoint preceded_by (trigger need : Event -> bool) (seen : bool)
         (evs : list Event) : bool :=
  match evs with
  | [] => true
  | e :: rest =>
      (if trigger e then seen else true)
      && preceded_by trigger need (seen || need e) rest
  end.

(** Two worlds with the same files and tables, the same clock and the
    same identifiers to come. *)
Definition same_store (w w' : World) : Prop :=
  files w' = files w /\ documents w' = documents w
  /\ document_tags w' = document_tags w
  /\ ai_generation_logs w' = ai_generation_logs w
  /\ tags_cascade w' = tags_cascade w
  /\ baseStoragePath w' = baseStoragePath w
  /\ clock w' = clock w /\ uuids w' = uuids w.

(** The tags [getDocument] reads for a document. *)
Definition tags_read (id : jsstring) (w : World) : list jsstring :=
  tags_of_column (group_concat (tag_names id w)).

(** The value a key ends up with when [updates] are assigned from left
    to right over [old]. *)
Definition assigned (key : jsstring) (updates : list (jsstring * Value))
           (old : Value) : Value :=
  fold_left (fun acc kv => if eqb (fst kv) key then snd kv else acc)
            updates old.

(** The entry of [results] for one item, from the outcome of its
    action in the world [w]. *)
Definition item_result (userId action : jsstring) (data : BatchData)
           (documentId : jsstring) (w : World) : ItemResult :=
  match fst (batch_action userId action data documentId w) with
  | Returned result => ItemSucceeded documentId result
  | Thrown error => ItemFailed documentId error
  end.

(** The world the items of a batch leave behind, one after the other. *)
Fixpoint batch_world (userId action : jsstring) (data : BatchData)
         (documentIds : list jsstring) (w : World) : World :=
  match documentIds with
  | [] => w
  | documentId :: rest =>
      batch_world userId action data rest
                  (snd (batch_action userId action data documentId w))
  end.

(** The entries of [results], each from the world its predecessors
    left. *)
Fixpoint batch_results (userId action : jsstring) (data : BatchData)
         (documentIds : list jsstring) (w : World) : list ItemResult :=
  match documentIds with
  | [] => []
  | documentId :: rest =>
      item_result userId action data documentId w
      :: batch_results userId action data rest
                       (snd (batch_action userId action data documentId w))
  end.

(** The rows [addDocumentTags] inserts for [tags], with the identifiers
    [us] to come. *)
Fixpoint tag_rows (documentId : jsstring) (tags us : list jsstring)
  : list TagRow :=
  match tags with
  | [] => []
  | tag :: rest =>
      mkTagRow (hd [] us) documentId (trim tag)
      :: tag_rows documentId rest (tl us)
  end.

(** A tag without comma. *)
Definition comma_free (t : jsstring) : bool := negb (includes t (lit ",")).

(** What [updateDocument] makes of a row it reaches, at the time [now]. *)
Definition rewritten (updates : list (jsstring * Value)) (now : N)
           (r : DocRow) : DocRow :=
  touch now (set_columns (updateFields updates) r).

(** The path [saveDocument] writes to in the world [w]. *)
Definition save_path (userEmail : jsstring) (documentData : DocumentData)
           (w : World) : jsstring :=
  documentPath (baseStoragePath w) (clock w) userEmail
               (data_template documentData) (data_title documentData)
               (or_else (data_format documentData) (lit "docx")).

End Store.

Import Store.

(* ================================================================== *)
(** * Sample worlds *)
(* ================================================================== *)

Module Sample.

Definition alice : jsstring := lit "alice@example.com".
Definition bob : jsstring := lit "bob@example.com".

(** An empty store whose schema cascades, with its surroundings. *)
Definition start : World :=
  mkWorld [] [] [] [] true (lit "/srv/app/stored")
          (mkClock 2026 10 1700000000000 1700000000) []
          [lit "doc-1"; lit "log-1"; lit "doc-2"; lit "log-2";
           lit "tag-1"; lit "tag-2"; lit "tag-3"; lit "tag-4"]
          [].

(** The same store under a schema without cascade. *)
Definition start_without_cascade : World :=
  mkWorld [] [] [] [] false (lit "/srv/app/stored")
          (mkClock 2026 10 1700000000000 1700000000) []
          [lit "doc-1"; lit "log-1"; lit "tag-1"; lit "tag-2"]
          [].

Definition outage (userId : jsstring) : DocumentData :=
  mkDocumentData userId (lit "Q1 Outage") (lit "rca") [] (lit "preview")
                 [] [] [].

(** Alice (user [u1]) saves [doc-1], Bob (user [u2]) saves [doc-2]. *)
Definition two_documents : World :=
  after (Save bob (outage (lit "u2")) [80; 75]%N)
        (after (Save alice (outage (lit "u1")) [80; 75]%N) start).

(** The collaborators let the connection and the directory through and
    reject the write. *)
Definition write_rejected : World :=
  set_answers [true; true; false] start.

End Sample.


(* ================================================================== *)
(** * Connections and failures: vocabulary *)
(* ================================================================== *)

Module Service.

(** The connections still open after [evs], when [opened] were open
    before: a connection is opened by a [Connect] that went through and
    released by a call of [connection.end()], whatever its fate.  [None]
    when a release comes with nothing open. *)
Fixpoint connections_left (opened : nat) (evs : list Event) : option nat :=
  match evs with
  | [] => Some opened
  | Done Connect :: rest => connections_left (S opened) rest
  | Done EndConnection :: rest | Failed EndConnection :: rest =>
      match opened with
      | S k => connections_left k rest
      | O => None
      end
  | _ :: rest => connections_left opened rest
  end.

Definition is_insert_log_failed (e : Event) : bool :=
  match e with Failed (InsertLog _) => true | _ => false end.

Definition is_insert_document_failed (e : Event) : bool :=
  match e with Failed (InsertDocument _) => true | _ => false end.

Definition is_end_failed (e : Event) : bool :=
  match e with Failed EndConnection => true | _ => false end.

(** The bytes at [path]. *)
Definition file_content (path : jsstring) (w : World) : option (list N) :=
  match find (file_at path) (files w) with
  | Some e => Some (snd e)
  | None => None
  end.

(** The row [saveDocument] inserts in the world [w]. *)
Definition saved_row (userEmail : jsstring) (documentData : DocumentData)
           (fileBuffer : list N) (w : World) : DocRow :=
  mkDocRow (hd [] (uuids w)) (data_userId documentData)
           (VStr (data_title documentData)) (data_template documentData)
           (save_path userEmail documentData w)
           (or_else (data_contentPreview documentData) [])
           (data_originalSections documentData)
           (data_parsedSections documentData)
           (mkMetadata (nowMs (clock w)) 1
                       (or_else (data_aiModel documentData) (lit "gpt-4")))
           (N.of_nat (length fileBuffer))
           (or_else (data_format documentData) (lit "docx"))
           default_flag default_flag (sqlNow (clock w)) (sqlNow (clock w)).

(** One of the three actions of the batch route. *)
Definition known_action (action : jsstring) : bool :=
  eqb action (lit "delete") || eqb action (lit "favorite")
  || eqb action (lit "archive").

(** The collaborators reject the append to the generation log, and
    nothing else. *)
Definition log_rejected : World :=
  set_answers [true; true; true; true; true; false] Sample.start.

(** The collaborators reject the insert of the metadata row. *)
Definition insert_rejected : World :=
  set_answers [true; true; true; true; false] Sample.start.

(** The two documents of the sample, their files removed behind the
    back of the store. *)
Definition files_lost : World := set_files [] Sample.two_documents.

End Service.

Import Service.

(* ================================================================== *)
(** * The data of a template (server.js, generateDocxFromTemplate) *)
(* ================================================================== *)

Module Render.

(** A step as the client sends it; an absent text is the empty string,
    and so is the address of an absent image. *)
Record Step := mkStep {
  title : jsstring;
  description : jsstring;
  image_url : jsstring;     (* step.image && step.image.url *)
  notes : jsstring
}.

(** The [data] of [generateDocxFromTemplate]: its properties that hold
    text, and [structuredSteps] when it is an array. *)
Record Data := mkData {
  props : SectionMap;
  structuredSteps : option (list Step)
}.

(** A step as the template gets it. *)
Record ProcessedStep := mkProcessedStep {
  step_number : N;
  step_title : jsstring;
  step_description : jsstring;
  step_image : option jsstring;    (* null without image *)
  step_notes : jsstring
}.

(** The object handed to [doc.render]. *)
Record TemplateData := mkTemplateData {
  fields : SectionMap;
  steps : option (list ProcessedStep)   (* the guide alone has [steps] *)
}.

(** [data.key]: nothing, or a text. *)
Definition prop (data : Data) (key : jsstring) : jsstring :=
  match lookup key (props data) with
  | Some v => v
  | None => []
  end.

(** [s.replace(pattern, replacement)] with a text for pattern: the first
    occurrence is replaced. *)
Fixpoint replace_first (pattern replacement s : jsstring) : jsstring :=
  if starts_with pattern s
  then replacement ++ skipn (length pattern) s
  else match s with
       | [] => []
       | c :: s' => c :: replace_first pattern replacement s'
       end.

Definition uploads : jsstring := lit "/uploads/".
Definition localhost : jsstring := lit "http://localhost:3001".

(** The address of the image of a step. *)
Definition imageUrl (step : Step) : option jsstring :=
  if truthy (image_url step)
  then Some (if starts_with uploads (image_url step)
             then image_url step
             else replace_first localhost [] (image_url step))
  else None.

(** [data.structuredSteps.map((step, index) => ...)], from [index] on. *)
Fixpoint processedSteps (index : nat) (steps : list Step)
  : list ProcessedStep :=
  match steps with
  | [] => []
  | step :: rest =>
      mkProcessedStep
        (N.of_nat (index + 1))
        (or_else (title step) (lit "Step " ++ toString (N.of_nat (index + 1))))
        (or_else (description step) [])
        (imageUrl step)
        (or_else (notes step) [])
      :: processedSteps (S index) rest
  end.

(** The three properties every template gets; [today] is
    [new Date().toLocaleDateString('en-GB')]. *)
Definition common (data : Data) (today : jsstring) : SectionMap :=
  [ (lit "guide_title",
     or_else (prop data (lit "guide_title"))
             (or_else (prop data (lit "document_title")) (lit "Document Title")));
    (lit "classification",
     or_else (prop data (lit "classification")) (lit "Standard"));
    (lit "date", today) ].

(** [templateData] as [generateDocxFromTemplate] prepares it for
    [templateType]. *)
Definition templateData (templateType : jsstring) (data : Data)
           (today : jsstring) : TemplateData :=
  if eqb templateType (lit "step-by-step-guide") then
    mkTemplateData
      (common data today ++
       [ (lit "guide_overview",
          or_else (prop data (lit "guide_overview"))
                  (lit "Guide overview not available"));
         (lit "target_audience",
          or_else (prop data (lit "target_audience")) (lit "General users"));
         (lit "prerequisites",
          or_else (prop data (lit "prerequisites"))
                  (lit "No specific prerequisites"));
         (lit "steps_content",
          or_else (prop data (lit "steps_content")) (lit "Steps not available"));
         (lit "conclusion",
          or_else (prop data (lit "conclusion"))
                  (lit "Conclusion not available")) ])
      (Some match structuredSteps data with
            | Some steps => processedSteps 0 steps
            | None => []
            end)
  else
    mkTemplateData
      (common data today ++
       [ (lit "document_title",
          or_else (prop data (lit "document_title"))
                  (lit "Root Cause Analysis Report"));
         (lit "initial_findings",
          or_else (prop data (lit "initial_findings"))
                  (lit "Initial findings not available"));
         (lit "executive_summary",
          or_else (prop data (lit "executive_summary"))
                  (lit "Executive summary not available"));
         (lit "timeline_events",
          or_else (prop data (lit "timeline_events"))
                  (lit "Timeline not available"));
         (lit "risk_impact",
          or_else (prop data (lit "risk_impact"))
                  (lit "Risk assessment not available"));
         (lit "resolution_actions",
          or_else (prop data (lit "resolution_actions"))
                  (lit "Resolution actions not available"));
         (lit "lessons_learned",
          or_else (prop data (lit "lessons_learned"))
                  (lit "Lessons learned not available")) ])
      None.


(** [getImage] of the image module: the file read for the value of an
    image tag, if any; [dirname] is [__dirname]. *)
Definition getImage (dirname tagValue : jsstring) : option jsstring :=
  if truthy tagValue && starts_with uploads tagValue
  then Some (path_join [dirname; tagValue])
  else None.



End Render.

(* ================================================================== *)
(** * The routes over the store (routes/UserRoutes.js, server.js) *)
(* ================================================================== *)

Module Routes.

(** ** Reads of the file system *)

(** The routes read the file system themselves.  A read takes its fate
    from [answers] like every call to a collaborator; the trace keeps the
    calls of the storage service and has no entry for a read. *)

(** [await fs.access(path)]: does it resolve? *)
Definition fs_access (path : jsstring) (w : World) : bool * World :=
  match answers w with
  | false :: rest => (false, set_answers rest w)
  | _ =>
      (match find (file_at path) (files w) with
       | Some _ => true
       | None => false
       end,
       set_answers (tl (answers w)) w)
  end.

(** [await fs.readFile(path)]: the bytes, or nothing when it rejects. *)
Definition fs_readFile (path : jsstring) (w : World)
  : option (list N) * World :=
  match answers w with
  | false :: rest => (None, set_answers rest w)
  | _ => (file_content path w, set_answers (tl (answers w)) w)
  end.

(** ** Texts *)

(** [path.basename(path)] on a POSIX host: the slashes at the end are
    dropped, and what follows the last slash before them is kept. *)
Fixpoint up_to_slash (s : jsstring) : jsstring :=
  match s with
  | [] => []
  | c :: s' => if (c =? slash)%N then [] else c :: up_to_slash s'
  end.

Fixpoint drop_slashes (s : jsstring) : jsstring :=
  match s with
  | [] => []
  | c :: s' => if (c =? slash)%N then drop_slashes s' else s
  end.

Definition basename (path : jsstring) : jsstring :=
  rev (up_to_slash (drop_slashes (rev path))).

(** [`${v}`] for the value [v] read from a text column: a text is
    itself and [NULL] reads [null]; a number that was bound reads as its
    digits, a boolean as the [1] or [0] the database made of it. *)
Definition text_read (v : Value) : jsstring :=
  match v with
  | VStr s => s
  | VNull => lit "null"
  | VUndefined => lit "undefined"
  | VBool b => if b then lit "1" else lit "0"
  | VNum z =>
      if (z <? 0)%Z then hyphen :: toString (Z.abs_N z)
      else toString (Z.to_N z)
  end.

(** ** Answers *)

(** What the body of an error answer tells. *)
Inductive Failure :=
| ServiceError (e : Err)        (* error.message of the storage service *)
| ReadError (path : jsstring)   (* fs.readFile rejected *)
| FileNotInStorage              (* 'File not found in storage' *)
| UnsupportedFormat             (* 'Unsupported export format' *)
| ImageNotFound.                (* 'Image not found' *)

(** An answer: the body sent with status 200, or a status and an
    error. *)
Inductive Reply (A : Type) :=
| Sent (body : A)
| Refused (status : N) (error : Failure).

Arguments Sent {A} body.
Arguments Refused {A} status error.

Definition is_sent {A} (r : Reply A) : bool :=
  match r with Sent _ => true | Refused _ _ => false end.

Definition status_of {A} (r : Reply A) : N :=
  match r with Sent _ => 200%N | Refused status _ => status end.

(** [error.message === 'Document not found'] *)
Definition is_not_found (e : Err) : bool :=
  match e with DocumentNotFound => true | _ => false end.

(** A route over the store. *)
Definition Route (A : Type) : Type := World -> Reply A * World.

(** [try { res.json(await m) } catch (error) {
     res.status(500).json({ error: error.message }) }] *)
Definition answer {A} (m : M A) : Route A := fun w =>
  match m w with
  | (Returned a, w') => (Sent a, w')
  | (Thrown e, w') => (Refused 500 (ServiceError e), w')
  end.

(** ** The routes of a document *)

(** [router.get('/user/documents/:id', ...)] *)
Definition get_document (id userId : jsstring) : Route Document := fun w =>
  match getDocument id userId w with
  | (Returned document, w') => (Sent document, w')
  | (Thrown e, w') =>
      (Refused (if is_not_found e then 404 else 500) (ServiceError e), w')
  end.

(** [router.put('/user/documents/:id', ...)] *)
Definition put_document (id userId : jsstring)
           (updates : list (jsstring * Value)) : Route Document :=
  answer (updateDocument id userId updates).

(** [router.delete('/user/documents/:id', ...)] *)
Definition delete_document (id userId : jsstring) : Route unit :=
  answer (deleteDocument id userId).

(** [router.post('/user/documents/:id/tags', ...)] *)
Definition post_tags (id userId : jsstring) (tags : list jsstring)
  : Route (list jsstring) :=
  answer (addDocumentTags id userId tags).

(** The file a download sends. *)
Record Attachment := mkAttachment {
  attachment_filename : jsstring;   (* of [Content-Disposition] *)
  attachment_content : list N
}.

(** [router.get('/user/documents/:id/download', ...)] *)
Definition download (id userId : jsstring) : Route Attachment := fun w =>
  match getDocument id userId w with
  | (Thrown e, w1) => (Refused 500 (ServiceError e), w1)
  | (Returned document, w1) =>
      let file_path := doc_file_path (row document) in
      match fs_access file_path w1 with
      | (false, w2) => (Refused 404 FileNotInStorage, w2)
      | (true, w2) =>
          match fs_readFile file_path w2 with
          | (None, w3) => (Refused 500 (ReadError file_path), w3)
          | (Some fileBuffer, w3) =>
              (Sent (mkAttachment (basename file_path) fileBuffer), w3)
          end
      end
  end.

(** The [duplicateData] of the duplicate route. *)
Definition duplicateData (userId : jsstring) (originalDocument : Document)
  : DocumentData :=
  mkDocumentData userId
    (text_read (doc_title (row originalDocument)) ++ lit " (Copy)")
    (doc_template_type (row originalDocument))
    (doc_file_format (row originalDocument))
    (doc_content_preview (row originalDocument))
    (doc_original_sections (row originalDocument))
    (doc_parsed_sections (row originalDocument))
    [].

(** [router.post('/user/documents/:id/duplicate', ...)] for the user
    [userId] with the address [userEmail]; the answer carries the
    identifier of the copy. *)
Definition duplicate (id userId userEmail : jsstring) : Route jsstring :=
  fun w =>
  match getDocument id userId w with
  | (Thrown e, w1) => (Refused 500 (ServiceError e), w1)
  | (Returned originalDocument, w1) =>
      let file_path := doc_file_path (row originalDocument) in
      match fs_readFile file_path w1 with
      | (None, w2) => (Refused 500 (ReadError file_path), w2)
      | (Some fileBuffer, w2) =>
          match saveDocument userEmail (duplicateData userId originalDocument)
                             fileBuffer w2 with
          | (Returned result, w3) => (Sent (saved_id result), w3)
          | (Thrown e, w3) => (Refused 500 (ServiceError e), w3)
          end
      end
  end.

(** ** The export *)

(** An entry of the archive. *)
Record Entry := mkEntry {
  entry_name : jsstring;
  entry_content : list N
}.

(** The entry of a document, when its file can be read. *)
Definition entry_of (document : Document) (fileBuffer : list N) : Entry :=
  mkEntry (text_read (doc_title (row document)) ++ lit "."
           ++ doc_file_format (row document))
          fileBuffer.

(** [for (const documentId of documentIds) { try { ...
     archive.append(fileBuffer, { name: filename }) } catch { warn } }] *)
Fixpoint export_loop (userId : jsstring) (documentIds : list jsstring)
         (archive : list Entry) (w : World) : list Entry * World :=
  match documentIds with
  | [] => (archive, w)
  | documentId :: rest =>
      match getDocument documentId userId w with
      | (Thrown _, w1) => export_loop userId rest archive w1
      | (Returned document, w1) =>
          match fs_readFile (doc_file_path (row document)) w1 with
          | (None, w2) => export_loop userId rest archive w2
          | (Some fileBuffer, w2) =>
              export_loop userId rest
                          (archive ++ [entry_of document fileBuffer]) w2
          end
      end
  end.

(** [router.post('/user/documents/export', ...)]; [format] is absent or
    a text. *)
Definition export (userId : jsstring) (documentIds : list jsstring)
           (format : option jsstring) : Route (list Entry) := fun w =>
  if eqb (match format with Some f => f | None => lit "zip" end) (lit "zip")
  then let (archive, w') := export_loop userId documentIds [] w in
       (Sent archive, w')
  else (Refused 400 UnsupportedFormat, w).

(** ** Images (server.js) *)

(** What the upload route reports for the file it stored as
    [filename]; [dirname] is [__dirname]. *)
Definition upload_imageUrl (filename : jsstring) : jsstring :=
  lit "/uploads/" ++ filename.

Definition upload_fullPath (dirname filename : jsstring) : jsstring :=
  path_join [dirname; lit "uploads"; filename].

(** [error.code === 'ENOENT'] *)
Definition is_enoent (e : Err) : bool :=
  match e with NoSuchFile _ => true | _ => false end.

(** [app.delete('/api/delete-image/:filename', ...)] *)
Definition delete_image (dirname filename : jsstring) : Route unit := fun w =>
  match fs_unlink (path_join [dirname; lit "uploads"; filename]) w with
  | (Returned _, w') => (Sent tt, w')
  | (Thrown e, w') =>
      if is_enoent e then (Refused 404 ImageNotFound, w')
      else (Refused 500 (ServiceError e), w')
  end.

(** ** Vocabulary of the statements *)

(** The first row of the caller under an identifier. *)
Definition own_row (documentId userId : jsstring) (w : World)
  : option DocRow :=
  hd_error (filter (owned_by documentId userId) (documents w)).

(** The entries an export gives for [documentIds] when no call is
    rejected: one for each document of the caller whose file is there. *)
Definition entries_of (userId : jsstring) (documentIds : list jsstring)
           (w : World) : list Entry :=
  flat_map
    (fun documentId =>
       match own_row documentId userId w with
       | Some d =>
           match file_content (doc_file_path d) w with
           | Some fileBuffer =>
               [entry_of (mkDocument d (tags_read (doc_id d) w)) fileBuffer]
           | None => []
           end
       | None => []
       end)
    documentIds.

(** An entry an export may hold for [documentIds]: the title, format
    and bytes of a document of the caller that is among them. *)
Definition exported (userId : jsstring) (documentIds : list jsstring)
           (w : World) (e : Entry) : Prop :=
  exists documentId d fileBuffer,
    In documentId documentIds
    /\ In d (documents w)
    /\ doc_id d = documentId
    /\ doc_user_id d = userId
    /\ file_content (doc_file_path d) w = Some fileBuffer
    /\ e = entry_of (mkDocument d (tags_read documentId w)) fileBuffer.

(** A store with one uploaded image. *)
Definition with_image : World :=
  set_files [(lit "/srv/app/uploads/image-1.png", [137; 80; 78; 71]%N);
             (lit "/srv/app/server.js", [47; 47]%N)]
            Sample.start.

End Routes.

(* ================================================================== *)
(** * Who is calling (middleware/auth.js) *)
(* ================================================================== *)

Module Auth.

(** ** Tokens and claims *)

(** [token = authHeader && authHeader.split(' ')[1]], when it is truthy;
    [authHeader] is absent or a text. *)
Definition token_of (authHeader : option jsstring) : option jsstring :=
  match authHeader with
  | None => None
  | Some h =>
      if truthy h then
        match nth_error (split h (lit " ")) 1 with
        | Some token => if truthy token then Some token else None
        | None => None
        end
      else None
  end.

(** The claims of a decoded token the middleware reads; a claim is absent
    or a text. *)
Record Claims := mkClaims {
  oid : option jsstring;
  sub : option jsstring;
  email : option jsstring;
  preferred_username : option jsstring;
  name : option jsstring;
  given_name : option jsstring;
  family_name : option jsstring
}.

(** [a || b] on claims. *)
Definition either (a b : option jsstring) : option jsstring :=
  match a with
  | Some s => if truthy s then a else b
  | None => b
  end.

(** A claim inside a concatenation: an absent one reads [undefined]. *)
Definition shown (a : option jsstring) : jsstring :=
  match a with
  | Some s => s
  | None => lit "undefined"
  end.

(** [decoded.name || decoded.given_name + ' ' + decoded.family_name
     || 'Unknown User'] *)
Definition displayName (decoded : Claims) : jsstring :=
  let full := shown (given_name decoded) ++ lit " "
              ++ shown (family_name decoded) in
  or_else (match name decoded with
           | Some s => if truthy s then s else full
           | None => full
           end)
          (lit "Unknown User").

(** ** The table of users *)

Record UserRow := mkUserRow {
  user_id : jsstring;
  user_azure_id : jsstring;
  user_email : jsstring;
  user_name : jsstring;
  user_created_at : N;
  user_last_login : N;
  user_subscription_tier : Value
}.

(** The table and its surroundings.  The [INSERT] of the middleware
    leaves [subscription_tier] to the schema, which is not among the
    sources: [tier_default] is the value the schema of this directory
    gives it. *)
Record Directory := mkDirectory {
  users : list UserRow;
  tier_default : Value;
  time : N;                  (* NOW() *)
  fresh : list jsstring;     (* what crypto.randomUUID() will give *)
  fate : list bool           (* the fate of the calls to come, as [answers] *)
}.

Definition set_users (u : list UserRow) (s : Directory) : Directory :=
  mkDirectory u (tier_default s) (time s) (fresh s) (fate s).

Definition set_fresh (f : list jsstring) (s : Directory) : Directory :=
  mkDirectory (users s) (tier_default s) (time s) f (fate s).

Definition set_fate (a : list bool) (s : Directory) : Directory :=
  mkDirectory (users s) (tier_default s) (time s) (fresh s) a.

(** What the middleware awaits: a value, or nothing when it threw. *)
Definition T (A : Type) : Type := Directory -> option A * Directory.

Definition retT {A} (a : A) : T A := fun s => (Some a, s).

Definition failT {A} : T A := fun s => (None, s).

Definition bindT {A B} (m : T A) (f : A -> T B) : T B := fun s =>
  match m s with
  | (Some a, s') => f a s'
  | (None, s') => (None, s')
  end.

(** A call to the database: the next fate decides whether it is
    rejected. *)
Definition attempt {A} (body : Directory -> A * Directory) : T A := fun s =>
  match fate s with
  | false :: rest => (None, set_fate rest s)
  | _ => let (a, s') := body (set_fate (tl (fate s)) s) in (Some a, s')
  end.

(** [SELECT * FROM users WHERE azure_id = ? OR email = ?] *)
Definition known_as (azureId address : jsstring) (u : UserRow) : bool :=
  eqb (user_azure_id u) azureId || eqb (user_email u) address.

Definition select_by_identity (azureId address : jsstring)
  : T (list UserRow) :=
  attempt (fun s => (filter (known_as azureId address) (users s), s)).

(** [SELECT * FROM users WHERE id = ?] *)
Definition select_by_id (userId : jsstring) : T (list UserRow) :=
  attempt (fun s => (filter (fun u => eqb (user_id u) userId) (users s), s)).

(** [INSERT INTO users (id, azure_id, email, name, created_at, last_login)
     VALUES (?, ?, ?, ?, NOW(), NOW())] *)
Definition insert_user (userId azureId address displayed : jsstring)
  : T unit :=
  attempt (fun s =>
    (tt,
     set_users (users s ++ [mkUserRow userId azureId address displayed
                                      (time s) (time s) (tier_default s)])
               s)).

(** [UPDATE users SET last_login = NOW() WHERE id = ?] *)
Definition update_last_login (userId : jsstring) : T unit :=
  attempt (fun s =>
    (tt,
     set_users
       (map (fun u =>
               if eqb (user_id u) userId
               then mkUserRow (user_id u) (user_azure_id u) (user_email u)
                              (user_name u) (user_created_at u) (time s)
                              (user_subscription_tier u)
               else u)
            (users s))
       s)).

Definition randomUUID : T jsstring := fun s =>
  (Some (hd [] (fresh s)), set_fresh (tl (fresh s)) s).

(** ** The middleware *)

(** [req.user] *)
Record User := mkUser {
  id : jsstring;
  azureId : jsstring;
  address : jsstring;           (* email *)
  displayed : jsstring;         (* name *)
  subscriptionTier : Value
}.

Definition req_user (user : UserRow) : User :=
  mkUser (user_id user) (user_azure_id user) (user_email user)
         (user_name user) (user_subscription_tier user).

(** The body of the inner [try]: get the user, or create it.  A bound
    parameter that is [undefined] makes [execute] throw. *)
Definition get_or_create (decoded : Claims) : T User :=
  match either (oid decoded) (sub decoded),
        either (email decoded) (preferred_username decoded) with
  | Some azureId, Some address =>
      bindT (select_by_identity azureId address) (fun found =>
      match found with
      | [] =>
          bindT randomUUID (fun userId =>
          bindT (insert_user userId azureId address (displayName decoded))
                (fun _ =>
          bindT (select_by_id userId) (fun newUsers =>
          match newUsers with
          | user :: _ => retT (req_user user)
          | [] => failT
          end)))
      | user :: _ =>
          bindT (update_last_login (user_id user)) (fun _ =>
          retT (req_user user))
      end)
  | _, _ => failT
  end.

(** What the middleware does with the request. *)
Inductive Verdict :=
| Next (user : User) (then_403 : bool)
    (* [next()] with [req.user]; [then_403] when [connection.end()]
       rejected after it and a 403 was sent as well *)
| Deny (status : N).

(** [authenticateToken(req, res, next)]; [verify] is [verifyAzureToken]:
    the claims of a token it accepts. *)
Definition authenticateToken (verify : jsstring -> option Claims)
           (authHeader : option jsstring) (s : Directory)
  : Verdict * Directory :=
  match token_of authHeader with
  | None => (Deny 401, s)
  | Some token =>
      match verify token with
      | None => (Deny 403, s)
      | Some decoded =>
          match attempt (fun s => (tt, s)) s with      (* createConnection *)
          | (None, s1) => (Deny 403, s1)
          | (Some _, s1) =>
              let (found, s2) := get_or_create decoded s1 in
              let (closed, s3) := attempt (fun s => (tt, s)) s2 in
              (match found, closed with
               | Some user, Some _ => Next user false
               | Some user, None => Next user true
               | None, _ => Deny 403
               end, s3)
          end
      end
  end.

(** ** Vocabulary of the statements *)

Definition passed (v : Verdict) : option User :=
  match v with
  | Next user _ => Some user
  | Deny _ => None
  end.

(** A directory between two requests: the time, the identifiers and the
    fates to come are anything. *)
Definition later (now : N) (ids : list jsstring) (s : Directory)
  : Directory :=
  mkDirectory (users s) (tier_default s) now ids [].

(** An empty directory, a verifier that accepts one token, and the
    claims of a caller without a name. *)
Definition nobody : Directory :=
  mkDirectory [] (VStr (lit "free")) 1700000000 [lit "user-1"; lit "user-2"] [].

Definition carol : Claims :=
  mkClaims (Some (lit "oid-carol")) None None
           (Some (lit "carol@example.com")) None None None.

Definition verifier (token : jsstring) : option Claims :=
  if eqb token (lit "good") then Some carol else None.

End Auth.


(* ================================================================== *)
(** * Facts about strings *)
(* ================================================================== *)

Section StringFacts.

Lemma eqb_eq (a b : jsstring) : eqb a b = true <-> a = b.
Proof.
  unfold eqb. destruct (list_eq_dec N.eq_dec a b); split; congruence.
Qed.

Lemma eqb_refl (a : jsstring) : eqb a a = true.
Proof. now apply eqb_eq. Qed.

Lemma eqb_neq (a b : jsstring) : eqb a b = false <-> a <> b.
Proof.
  unfold eqb. destruct (list_eq_dec N.eq_dec a b); split; congruence.
Qed.

Lemma eqb_sym (a b : jsstring) : eqb a b = eqb b a.
Proof.
  destruct (eqb a b) eqn:E.
  - apply eqb_eq in E. subst. now rewrite eqb_refl.
  - apply eqb_neq in E. symmetry. apply eqb_neq. congruence.
Qed.

Lemma starts_with_app (p a b : jsstring) :
  length p <= length a -> starts_with p (a ++ b) = starts_with p a.
Proof.
  revert a. induction p as [|x p IH]; intros [|y a] H; simpl in *;
    try reflexivity; try lia.
  f_equal. apply IH. lia.
Qed.

Lemma starts_with_prefix (p r : jsstring) : starts_with p (p ++ r) = true.
Proof.
  induction p as [|x p IH]; simpl; [reflexivity|].
  now rewrite N.eqb_refl.
Qed.

Lemma starts_with_grows (p a b : jsstring) :
  starts_with p a = true -> starts_with p (a ++ b) = true.
Proof.
  revert a. induction p as [|x p IH]; intros [|y a] H; simpl in *;
    try reflexivity; try discriminate.
  apply andb_true_iff in H as [H1 H2]. rewrite H1. simpl. now apply IH.
Qed.

Lemma includes_cons (c : N) (s p : jsstring) :
  includes (c :: s) p = starts_with p (c :: s) || includes s p.
Proof. reflexivity. Qed.

Lemma includes_shrinks (a b p : jsstring) :
  includes (a ++ b) p = false -> includes a p = false.
Proof.
  induction a as [|x a IH]; intros H.
  - destruct p as [|y p]; [destruct b; discriminate|reflexivity].
  - change ((x :: a) ++ b) with (x :: a ++ b) in H.
    rewrite includes_cons in *. apply orb_false_iff in H as [H1 H2].
    apply orb_false_iff. split; [|now apply IH].
    destruct (starts_with p (x :: a)) eqn:E; [|reflexivity].
    apply starts_with_grows with (b := b) in E. simpl in E. congruence.
Qed.

(** The units of a matched separator are passed over. *)
Lemma split_from_skip (sep x cur rest : jsstring) :
  split_from sep (length x) cur (x ++ rest) = split_from sep 0 cur rest.
Proof.
  induction x as [|c x IH]; simpl; [|exact IH].
  destruct rest; reflexivity.
Qed.

(** A piece the separator does not reach into is the next element. *)
Lemma split_from_piece (sep seg cur rest : jsstring) :
  sep <> [] ->
  includes (seg ++ removelast sep) sep = false ->
  split_from sep 0 cur (seg ++ sep ++ rest)
  = (rev cur ++ seg) :: split_from sep 0 [] rest.
Proof.
  intros Hsep. revert cur. induction seg as [|x seg IH]; intros cur H.
  - destruct sep as [|c sep']; [congruence|]. rewrite app_nil_r.
    change ([] ++ (c :: sep') ++ rest) with (c :: sep' ++ rest).
    cbn [split_from].
    change (c :: sep' ++ rest) with ((c :: sep') ++ rest).
    rewrite starts_with_prefix. f_equal.
    replace (length (c :: sep') - 1) with (length sep') by (simpl; lia).
    apply split_from_skip.
  - change ((x :: seg) ++ removelast sep) with (x :: seg ++ removelast sep) in H.
    rewrite includes_cons in H. apply orb_false_iff in H as [H1 H2].
    change ((x :: seg) ++ sep ++ rest) with (x :: seg ++ sep ++ rest).
    cbn [split_from].
    assert (E : starts_with sep (x :: seg ++ sep ++ rest) = false).
    { rewrite (app_removelast_last 0%N Hsep) at 2.
      rewrite <- app_assoc.
      change (x :: seg ++ removelast sep ++ [last sep 0%N] ++ rest)
        with ((x :: seg) ++ removelast sep ++ [last sep 0%N] ++ rest).
      rewrite app_assoc. rewrite starts_with_app; [exact H1|].
      rewrite length_app. simpl.
      assert (L : length sep = length (removelast sep) + 1).
      { rewrite (app_removelast_last 0%N Hsep) at 1.
        now rewrite length_app. }
      lia. }
    rewrite E. rewrite IH by exact H2. simpl. now rewrite <- app_assoc.
Qed.

(** A text without separator is one piece. *)
Lemma split_from_whole (sep seg cur : jsstring) :
  sep <> [] ->
  includes seg sep = false ->
  split_from sep 0 cur seg = [rev cur ++ seg].
Proof.
  intros Hsep. revert cur. induction seg as [|x seg IH]; intros cur H.
  - simpl. now rewrite app_nil_r.
  - rewrite includes_cons in H. apply orb_false_iff in H as [H1 H2].
    cbn [split_from]. rewrite H1. rewrite IH by exact H2.
    simpl. now rewrite <- app_assoc.
Qed.

(** Splitting what was joined gives back the pieces, when the separator
    reaches into none of them. *)
Lemma split_join (sep : jsstring) (pieces : list jsstring) :
  sep <> [] -> pieces <> [] ->
  Forall (fun s => includes (s ++ removelast sep) sep = false) pieces ->
  split (join sep pieces) sep = pieces.
Proof.
  intros Hsep Hne Hall.
  assert (E : split (join sep pieces) sep = split_from sep 0 [] (join sep pieces))
    by (destruct sep; [congruence | reflexivity]).
  rewrite E. clear E.
  induction pieces as [|s rest IH]; [congruence|].
  inversion Hall as [|? ? Hs Hrest]; subst.
  destruct rest as [|s2 rest].
  - simpl. apply split_from_whole; [assumption|].
    eapply includes_shrinks; eassumption.
  - change (join sep (s :: s2 :: rest)) with (s ++ sep ++ join sep (s2 :: rest)).
    rewrite split_from_piece by assumption. simpl rev. simpl app.
    f_equal. apply IH; [discriminate|assumption].
Qed.

(** With a separator of one unit, the pieces of a text and of what follows
    the separator after it lie side by side. *)
Lemma split_from_unit_app (c : N) (a b cur : jsstring) :
  split_from [c] 0 cur (a ++ c :: b)
  = split_from [c] 0 cur a ++ split_from [c] 0 [] b.
Proof.
  revert cur. induction a as [|x a IH]; intros cur.
  - simpl. rewrite N.eqb_refl. reflexivity.
  - change ((x :: a) ++ c :: b) with (x :: a ++ c :: b).
    cbn [split_from starts_with length Nat.sub].
    destruct (c =? x)%N; simpl andb; cbn iota.
    + rewrite IH. reflexivity.
    + apply IH.
Qed.

Lemma split_join_unit (c : N) (pieces : list jsstring) :
  pieces <> [] ->
  split (join [c] pieces) [c] = flat_map (fun s => split s [c]) pieces.
Proof.
  intros Hne. unfold split.
  induction pieces as [|s rest IH]; [congruence|].
  destruct rest as [|s2 rest].
  - simpl. now rewrite app_nil_r.
  - change (join [c] (s :: s2 :: rest)) with (s ++ [c] ++ join [c] (s2 :: rest)).
    change (s ++ [c] ++ join [c] (s2 :: rest))
      with (s ++ c :: join [c] (s2 :: rest)).
    rewrite split_from_unit_app. cbn [flat_map]. f_equal.
    apply IH. discriminate.
Qed.

Lemma trim_nil : trim [] = [].
Proof. reflexivity. Qed.

Lemma truthy_trim (p : jsstring) : truthy (trim p) = true -> truthy p = true.
Proof. destruct p; [discriminate | reflexivity]. Qed.

Lemma trimmed_or_empty (p : jsstring) :
  (if truthy p then trim p else []) = trim p.
Proof. destruct p; reflexivity. Qed.

End StringFacts.

(* ================================================================== *)
(** * The section parsers *)
(* ================================================================== *)

Section ParserFacts.

Lemma ends_in_hyphen_cons (x : N) (s : jsstring) :
  s <> [] -> ends_in_hyphen (x :: s) = ends_in_hyphen s.
Proof.
  intros Hs. unfold ends_in_hyphen. simpl rev.
  destruct (rev s) as [|c r] eqn:E; [|reflexivity].
  apply (f_equal (@rev N)) in E. rewrite rev_involutive in E. contradiction.
Qed.

(** The delimiter does not reach into a clean segment. *)
Lemma clean_segment_apart (s : jsstring) :
  clean_segment s = true ->
  includes (s ++ removelast delimiter) delimiter = false.
Proof.
  unfold clean_segment. intros H.
  apply andb_true_iff in H as [H1 H2].
  apply negb_true_iff in H1, H2.
  change (removelast delimiter) with [hyphen; hyphen].
  change delimiter with [hyphen; hyphen; hyphen] in *.
  induction s as [|x s IH]; [reflexivity|].
  rewrite includes_cons in H1. apply orb_false_iff in H1 as [Hx Hs].
  change ((x :: s) ++ [hyphen; hyphen]) with (x :: s ++ [hyphen; hyphen]).
  rewrite includes_cons. apply orb_false_iff. split.
  - destruct s as [|y [|z s]].
    + unfold ends_in_hyphen in H2. cbn [rev app] in H2.
      cbn [starts_with app]. rewrite N.eqb_sym, H2. reflexivity.
    + rewrite ends_in_hyphen_cons in H2 by discriminate.
      unfold ends_in_hyphen in H2. cbn [rev app] in H2.
      cbn [starts_with app]. rewrite (N.eqb_sym _ y), H2.
      now rewrite andb_false_r.
    + change (x :: (y :: z :: s) ++ [hyphen; hyphen])
        with ((x :: y :: z :: s) ++ [hyphen; hyphen]).
      rewrite starts_with_app; [exact Hx | simpl; lia].
  - destruct s as [|y s]; [reflexivity|].
    apply IH; [exact Hs|].
    now rewrite ends_in_hyphen_cons in H2 by discriminate.
Qed.

Lemma parts_of_join (segments : list jsstring) :
  segments <> [] -> forallb clean_segment segments = true ->
  parts_of (join delimiter segments) = segments.
Proof.
  intros Hne Hclean. unfold parts_of. apply split_join.
  - discriminate.
  - exact Hne.
  - apply Forall_forall. intros s Hs. apply clean_segment_apart.
    rewrite forallb_forall in Hclean. now apply Hclean.
Qed.

Lemma paragraphs_truthy (content : jsstring) :
  Forall (fun p => truthy p = true) (paragraphs_of content).
Proof.
  apply Forall_forall. intros p Hp. unfold paragraphs_of in Hp.
  apply filter_In in Hp as [_ Hp]. now apply truthy_trim.
Qed.

Lemma or_else_truthy (p : jsstring) : truthy p = true -> or_else p [] = p.
Proof. unfold or_else. now intros ->. Qed.

(** The report parser, tier by tier. *)
Lemma parse_report (template content : jsstring) :
  is_guide template = false ->
  parse template content =
  if 6 <=? length (parts_of content)
  then strict_assignment template (parts_of content)
  else if 6 <=? length (paragraphs_of content)
       then combine report_keys (firstn 6 (paragraphs_of content))
       else total_fallback template content.
Proof.
  intros Hg. unfold parse, strict_assignment, total_fallback, placeholders,
    required_count, section_keys. rewrite Hg.
  unfold parseAIResponse. fold (parts_of content). fold (paragraphs_of content).
  destruct (6 <=? length (parts_of content)); [reflexivity|].
  destruct (6 <=? length (paragraphs_of content)) eqn:E; [|reflexivity].
  apply Nat.leb_le in E.
  pose proof (paragraphs_truthy content) as T.
  destruct (paragraphs_of content) as [|p0 [|p1 [|p2 [|p3 [|p4 [|p5 rest]]]]]];
    simpl in E; try lia.
  repeat match goal with
         | H : Forall _ (_ :: _) |- _ => inversion H; clear H; subst
         end.
  unfold paragraph_or_empty. simpl nth_error. cbv beta iota.
  rewrite !or_else_truthy by assumption. reflexivity.
Qed.

(** The guide parser has two tiers. *)
Lemma parse_guide (template content : jsstring) :
  is_guide template = true ->
  parse template content =
  if 5 <=? length (parts_of content)
  then strict_assignment template (parts_of content)
  else total_fallback template content.
Proof.
  intros Hg. unfold parse, strict_assignment, total_fallback, placeholders,
    required_count, section_keys. rewrite Hg.
  unfold parseStepByStepResponse. fold (parts_of content).
  destruct (5 <=? length (parts_of content)); reflexivity.
Qed.

Lemma required_count_cases (template : jsstring) :
  required_count template = if is_guide template then 5 else 6.
Proof.
  unfold required_count, section_keys. destruct (is_guide template); reflexivity.
Qed.

(** With enough parts the strict assignment hands the first parts over,
    trimmed. *)
Lemma strict_assignment_firstn (template : jsstring) (parts : list jsstring) :
  required_count template <= length parts ->
  strict_assignment template parts
  = combine (section_keys template)
            (map trim (firstn (required_count template) parts)).
Proof.
  rewrite required_count_cases. unfold strict_assignment.
  rewrite required_count_cases. unfold section_keys.
  destruct (is_guide template); intros H.
  - destruct parts as [|p0 [|p1 [|p2 [|p3 [|p4 rest]]]]]; simpl in H; try lia.
    unfold trimmed_part. simpl. now rewrite !trimmed_or_empty.
  - destruct parts as [|p0 [|p1 [|p2 [|p3 [|p4 [|p5 rest]]]]]];
      simpl in H; try lia.
    unfold trimmed_part. simpl. now rewrite !trimmed_or_empty.
Qed.

Lemma strict_assignment_short (template : jsstring) (parts : list jsstring) :
  length parts < required_count template ->
  last_value (strict_assignment template parts) = [].
Proof.
  rewrite required_count_cases. unfold strict_assignment.
  rewrite required_count_cases. unfold section_keys.
  destruct (is_guide template); intros H.
  - destruct parts as [|p0 [|p1 [|p2 [|p3 [|p4 rest]]]]]; simpl in H;
      try lia; reflexivity.
  - destruct parts as [|p0 [|p1 [|p2 [|p3 [|p4 [|p5 rest]]]]]];
      simpl in H; try lia; reflexivity.
Qed.

Lemma fallbacks_fill_last (template content : jsstring) :
  length (parts_of content) < required_count template ->
  last_value (parse template content) <> [].
Proof.
  rewrite required_count_cases.
  destruct (is_guide template) eqn:Hg; intros H.
  - rewrite parse_guide by assumption.
    apply Nat.leb_gt in H. rewrite H.
    unfold total_fallback, section_keys, placeholders. rewrite Hg.
    discriminate.
  - rewrite parse_report by assumption.
    apply Nat.leb_gt in H. rewrite H.
    destruct (6 <=? length (paragraphs_of content)) eqn:E.
    + apply Nat.leb_le in E. pose proof (paragraphs_truthy content) as T.
      destruct (paragraphs_of content)
        as [|p0 [|p1 [|p2 [|p3 [|p4 [|p5 rest]]]]]]; simpl in E; try lia.
      repeat match goal with
             | H : Forall _ (_ :: _) |- _ => inversion H; clear H; subst
             end.
      unfold last_value. simpl. destruct p5; discriminate.
    + unfold total_fallback, section_keys, placeholders. rewrite Hg.
      discriminate.
Qed.

End ParserFacts.

(* ================================================================== *)
(** * The ladder of the parser *)
(* ================================================================== *)

Section ParserLadder.

(** C1, as stated, fails: the first tier is taken with more parts than
    the template has sections.  Seven parts for a report, six for a guide:
    the parser keeps the leading ones and drops the rest. *)
Lemma strict_split_taken_beyond_exact_count :
  let report := lit "a---b---c---d---e---f---g" in
  let guide := lit "a---b---c---d---e---f" in
  (uses_strict_split (lit "rca") report
   /\ length (parts_of report) = 7
   /\ required_count (lit "rca") = 6
   /\ lookup (lit "lessons_learned") (parse (lit "rca") report)
      = Some (lit "f"))
  /\ (uses_strict_split (lit "step-by-step-guide") guide
      /\ length (parts_of guide) = 6
      /\ required_count (lit "step-by-step-guide") = 5
      /\ lookup (lit "conclusion") (parse (lit "step-by-step-guide") guide)
         = Some (lit "e")).
Proof. vm_compute. repeat split; reflexivity. Qed.

(** C1, amended: the parser takes the first tier exactly when the split
    on the delimiter yields at least as many parts as the template has
    sections; key number [i] then receives part number [i], trimmed, and
    the parts beyond the last key are dropped.  In particular, for clean
    segments, one per section, joined by the delimiter, every section is
    its segment, trimmed. *)
Theorem strict_split_iff_enough_parts (template content : jsstring) :
  (uses_strict_split template content
   <-> required_count template <= length (parts_of content))
  /\ (required_count template <= length (parts_of content) ->
      parse template content
      = combine (section_keys template)
                (map trim (firstn (required_count template)
                                  (parts_of content))))
  /\ (forall segments : list jsstring,
        length segments = required_count template ->
        forallb clean_segment segments = true ->
        parse template (join delimiter segments)
        = combine (section_keys template) (map trim segments)).
Proof.
  assert (Enough : forall c,
             required_count template <= length (parts_of c) ->
             parse template c = strict_assignment template (parts_of c)).
  { intros c H. rewrite required_count_cases in H.
    destruct (is_guide template) eqn:Hg.
    - rewrite parse_guide by assumption. apply Nat.leb_le in H. now rewrite H.
    - rewrite parse_report by assumption. apply Nat.leb_le in H. now rewrite H. }
  split; [|split].
  - unfold uses_strict_split. split; [|apply Enough].
    intros H. destruct (le_lt_dec (required_count template)
                                  (length (parts_of content))) as [L|L];
      [exact L|].
    exfalso. apply (fallbacks_fill_last template content L).
    rewrite H. now apply strict_assignment_short.
  - intros H. rewrite Enough by exact H. now apply strict_assignment_firstn.
  - intros segments Hlen Hclean.
    assert (Hne : segments <> []).
    { intros ->. rewrite required_count_cases in Hlen.
      destruct (is_guide template); discriminate. }
    pose proof (parts_of_join Hne Hclean) as P.
    rewrite Enough by (rewrite P; lia).
    rewrite strict_assignment_firstn by (rewrite P; lia).
    rewrite P, <- Hlen, firstn_all. reflexivity.
Qed.

Lemma strict_split_iff_enough_parts_witness :
  let segments :=
    [lit " found "; lit "summary"; lit "09:00 - alert"; lit "low";
     lit "restarted"; lit "monitor more "] in
  parse (lit "rca") (join delimiter segments)
  = combine report_keys
            [lit "found"; lit "summary"; lit "09:00 - alert"; lit "low";
             lit "restarted"; lit "monitor more"].
Proof.
  intros segments.
  exact (proj2 (proj2 (strict_split_iff_enough_parts (lit "rca") []))
               segments eq_refl eq_refl).
Defined.

(** C2, as stated, fails.  On the empty text the guide parser falls to
    its last tier, and three of its four fixed strings are not of the
    form ["<Section name> not properly parsed"]; and a text of seven
    parts, which is neither of six parts nor of six paragraphs, is not
    kept whole under the first key of a report. *)
Lemma last_tier_differs_from_wording :
  let guide := lit "step-by-step-guide" in
  let report := lit "a---b---c---d---e---f---g" in
  (length (parts_of []) <> required_count guide
   /\ length (paragraphs_of []) < required_count guide
   /\ lookup (lit "target_audience") (parse guide [])
      = Some (lit "General users")
   /\ not_properly_parsed_form (lit "General users") = false)
  /\ (length (parts_of report) <> required_count (lit "rca")
      /\ length (paragraphs_of report) < required_count (lit "rca")
      /\ lookup (lit "initial_findings") (parse (lit "rca") report)
         = Some (lit "a")
      /\ lit "a" <> report).
Proof. vm_compute. repeat split; try reflexivity; try discriminate; lia. Qed.

(** C2, amended: when the split on the delimiter yields fewer parts than
    the template has sections and the text has fewer paragraphs than
    that, the whole text goes under the first key and each other key gets
    its fixed string: of the form ["<Section name> not properly parsed"]
    for a report; ["General users"], ["No specific prerequisites"],
    ["Steps not properly parsed"] and ["Conclusion not available"] for a
    guide. *)
Theorem total_fallback_when_no_tier_fits (template content : jsstring) :
  length (parts_of content) < required_count template ->
  length (paragraphs_of content) < required_count template ->
  parse template content
  = combine (section_keys template) (content :: placeholders template)
  /\ (is_guide template = false ->
      forallb not_properly_parsed_form (placeholders template) = true)
  /\ (is_guide template = true ->
      placeholders template
      = [lit "General users"; lit "No specific prerequisites";
         lit "Steps not properly parsed"; lit "Conclusion not available"]).
Proof.
  intros Hparts Hpars. rewrite required_count_cases in *.
  split; [|split].
  - fold (total_fallback template content).
    destruct (is_guide template) eqn:Hg.
    + rewrite parse_guide by assumption.
      apply Nat.leb_gt in Hparts. now rewrite Hparts.
    + rewrite parse_report by assumption.
      apply Nat.leb_gt in Hparts, Hpars. now rewrite Hparts, Hpars.
  - intros Hg. unfold placeholders. rewrite Hg. reflexivity.
  - intros Hg. unfold placeholders. rewrite Hg. reflexivity.
Qed.

(** The empty text reaches the last tier of either parser. *)
Lemma total_fallback_when_no_tier_fits_witness :
  parse (lit "rca") []
  = combine report_keys ([] :: report_placeholders)
  /\ parse (lit "step-by-step-guide") []
     = combine guide_keys ([] :: guide_placeholders).
Proof.
  split.
  - apply (total_fallback_when_no_tier_fits (lit "rca") []);
      vm_compute; lia.
  - apply (total_fallback_when_no_tier_fits (lit "step-by-step-guide") []);
      vm_compute; lia.
Defined.

(** C3, as stated, fails.  The guide parser has no paragraph tier: five
    paragraphs without delimiter end under the first key, whole; and a
    report of seven parts and six paragraphs is split at the delimiters,
    not into its paragraphs. *)
Lemma paragraph_tier_missed :
  let guide := lit "step-by-step-guide" in
  let five := join blank_line
                [lit "one"; lit "two"; lit "three"; lit "four"; lit "five"] in
  let seven := join blank_line
                 [lit "a---b---c---d---e---f---g"; lit "h"; lit "i"; lit "j";
                  lit "k"; lit "l"] in
  (length (parts_of five) <> required_count guide
   /\ required_count guide <= length (paragraphs_of five)
   /\ parse guide five
      <> combine (section_keys guide)
                 (firstn (required_count guide) (paragraphs_of five))
   /\ parse guide five = total_fallback guide five)
  /\ (length (parts_of seven) <> required_count (lit "rca")
      /\ required_count (lit "rca") <= length (paragraphs_of seven)
      /\ parse (lit "rca") seven
         <> combine (section_keys (lit "rca"))
                    (firstn (required_count (lit "rca")) (paragraphs_of seven))
      /\ uses_strict_split (lit "rca") seven).
Proof.
  vm_compute. repeat split; try reflexivity; try discriminate; lia.
Qed.

(** C3, amended: for a report, when the split on the delimiter yields
    fewer than six parts and the text has at least six paragraphs, the
    first six paragraphs go to the six keys in order, as they are, and
    the others are dropped.  A guide has no such tier: with fewer than
    five parts its whole text goes under the first key.  The parser is a
    total function: it raises in no case. *)
Theorem paragraph_tier_of_reports (template content : jsstring) :
  length (parts_of content) < required_count template ->
  (is_guide template = false ->
   6 <= length (paragraphs_of content) ->
   parse template content
   = combine report_keys (firstn 6 (paragraphs_of content)))
  /\ (is_guide template = true ->
      parse template content
      = combine guide_keys (content :: guide_placeholders)).
Proof.
  intros Hparts. rewrite required_count_cases in Hparts. split; intros Hg.
  - intros Hpars. rewrite parse_report by assumption. rewrite Hg in Hparts.
    apply Nat.leb_gt in Hparts. apply Nat.leb_le in Hpars.
    now rewrite Hparts, Hpars.
  - rewrite parse_guide by assumption. rewrite Hg in Hparts.
    apply Nat.leb_gt in Hparts. rewrite Hparts.
    unfold total_fallback, section_keys, placeholders. now rewrite Hg.
Qed.

Lemma paragraph_tier_of_reports_witness :
  let seven := join blank_line
                 [lit "one"; lit "two"; lit "three"; lit "four"; lit "five";
                  lit "six"; lit "seven"] in
  parse (lit "rca") seven
  = combine report_keys
            [lit "one"; lit "two"; lit "three"; lit "four"; lit "five";
             lit "six"]
  /\ parse (lit "step-by-step-guide") seven
     = combine guide_keys (seven :: guide_placeholders).
Proof.
  intros seven. split.
  - apply (proj1 (paragraph_tier_of_reports (lit "rca") seven
                    ltac:(vm_compute; lia)));
      [reflexivity | vm_compute; lia].
  - apply (proj2 (paragraph_tier_of_reports (lit "step-by-step-guide") seven
                    ltac:(vm_compute; lia))).
    reflexivity.
Defined.

End ParserLadder.


(* ================================================================== *)
(** * Storage paths *)
(* ================================================================== *)

Section PathFacts.

Lemma string_of_uint_digits (d : Decimal.uint) :
  forallb is_digit (lit (NilEmpty.string_of_uint d)) = true.
Proof. induction d; simpl; auto. Qed.

Lemma toString_digits (n : N) : forallb is_digit (toString n) = true.
Proof. apply string_of_uint_digits. Qed.

Lemma toString_truthy (n : N) : truthy (toString n) = true.
Proof.
  unfold toString. destruct n as [|p]; [reflexivity|].
  simpl N.to_uint. pose proof (DecimalPos.Unsigned.to_uint_nonnil p) as H.
  destruct (Pos.to_uint p); [congruence | reflexivity..].
Qed.

Lemma without_slash_app (a b : jsstring) :
  without_slash (a ++ b) = without_slash a && without_slash b.
Proof. unfold without_slash. now rewrite existsb_app, negb_orb. Qed.

Lemma digits_without_slash (s : jsstring) :
  forallb is_digit s = true -> without_slash s = true.
Proof.
  unfold without_slash. induction s as [|c s IH]; [reflexivity|].
  cbn [existsb forallb]. intros H. apply andb_true_iff in H as [Hc Hs].
  rewrite negb_orb, (IH Hs), andb_true_r.
  destruct (slash =? c)%N eqn:E; [|reflexivity].
  apply N.eqb_eq in E. subst c. discriminate Hc.
Qed.

(** A piece that does not start with a dot is plain as soon as it has no
    slash. *)
Lemma plain_piece_by_head (c : N) (s : jsstring) :
  (c =? dot)%N = false -> without_slash (c :: s) = true ->
  plain_piece (c :: s) = true.
Proof.
  intros Hc Hs. unfold plain_piece. fold (without_slash (c :: s)).
  rewrite Hs. simpl truthy. simpl andb.
  assert (E1 : eqb (c :: s) [dot] = false).
  { apply eqb_neq. intros E. injection E as E _. subst.
    now rewrite N.eqb_refl in Hc. }
  assert (E2 : eqb (c :: s) [dot; dot] = false).
  { apply eqb_neq. intros E. injection E as E _. subst.
    now rewrite N.eqb_refl in Hc. }
  now rewrite E1, E2.
Qed.

Lemma digits_plain (s : jsstring) :
  truthy s = true -> forallb is_digit s = true -> plain_piece s = true.
Proof.
  intros Ht Hd. destruct s as [|c s]; [discriminate|].
  apply plain_piece_by_head; [|now apply digits_without_slash].
  cbn [forallb] in Hd. apply andb_true_iff in Hd as [Hc _].
  destruct (c =? dot)%N eqn:E; [|reflexivity].
  apply N.eqb_eq in E. subst c. discriminate Hc.
Qed.

Lemma toString_plain (n : N) : plain_piece (toString n) = true.
Proof. apply digits_plain; [apply toString_truthy | apply toString_digits]. Qed.

Lemma padStart_plain (n : N) (k : nat) :
  plain_piece (padStart (toString n) k 48%N) = true.
Proof.
  apply digits_plain.
  - unfold padStart. pose proof (toString_truthy n) as H.
    destruct (repeat 48%N (k - length (toString n))); [exact H | reflexivity].
  - unfold padStart. rewrite forallb_app, toString_digits, andb_true_r.
    induction (k - length (toString n)); simpl; auto.
Qed.

Lemma safe_unit_not_slash (c : N) : safe_unit c = true -> (slash =? c)%N = false.
Proof.
  intros H. destruct (slash =? c)%N eqn:E; [|reflexivity].
  apply N.eqb_eq in E. subst. discriminate.
Qed.

Lemma replace_space_runs_units (b : bool) (s : jsstring) :
  forallb title_unit s = true ->
  forallb safe_unit (replace_space_runs b s) = true.
Proof.
  revert b. induction s as [|c s IH]; intros b H; [reflexivity|].
  cbn [forallb] in H. apply andb_true_iff in H as [Hc Hs].
  cbn [replace_space_runs]. destruct (is_space c) eqn:Sp.
  - destruct b; cbn [forallb]; rewrite ?IH by assumption; reflexivity.
  - cbn [forallb]. rewrite IH by assumption. rewrite andb_true_r.
    unfold title_unit in Hc. rewrite Sp in Hc. unfold safe_unit.
    rewrite orb_false_r in Hc. now rewrite Hc.
Qed.

Lemma safeTitle_units (title : jsstring) :
  forallb safe_unit (safeTitle title) = true.
Proof.
  unfold safeTitle. apply replace_space_runs_units.
  apply forallb_forall. intros c Hc. now apply filter_In in Hc.
Qed.

Lemma safe_units_without_slash (s : jsstring) :
  forallb safe_unit s = true -> without_slash s = true.
Proof.
  unfold without_slash. induction s as [|c s IH]; [reflexivity|].
  cbn [existsb forallb]. intros H. apply andb_true_iff in H as [Hc Hs].
  rewrite negb_orb, (IH Hs), andb_true_r.
  now rewrite (safe_unit_not_slash _ Hc).
Qed.

(** White space leaves no two underscores side by side. *)
Lemma replace_space_runs_single (b : bool) (s : jsstring) :
  forallb title_unit s = true ->
  includes (replace_space_runs b s) [underscore; underscore] = false
  /\ (b = true -> starts_with [underscore] (replace_space_runs b s) = false).
Proof.
  revert b. induction s as [|c s IH]; intros b H; [split; reflexivity|].
  simpl in H. apply andb_true_iff in H as [Hc Hs].
  assert (Hu : is_space c = false -> (underscore =? c)%N = false).
  { intros Sp. unfold title_unit in Hc. rewrite Sp, orb_false_r in Hc.
    destruct (underscore =? c)%N eqn:E; [|reflexivity].
    apply N.eqb_eq in E. subst. discriminate. }
  cbn [replace_space_runs]. destruct (is_space c) eqn:Sp.
  - destruct (IH true Hs) as [I1 I2]. specialize (I2 eq_refl).
    destruct b; [split; [exact I1 | intros _; exact I2]|].
    split; [|discriminate].
    rewrite includes_cons, I1, orb_false_r.
    cbn [starts_with]. rewrite N.eqb_refl. simpl andb.
    destruct (replace_space_runs true s) as [|y r]; [reflexivity|].
    cbn [starts_with] in *. now rewrite andb_true_r in *.
  - destruct (IH false Hs) as [I1 _]. specialize (Hu eq_refl).
    split.
    + rewrite includes_cons, I1, orb_false_r.
      cbn [starts_with]. now rewrite Hu.
    + intros _. cbn [starts_with]. now rewrite Hu.
Qed.

Lemma safeTitle_single_underscores (title : jsstring) :
  includes (safeTitle title) [underscore; underscore] = false.
Proof.
  unfold safeTitle. apply replace_space_runs_single.
  apply forallb_forall. intros c Hc. now apply filter_In in Hc.
Qed.

Lemma sanitizedEmail_units (userEmail : jsstring) :
  forallb (fun c => email_unit c || (c =? underscore)%N)
          (sanitizedEmail userEmail) = true.
Proof.
  unfold sanitizedEmail. induction userEmail as [|c s IH]; [reflexivity|].
  simpl. rewrite IH, andb_true_r.
  destruct (email_unit c) eqn:E; [now rewrite E | reflexivity].
Qed.

End PathFacts.

Section PathJoin.

Lemma plain_piece_facts (p : jsstring) :
  plain_piece p = true ->
  truthy p = true /\ without_slash p = true
  /\ eqb p [] = false /\ eqb p [dot] = false /\ eqb p [dot; dot] = false.
Proof.
  unfold plain_piece. fold (without_slash p). intros H.
  apply andb_true_iff in H as [H H4]. apply andb_true_iff in H as [H H3].
  apply andb_true_iff in H as [H1 H2].
  apply negb_true_iff in H3, H4. repeat split; try assumption.
  destruct p; [discriminate|]. apply eqb_neq. discriminate.
Qed.

Lemma without_slash_includes (s : jsstring) :
  without_slash s = true -> includes s [slash] = false.
Proof.
  unfold without_slash. induction s as [|c s IH]; [reflexivity|].
  cbn [existsb]. rewrite negb_orb. intros H.
  apply andb_true_iff in H as [Hc Hs]. apply negb_true_iff in Hc.
  rewrite includes_cons, (IH Hs), orb_false_r.
  cbn [starts_with]. now rewrite Hc.
Qed.

Lemma split_plain (p : jsstring) :
  plain_piece p = true -> split p [slash] = [p].
Proof.
  intros H. apply plain_piece_facts in H as (_ & H & _).
  unfold split. rewrite split_from_whole; [reflexivity | discriminate |].
  now apply without_slash_includes.
Qed.

Lemma flat_map_split_plain (ps : list jsstring) :
  Forall (fun p => plain_piece p = true) ps ->
  flat_map (fun s => split s [slash]) ps = ps.
Proof.
  induction 1 as [|p ps Hp _ IH]; [reflexivity|].
  cbn [flat_map]. now rewrite split_plain, IH.
Qed.

Lemma normalize_pieces_plain (b : bool) (l1 res l2 : list jsstring) :
  Forall (fun p => plain_piece p = true) l1 ->
  normalize_pieces b res (l1 ++ l2) = normalize_pieces b (rev l1 ++ res) l2.
Proof.
  intros H. revert res. induction H as [|p l1 Hp _ IH]; intros res;
    [reflexivity|].
  apply plain_piece_facts in Hp as (_ & _ & E0 & E1 & E2).
  cbn [app normalize_pieces]. rewrite E0, E1, E2. cbn [orb].
  rewrite IH. cbn [rev]. now rewrite <- app_assoc.
Qed.

Lemma normalize_pieces_all_plain (b : bool) (res l : list jsstring) :
  Forall (fun p => plain_piece p = true) l ->
  normalize_pieces b res l = rev res ++ l.
Proof.
  intros H. rewrite <- (app_nil_r l) at 1.
  rewrite normalize_pieces_plain by exact H. cbn [normalize_pieces].
  now rewrite rev_app_distr, rev_involutive.
Qed.

Lemma normalize_pieces_empty (b : bool) (res qs : list jsstring) :
  normalize_pieces b res ([] :: qs) = normalize_pieces b res qs.
Proof. reflexivity. Qed.

Lemma split_absolute (pieces : list jsstring) :
  Forall (fun p => plain_piece p = true) pieces ->
  split (absolute_of pieces) [slash]
  = [] :: match pieces with [] => [[]] | _ :: _ => pieces end.
Proof.
  intros H. unfold absolute_of, split.
  change (slash :: join [slash] pieces) with ([] ++ slash :: join [slash] pieces).
  rewrite split_from_unit_app. cbn [split_from rev app]. f_equal.
  destruct pieces as [|p pieces]; [reflexivity|].
  change (split_from [slash] 0 [] (join [slash] (p :: pieces)))
    with (split (join [slash] (p :: pieces)) [slash]).
  apply split_join; [discriminate | discriminate |].
  eapply Forall_impl; [|exact H]. intros s Hs. cbn [removelast].
  rewrite app_nil_r. apply without_slash_includes.
  now apply plain_piece_facts in Hs.
Qed.

Lemma last_app_nonempty (x y : jsstring) (d : N) :
  y <> [] -> last (x ++ y) d = last y d.
Proof.
  intros Hy. induction x as [|c x IH]; [reflexivity|].
  cbn [app]. destruct (x ++ y) eqn:E.
  - destruct x; [cbn in E; congruence | discriminate].
  - rewrite <- IH. reflexivity.
Qed.

Lemma last_not_slash (p : jsstring) :
  truthy p = true -> without_slash p = true ->
  (last p 0%N =? slash)%N = false.
Proof.
  unfold without_slash. induction p as [|c p IH]; [discriminate|].
  intros _. cbn [existsb]. rewrite negb_orb. intros H.
  apply andb_true_iff in H as [Hc Hp]. apply negb_true_iff in Hc.
  destruct p as [|c' p].
  - cbn [last]. now rewrite N.eqb_sym.
  - change (last (c :: c' :: p) 0%N) with (last (c' :: p) 0%N).
    now apply IH.
Qed.

Lemma join_plain_end (ps : list jsstring) :
  ps <> [] -> Forall (fun p => plain_piece p = true) ps ->
  join [slash] ps <> [] /\ (last (join [slash] ps) 0%N =? slash)%N = false.
Proof.
  intros Hne H. induction H as [|p ps Hp Hps IH]; [congruence|].
  apply plain_piece_facts in Hp as (Ht & Hs & _).
  destruct ps as [|q ps].
  - cbn [join]. split; [destruct p; [discriminate | discriminate]|].
    now apply last_not_slash.
  - destruct IH as [I1 I2]; [discriminate|].
    change (join [slash] (p :: q :: ps))
      with (p ++ [slash] ++ join [slash] (q :: ps)).
    split.
    + destruct p; discriminate.
    + rewrite app_assoc, last_app_nonempty by exact I1. exact I2.
Qed.

Lemma normalize_absolute (path rest : jsstring) (pieces : list jsstring) :
  path = slash :: rest ->
  normalize_pieces false [] (split path [slash]) = pieces ->
  join [slash] pieces <> [] ->
  (last path 0%N =? slash)%N = false ->
  normalize path = slash :: join [slash] pieces.
Proof.
  intros E P B L. subst path. unfold normalize.
  rewrite N.eqb_refl. cbn [negb]. rewrite L, P.
  destruct (join [slash] pieces); [congruence | reflexivity].
Qed.

(** [path.join] of an absolute path in normal form and plain pieces puts
    a slash before each piece. *)
Lemma path_join_plain (pieces ps : list jsstring) :
  Forall (fun p => plain_piece p = true) pieces ->
  Forall (fun p => plain_piece p = true) ps ->
  ps <> [] ->
  path_join (absolute_of pieces :: ps) = absolute_of (pieces ++ ps).
Proof.
  intros Hpieces Hps Hne. unfold path_join.
  assert (F : filter truthy (absolute_of pieces :: ps) = absolute_of pieces :: ps).
  { cbn [filter absolute_of truthy]. f_equal.
    clear Hne. induction Hps as [|p ps Hp _ IH]; [reflexivity|].
    cbn [filter]. apply plain_piece_facts in Hp as (-> & _). now rewrite IH. }
  rewrite F.
  set (path := join [slash] (absolute_of pieces :: ps)).
  assert (Epath : path = slash :: (join [slash] pieces ++ [slash]) ++ join [slash] ps).
  { unfold path. destruct ps as [|q ps]; [congruence|].
    change (join [slash] (absolute_of pieces :: q :: ps))
      with (absolute_of pieces ++ [slash] ++ join [slash] (q :: ps)).
    unfold absolute_of. cbn [app]. now rewrite <- app_assoc. }
  assert (Esplit : normalize_pieces false [] (split path [slash]) = pieces ++ ps).
  { unfold path. rewrite split_join_unit by discriminate.
    cbn [flat_map]. rewrite split_absolute by assumption.
    rewrite flat_map_split_plain by assumption.
    cbn [app]. rewrite normalize_pieces_empty.
    destruct pieces as [|p pieces].
    - cbn [app]. rewrite normalize_pieces_empty.
      now rewrite normalize_pieces_all_plain.
    - rewrite normalize_pieces_all_plain; [reflexivity|].
      apply Forall_app; split; assumption. }
  destruct (join_plain_end Hne Hps) as [J1 J2].
  assert (Hall : Forall (fun p => plain_piece p = true) (pieces ++ ps))
    by (apply Forall_app; split; assumption).
  assert (Hne' : pieces ++ ps <> [])
    by (destruct pieces; [exact Hne | discriminate]).
  destruct (join_plain_end Hne' Hall) as [B1 _].
  assert (L : (last path 0%N =? slash)%N = false).
  { rewrite Epath.
    change (slash :: (join [slash] pieces ++ [slash]) ++ join [slash] ps)
      with ((slash :: join [slash] pieces ++ [slash]) ++ join [slash] ps).
    now rewrite last_app_nonempty by exact J1. }
  unfold absolute_of.
  apply (normalize_absolute Epath Esplit B1 L).
Qed.

End PathJoin.

Section DocumentPath.

Lemma join_app (sep : jsstring) (l1 l2 : list jsstring) :
  l1 <> [] -> l2 <> [] ->
  join sep (l1 ++ l2) = join sep l1 ++ sep ++ join sep l2.
Proof.
  intros H1 H2. induction l1 as [|x l1 IH]; [congruence|].
  destruct l1 as [|y l1].
  - destruct l2; [congruence | reflexivity].
  - change (join sep ((x :: y :: l1) ++ l2))
      with (x ++ sep ++ join sep ((y :: l1) ++ l2)).
    rewrite IH by discriminate.
    change (join sep (x :: y :: l1)) with (x ++ sep ++ join sep (y :: l1)).
    now rewrite <- !app_assoc.
Qed.

Lemma filename_plain (c : Clock) (templateType title format : jsstring) :
  without_slash templateType = true -> without_slash format = true ->
  plain_piece (filename c templateType title format) = true.
Proof.
  intros Ht Hf. unfold filename.
  pose proof (toString_truthy (nowMs c)) as T.
  pose proof (toString_digits (nowMs c)) as D.
  assert (W : without_slash
                (toString (nowMs c) ++ [underscore] ++ templateType
                 ++ [underscore] ++ safeTitle title ++ [dot] ++ format) = true).
  { rewrite !without_slash_app, Ht, Hf.
    rewrite (digits_without_slash _ D).
    rewrite (safe_units_without_slash _ (safeTitle_units title)).
    reflexivity. }
  destruct (toString (nowMs c)) as [|d ds]; [discriminate|].
  apply plain_piece_by_head; [|exact W].
  cbn [forallb] in D. apply andb_true_iff in D as [Hd _].
  destruct (d =? dot)%N eqn:E; [|reflexivity].
  apply N.eqb_eq in E. subst d. discriminate Hd.
Qed.

Ltac plain_side :=
  first [ discriminate
        | repeat (apply Forall_cons || apply Forall_nil); assumption ].

(** The path of a document below a storage root in normal form. *)
Lemma documentPath_plain (pieces : list jsstring) (c : Clock)
      (userEmail templateType title format : jsstring) :
  forallb plain_piece pieces = true ->
  pieces <> [] ->
  plain_piece (sanitizedEmail userEmail) = true ->
  without_slash templateType = true ->
  without_slash format = true ->
  documentPath (absolute_of pieces) c userEmail templateType title format
  = absolute_of pieces ++ [slash] ++ sanitizedEmail userEmail
    ++ [slash] ++ lit "documents"
    ++ [slash] ++ toString (fullYear c)
    ++ [slash] ++ padStart (toString (monthIndex c + 1)) 2 48%N
    ++ [slash] ++ toString (nowMs c) ++ [underscore] ++ templateType
    ++ [underscore] ++ safeTitle title ++ [dot] ++ format.
Proof.
  intros Hpieces Hne He Ht Hf.
  assert (P : Forall (fun p => plain_piece p = true) pieces)
    by (apply Forall_forall; now apply forallb_forall).
  pose proof (@filename_plain c templateType title format Ht Hf) as Hfile.
  pose proof (toString_plain (fullYear c)) as Hyear.
  pose proof (padStart_plain (monthIndex c + 1) 2) as Hmonth.
  assert (Hdocs : plain_piece (lit "documents") = true) by reflexivity.
  unfold documentPath, datePath, getUserStoragePath.
  rewrite (path_join_plain P) by plain_side.
  assert (P1 : Forall (fun p => plain_piece p = true)
                      (pieces ++ [sanitizedEmail userEmail]))
    by (apply Forall_app; split; [exact P | plain_side]).
  rewrite (path_join_plain P1) by plain_side.
  assert (P2 : Forall (fun p => plain_piece p = true)
                      ((pieces ++ [sanitizedEmail userEmail]) ++ [lit "documents"]))
    by (apply Forall_app; split; [exact P1 | plain_side]).
  rewrite (path_join_plain P2) by plain_side.
  assert (P3 : Forall (fun p => plain_piece p = true)
                 (((pieces ++ [sanitizedEmail userEmail]) ++ [lit "documents"])
                  ++ [toString (fullYear c);
                      padStart (toString (monthIndex c + 1)) 2 48%N]))
    by (apply Forall_app; split; [exact P2 | plain_side]).
  rewrite (path_join_plain P3) by plain_side.
  rewrite <- !app_assoc. cbn [app]. unfold absolute_of.
  rewrite join_app by (assumption || discriminate).
  cbn [join]. unfold filename. reflexivity.
Qed.

End DocumentPath.


(* ================================================================== *)
(** * Running the store *)
(* ================================================================== *)

(** One step of a run: unfold the program down to the next call, then
    look at the answer the call gets. *)
Ltac run :=
  cbv beta iota zeta delta
      [bind ret throw try_catch finally_ call randomUUID read_clock
       createConnection connection_end
       fs_mkdir fs_writeFile fs_stat_size fs_unlink
       select_document insert_document insert_log delete_documents
       update_documents delete_tags insert_tags
       getDocument generateDocumentPath logDocumentGeneration saveDocument
       deleteDocument updateDocument addDocumentTags
       files documents document_tags ai_generation_logs tags_cascade
       baseStoragePath clock answers uuids trace
       set_files set_documents set_document_tags set_logs set_answers
       set_uuids set_clock record_event default_flag
       fst snd tl hd row tags is_returned] in *;
  cbn [map] in *.

Ltac fork :=
  match goal with
  | |- context [match ?a with [] => _ | _ :: _ => _ end] =>
      lazymatch type of a with
      | list bool => is_var a; destruct a as [|[|] a]
      end
  end.

Ltac runs := run; repeat (fork; run).

(** The same, with [tac] to get past what is not a call. *)
Ltac runs_with tac := run; repeat (first [fork | tac]; run).

Section GetDocument.

Variables documentId userId : jsstring.

Lemma getDocument_reads (w : World) :
  same_store w (snd (getDocument documentId userId w))
  /\ (forall d, fst (getDocument documentId userId w) = Returned d ->
        hd_error (filter (owned_by documentId userId) (documents w))
        = Some (row d)
        /\ tags d = tags_read (doc_id (row d)) w)
  /\ (filter (owned_by documentId userId) (documents w) = [] ->
      is_returned (fst (getDocument documentId userId w)) = false)
  /\ (answers w = [] ->
      filter (owned_by documentId userId) (documents w) = [] ->
      fst (getDocument documentId userId w) = Thrown DocumentNotFound)
  /\ (answers w = [] ->
      filter (owned_by documentId userId) (documents w) <> [] ->
      is_returned (fst (getDocument documentId userId w)) = true)
  /\ (answers w = [] -> answers (snd (getDocument documentId userId w)) = []).
Proof.
  destruct w as [fs docs tgs logs casc base ck ans us tr].
  unfold same_store, tags_read, tag_names.
  destruct (filter (owned_by documentId userId) docs) as [|d0 ds] eqn:F.
  all: runs_with ltac:(rewrite F).
  all: repeat split; try reflexivity; try discriminate; try congruence.
  all: match goal with
       | H : Returned _ = Returned _ |- _ => injection H as <-; reflexivity
       end.
Qed.

End GetDocument.

Section SaveDocument.

Lemma skipn_length_app {A} (l r : list A) : skipn (length l) (l ++ r) = r.
Proof. induction l; [reflexivity | assumption]. Qed.

Lemma skipn_length_self {A} (l : list A) : skipn (length l) l = [].
Proof. induction l; [reflexivity | assumption]. Qed.

Lemma preceded_by_sound (trigger need : Event -> bool) (evs : list Event) :
  forall seen,
    preceded_by trigger need seen evs = true ->
    forall before e after,
      evs = before ++ e :: after -> trigger e = true ->
      seen || existsb need before = true.
Proof.
  induction evs as [|x evs IH]; intros seen H before e after E T.
  - destruct before; discriminate.
  - cbn [preceded_by] in H. apply andb_true_iff in H as [H1 H2].
    destruct before as [|b before]; cbn [app] in E; injection E as -> ->.
    + rewrite T in H1. now rewrite H1.
    + cbn [existsb]. rewrite orb_assoc. eapply IH; eauto.
Qed.

Lemma find_written (path : jsstring) (data : list N)
      (rest : list (jsstring * list N)) :
  find (file_at path) ((path, data) :: rest) = Some (path, data).
Proof. cbn [find]. unfold file_at at 1. cbn [fst]. now rewrite eqb_refl. Qed.

(** The events of a run, read off the two traces. *)
Ltac read_trace :=
  unfold events_since in *; run;
  rewrite <- ?app_assoc in *; cbn [app] in *;
  rewrite ?skipn_length_app, ?skipn_length_self in *.

Variables (userEmail : jsstring) (documentData : DocumentData)
          (fileBuffer : list N).

Lemma saveDocument_order (w : World) :
  let result := saveDocument userEmail documentData fileBuffer w in
  let evs := events_since w (snd result) in
  let path := save_path userEmail documentData w in
  (is_returned (fst result) = true ->
   exists logged,
     is_insert_log logged = true
     /\ evs = [Done Connect;
               Done (Mkdir (datePath (baseStoragePath w) (clock w) userEmail));
               Done (WriteFile path); Done (Stat path);
               Done (InsertDocument (hd [] (uuids w)));
               logged; Done EndConnection])
  /\ preceded_by is_insert_document is_write_done false evs = true
  /\ preceded_by is_insert_log is_insert_document_done false evs = true
  /\ (existsb is_write_failed evs = true ->
      is_returned (fst result) = false
      /\ documents (snd result) = documents w
      /\ ai_generation_logs (snd result) = ai_generation_logs w).
Proof.
  destruct w as [fs docs tgs logs casc base ck ans us tr].
  unfold save_path. cbv zeta.
  runs_with ltac:(rewrite find_written).
  all: read_trace.
  all: repeat split; try reflexivity; try discriminate.
  all: intros _; eexists; split; [|reflexivity]; reflexivity.
Qed.

End SaveDocument.

Section SaveReturns.

Variables (userEmail : jsstring) (documentData : DocumentData)
          (fileBuffer : list N).

(** What a save that returns has done. *)
Lemma saveDocument_returns (w : World) (r : SaveResult) :
  fst (saveDocument userEmail documentData fileBuffer w) = Returned r ->
  let w' := snd (saveDocument userEmail documentData fileBuffer w) in
  saved_filePath r = save_path userEmail documentData w
  /\ saved_id r = hd [] (uuids w)
  /\ saved_fileSize r = N.of_nat (length fileBuffer)
  /\ find (file_at (saved_filePath r)) (files w')
     = Some (saved_filePath r, fileBuffer)
  /\ exists d, documents w' = documents w ++ [d]
               /\ doc_id d = saved_id r
               /\ doc_user_id d = data_userId documentData
               /\ doc_file_path d = saved_filePath r.
Proof.
  destruct w as [fs docs tgs logs casc base ck ans us tr].
  unfold save_path. cbv zeta.
  runs_with ltac:(rewrite find_written).
  all: intros E; try discriminate E; injection E as <-.
  all: cbn [saved_filePath saved_id saved_fileSize].
  all: rewrite find_written.
  all: repeat split; eexists; repeat split; reflexivity.
Qed.

(** A save leaves the tags alone, and adds at most one document. *)
Lemma saveDocument_tables (w : World) :
  let w' := snd (saveDocument userEmail documentData fileBuffer w) in
  document_tags w' = document_tags w
  /\ tags_cascade w' = tags_cascade w
  /\ (documents w' = documents w \/ exists d, documents w' = documents w ++ [d]).
Proof.
  destruct w as [fs docs tgs logs casc base ck ans us tr]. cbv zeta.
  runs_with ltac:(rewrite find_written).
  all: repeat split; try reflexivity.
  all: first [left; reflexivity | right; eexists; reflexivity].
Qed.

End SaveReturns.

(* ================================================================== *)
(** * Updates *)
(* ================================================================== *)

Section UpdateDocument.

Lemma allowed_cases (key : jsstring) :
  allowed key = true ->
  key = lit "title" \/ key = lit "is_favorite" \/ key = lit "is_archived".
Proof.
  unfold allowed, allowedUpdates. cbn [existsb]. rewrite orb_false_r.
  intros H. apply orb_true_iff in H as [H|H]; [|apply orb_true_iff in H as [H|H]];
    apply eqb_eq in H; auto.
Qed.

Lemma updateFields_accepted (updates : list (jsstring * Value)) :
  find (fun kv => negb (column_accepts (fst kv) (snd kv))) (updateFields updates)
  = None.
Proof.
  unfold updateFields. induction updates as [|[k v] rest IH]; [reflexivity|].
  cbn [filter fst]. destruct (allowed k) eqn:A; [|exact IH].
  cbn [find fst snd]. apply allowed_cases in A as [->|[->| ->]]; exact IH.
Qed.

(** What the assignments of an update make of a row. *)
Lemma set_columns_updateFields (updates : list (jsstring * Value)) (r : DocRow) :
  let r' := set_columns (updateFields updates) r in
  doc_title r' = assigned (lit "title") updates (doc_title r)
  /\ doc_is_favorite r' = assigned (lit "is_favorite") updates (doc_is_favorite r)
  /\ doc_is_archived r' = assigned (lit "is_archived") updates (doc_is_archived r)
  /\ doc_id r' = doc_id r
  /\ doc_user_id r' = doc_user_id r
  /\ doc_template_type r' = doc_template_type r
  /\ doc_file_path r' = doc_file_path r
  /\ doc_content_preview r' = doc_content_preview r
  /\ doc_original_sections r' = doc_original_sections r
  /\ doc_parsed_sections r' = doc_parsed_sections r
  /\ doc_metadata r' = doc_metadata r
  /\ doc_file_size r' = doc_file_size r
  /\ doc_file_format r' = doc_file_format r
  /\ doc_created_at r' = doc_created_at r
  /\ doc_updated_at r' = doc_updated_at r.
Proof.
  cbv zeta. unfold set_columns, assigned, updateFields.
  revert r. induction updates as [|[k v] rest IH]; intros r.
  - repeat split; reflexivity.
  - cbn [filter fold_left fst snd]. destruct (allowed k) eqn:A.
    + cbn [fold_left fst snd].
      specialize (IH (set_column k v r)).
      apply allowed_cases in A as [->|[->| ->]];
        destruct r; exact IH.
    + assert (E1 : eqb k (lit "title") = false).
      { destruct (eqb k (lit "title")) eqn:E; [|reflexivity].
        apply eqb_eq in E. subst. discriminate. }
      assert (E2 : eqb k (lit "is_favorite") = false).
      { destruct (eqb k (lit "is_favorite")) eqn:E; [|reflexivity].
        apply eqb_eq in E. subst. discriminate. }
      assert (E3 : eqb k (lit "is_archived") = false).
      { destruct (eqb k (lit "is_archived")) eqn:E; [|reflexivity].
        apply eqb_eq in E. subst. discriminate. }
      rewrite E1, E2, E3. apply IH.
Qed.

Variables (documentId userId : jsstring) (updates : list (jsstring * Value)).

Lemma owned_by_rewritten (now : N) (r : DocRow) :
  owned_by documentId userId (rewritten updates now r)
  = owned_by documentId userId r.
Proof.
  unfold owned_by, rewritten.
  destruct (set_columns_updateFields updates r) as (_ & _ & _ & E1 & E2 & _).
  cbv zeta in E1, E2. destruct (set_columns (updateFields updates) r).
  cbn [touch doc_id doc_user_id] in *. now rewrite E1, E2.
Qed.

Lemma filter_owned_rewritten (now : N) (docs : list DocRow) :
  filter (owned_by documentId userId)
         (map (fun r => if owned_by documentId userId r
                        then rewritten updates now r else r) docs)
  = map (rewritten updates now) (filter (owned_by documentId userId) docs).
Proof.
  induction docs as [|r docs IH]; [reflexivity|].
  cbn [map filter]. destruct (owned_by documentId userId r) eqn:O.
  - rewrite owned_by_rewritten, O. cbn [map]. now rewrite IH.
  - rewrite O. exact IH.
Qed.

Lemma updateDocument_effect (w : World) :
  let result := updateDocument documentId userId updates w in
  let now := sqlNow (clock w) in
  (fst result = Thrown NoValidUpdates -> updateFields updates = [])
  /\ (answers w = [] -> updateFields updates = [] ->
      fst result = Thrown NoValidUpdates /\ documents (snd result) = documents w)
  /\ (forall d, fst result = Returned d ->
        documents (snd result)
        = map (fun r => if owned_by documentId userId r
                        then rewritten updates now r else r) (documents w)
        /\ hd_error (map (rewritten updates now)
                         (filter (owned_by documentId userId) (documents w)))
           = Some (row d))
  /\ (answers w = [] -> updateFields updates <> [] ->
      existsb (fun kv => is_undefined (snd kv)) (updateFields updates) = false ->
      filter (owned_by documentId userId) (documents w) <> [] ->
      is_returned (fst result) = true)
  /\ (filter (owned_by documentId userId) (documents w) = [] ->
      is_returned (fst result) = false)
  /\ (answers w = [] -> updateFields updates <> [] ->
      existsb (fun kv => is_undefined (snd kv)) (updateFields updates) = false ->
      filter (owned_by documentId userId) (documents w) = [] ->
      fst result = Thrown DocumentNotFound)
  /\ (answers w = [] -> answers (snd result) = [])
  /\ document_tags (snd result) = document_tags w
  /\ tags_cascade (snd result) = tags_cascade w
  /\ (documents (snd result) = documents w
      \/ documents (snd result)
         = map (fun r => if owned_by documentId userId r
                         then rewritten updates now r else r) (documents w)).
Proof.
  destruct w as [fs docs tgs logs casc base ck ans us tr]. cbv zeta.
  pose proof (updateFields_accepted updates) as Acc.
  pose proof (filter_owned_rewritten (sqlNow ck) docs) as Flt.
  unfold rewritten in *.
  destruct (updateFields updates) as [|f fields] eqn:U.
  - runs_with ltac:(rewrite U).
    all: repeat split; try reflexivity; try discriminate; try congruence;
      auto.
  - destruct (existsb (fun kv => is_undefined (snd kv)) (f :: fields)) eqn:Und;
      destruct (filter (owned_by documentId userId) docs) as [|d0 ds] eqn:F;
      runs_with ltac:(first [rewrite U | rewrite Und | rewrite Acc
                            | rewrite Flt | rewrite F]).
    all: repeat split; try reflexivity; try discriminate; try congruence;
      auto.
    all: match goal with
         | H : Returned _ = Returned _ |- _ => injection H as <-; reflexivity
         end.
Qed.

End UpdateDocument.

(* ================================================================== *)
(** * Tags *)
(* ================================================================== *)

Section Tags.

Lemma skipn_S_tl {A} (n : nat) (l : list A) : skipn (S n) l = skipn n (tl l).
Proof. destruct l; [cbn [tl]; now rewrite !skipn_nil | reflexivity]. Qed.

Lemma tagValues_run (documentId : jsstring) (tags : list jsstring) (w : World) :
  tagValues documentId tags w
  = (Returned (tag_rows documentId tags (uuids w)),
     set_uuids (skipn (length tags) (uuids w)) w).
Proof.
  revert w. induction tags as [|t rest IH]; intros w.
  - destruct w; reflexivity.
  - cbn [tagValues tag_rows length]. unfold bind at 1. unfold randomUUID at 1.
    unfold bind. rewrite IH. unfold ret. rewrite skipn_S_tl.
    destruct w; reflexivity.
Qed.

Lemma tag_rows_names (documentId : jsstring) (tags us : list jsstring) :
  map tag_name (tag_rows documentId tags us) = map trim tags.
Proof.
  revert us. induction tags as [|t rest IH]; intros us; [reflexivity|].
  cbn [tag_rows map tag_name]. now rewrite IH.
Qed.

Lemma tag_rows_of (documentId : jsstring) (tags us : list jsstring) :
  filter (tag_of documentId) (tag_rows documentId tags us)
  = tag_rows documentId tags us.
Proof.
  revert us. induction tags as [|t rest IH]; intros us; [reflexivity|].
  cbn [tag_rows filter]. unfold tag_of at 1. cbn [tag_document_id].
  now rewrite eqb_refl, IH.
Qed.

Lemma tag_rows_not_of (documentId other : jsstring) (tags us : list jsstring) :
  other <> documentId ->
  filter (tag_of other) (tag_rows documentId tags us) = [].
Proof.
  intros Hne. revert us. induction tags as [|t rest IH]; intros us;
    [reflexivity|].
  cbn [tag_rows filter]. unfold tag_of at 1. cbn [tag_document_id].
  assert (E : eqb documentId other = false) by (apply eqb_neq; congruence).
  now rewrite E, IH.
Qed.

Lemma tag_rows_point (documentId : jsstring) (tags us : list jsstring) (t : TagRow) :
  In t (tag_rows documentId tags us) -> tag_document_id t = documentId.
Proof.
  revert us. induction tags as [|x rest IH]; intros us H; [destruct H|].
  destruct H as [<-|H]; [reflexivity | eauto].
Qed.

Lemma filter_tag_of_cleared (documentId : jsstring) (tgs : list TagRow) :
  filter (tag_of documentId) (filter (fun t => negb (tag_of documentId t)) tgs)
  = [].
Proof.
  induction tgs as [|t tgs IH]; [reflexivity|].
  cbn [filter]. destruct (tag_of documentId t) eqn:E; cbn [negb filter];
    [exact IH | now rewrite E].
Qed.

Lemma filter_tag_of_other (documentId other : jsstring) (tgs : list TagRow) :
  other <> documentId ->
  filter (tag_of other) (filter (fun t => negb (tag_of documentId t)) tgs)
  = filter (tag_of other) tgs.
Proof.
  intros Hne. induction tgs as [|t tgs IH]; [reflexivity|].
  cbn [filter]. destruct (tag_of documentId t) eqn:E; cbn [negb filter].
  - destruct (tag_of other t) eqn:O; [|exact IH].
    unfold tag_of in *. apply eqb_eq in E, O. congruence.
  - now rewrite IH.
Qed.

Lemma existsb_filter {A} (f : A -> bool) (l : list A) :
  existsb f l = match filter f l with [] => false | _ :: _ => true end.
Proof.
  induction l as [|x l IH]; [reflexivity|].
  cbn [existsb filter]. destruct (f x); [reflexivity | exact IH].
Qed.

Variables (documentId userId : jsstring).

Lemma addDocumentTags_effect (new : list jsstring) (w : World) :
  let result := addDocumentTags documentId userId new w in
  let cleared :=
    filter (fun t => negb (tag_of documentId t)) (document_tags w) in
  (forall r, fst result = Returned r ->
     r = new
     /\ document_tags (snd result)
        = cleared ++ tag_rows documentId new (uuids w))
  /\ (filter (owned_by documentId userId) (documents w) = [] ->
      is_returned (fst result) = false
      /\ document_tags (snd result) = document_tags w)
  /\ (answers w = [] ->
      filter (owned_by documentId userId) (documents w) <> [] ->
      is_returned (fst result) = true /\ answers (snd result) = [])
  /\ documents (snd result) = documents w
  /\ tags_cascade (snd result) = tags_cascade w
  /\ (document_tags (snd result) = document_tags w
      \/ filter (owned_by documentId userId) (documents w) <> []
         /\ (document_tags (snd result) = cleared
             \/ document_tags (snd result)
                = cleared ++ tag_rows documentId new (uuids w))).
Proof.
  destruct w as [fs docs tgs logs casc base ck ans us tr]. cbv zeta.
  destruct (filter (owned_by documentId userId) docs) as [|d0 ds] eqn:F;
    destruct new as [|t new];
    runs_with ltac:(first [rewrite F | rewrite tagValues_run]).
  all: cbn [tag_rows]; rewrite ?app_nil_r.
  all: repeat split; try reflexivity; try discriminate; try congruence;
    auto.
  all: try match goal with
         | H : Returned _ = Returned _ |- _ => injection H as <-; reflexivity
         end.
  all: try (right; split; [discriminate|]; auto; fail).
Qed.

End Tags.



(* ================================================================== *)
(** * Deletion *)
(* ================================================================== *)

Section DeleteDocument.

Variables (documentId userId : jsstring).

Lemma deleteDocument_effect (w : World) :
  let result := deleteDocument documentId userId w in
  let kept :=
    filter (fun d => negb (owned_by documentId userId d)) (documents w) in
  let cleared :=
    filter (fun t => negb (tag_of documentId t)) (document_tags w) in
  (is_returned (fst result) = true ->
   filter (owned_by documentId userId) (documents w) <> []
   /\ documents (snd result) = kept
   /\ document_tags (snd result)
      = if tags_cascade w then cleared else document_tags w)
  /\ (filter (owned_by documentId userId) (documents w) = [] ->
      is_returned (fst result) = false
      /\ documents (snd result) = documents w
      /\ document_tags (snd result) = document_tags w)
  /\ (answers w = [] ->
      filter (owned_by documentId userId) (documents w) <> [] ->
      is_returned (fst result) = true)
  /\ tags_cascade (snd result) = tags_cascade w
  /\ (documents (snd result) = documents w
      /\ document_tags (snd result) = document_tags w
      \/ filter (owned_by documentId userId) (documents w) <> []
         /\ documents (snd result) = kept
         /\ document_tags (snd result)
            = if tags_cascade w then cleared else document_tags w).
Proof.
  destruct w as [fs docs tgs logs casc base ck ans us tr]. cbv zeta.
  pose proof (existsb_filter (owned_by documentId userId) docs) as Ex.
  destruct (filter (owned_by documentId userId) docs) as [|d0 ds] eqn:F.
  - runs_with ltac:(first [rewrite F | rewrite Ex]).
    all: repeat split; try reflexivity; try discriminate; try congruence;
      auto.
  - destruct (find (file_at (doc_file_path d0)) fs) as [e|] eqn:Ff;
      destruct casc;
      runs_with ltac:(first [rewrite F | rewrite Ex | rewrite Ff
                            | progress cbn [andb] in *]).
    all: repeat split; try reflexivity; try discriminate; try congruence;
      auto.
    all: try (right; repeat split; [discriminate|reflexivity..]; fail).
    all: try (left; split; reflexivity).
Qed.

End DeleteDocument.


(* ================================================================== *)
(** * The batch route *)
(* ================================================================== *)

Section Batch.

Lemma bind_ret_world {A B} (m : M A) (f : A -> B) (w : World) :
  snd ((x <- m ;; ret (f x)) w) = snd (m w).
Proof. unfold bind, ret. destruct (m w) as [[a|e] w']; reflexivity. Qed.

Lemma bind_ret_outcome {A B} (m : M A) (f : A -> B) (w : World) :
  fst ((x <- m ;; ret (f x)) w)
  = match fst (m w) with
    | Returned a => Returned (f a)
    | Thrown e => Thrown e
    end.
Proof. unfold bind, ret. destruct (m w) as [[a|e] w']; reflexivity. Qed.

Variables (userId action : jsstring) (data : BatchData).

(** The world after the action of an item is the world after the call
    of the store the action makes, if it makes one. *)
Lemma batch_action_world (documentId : jsstring) (w : World) :
  snd (batch_action userId action data documentId w) = w
  \/ snd (batch_action userId action data documentId w)
     = snd (deleteDocument documentId userId w)
  \/ exists updates,
      snd (batch_action userId action data documentId w)
      = snd (updateDocument documentId userId updates w).
Proof.
  unfold batch_action.
  destruct (eqb action (lit "delete")).
  { right. left. unfold bind, ret.
    destruct (deleteDocument documentId userId w) as [[a|e] w']; reflexivity. }
  destruct (eqb action (lit "favorite")).
  { right. right. eexists. apply bind_ret_world. }
  destruct (eqb action (lit "archive")).
  { right. right. eexists. apply bind_ret_world. }
  left. reflexivity.
Qed.

Lemma batch_item_run (documentId : jsstring) (w : World) :
  batch_item userId action data documentId w
  = (Returned (item_result userId action data documentId w),
     snd (batch_action userId action data documentId w)).
Proof.
  unfold batch_item, item_result, try_catch, bind, ret.
  destruct (batch_action userId action data documentId w) as [[x|e] w'];
    reflexivity.
Qed.

Lemma batch_loop_run (documentIds : list jsstring) :
  forall (results : list ItemResult) (w : World),
    batch_loop userId action data documentIds results w
    = (Returned (results ++ batch_results userId action data documentIds w),
       batch_world userId action data documentIds w).
Proof.
  induction documentIds as [|documentId rest IH]; intros results w.
  - cbn [batch_loop batch_results batch_world]. unfold ret.
    now rewrite app_nil_r.
  - cbn [batch_loop batch_results batch_world]. unfold bind.
    rewrite batch_item_run, IH. now rewrite <- app_assoc.
Qed.

Lemma batch_run (documentIds : list jsstring) (w : World) :
  batch userId action documentIds data w
  = (Returned (Json (batch_results userId action data documentIds w)),
     batch_world userId action data documentIds w).
Proof.
  unfold batch, try_catch, bind, ret. now rewrite batch_loop_run.
Qed.

Lemma item_result_id (documentId : jsstring) (w : World) :
  item_id (item_result userId action data documentId w) = documentId.
Proof.
  unfold item_result.
  destruct (fst (batch_action userId action data documentId w)); reflexivity.
Qed.

Lemma item_result_success (documentId : jsstring) (w : World) :
  item_success (item_result userId action data documentId w)
  = is_returned (fst (batch_action userId action data documentId w)).
Proof.
  unfold item_result.
  destruct (fst (batch_action userId action data documentId w)); reflexivity.
Qed.

Lemma batch_results_ids (documentIds : list jsstring) (w : World) :
  map item_id (batch_results userId action data documentIds w) = documentIds.
Proof.
  revert w. induction documentIds as [|documentId rest IH]; intros w;
    [reflexivity|].
  cbn [batch_results map]. now rewrite item_result_id, IH.
Qed.

Lemma batch_results_app (before after : list jsstring) (w : World) :
  batch_results userId action data (before ++ after) w
  = batch_results userId action data before w
    ++ batch_results userId action data after
                     (batch_world userId action data before w).
Proof.
  revert w. induction before as [|documentId rest IH]; intros w;
    [reflexivity|].
  cbn [app batch_results batch_world]. now rewrite IH.
Qed.

End Batch.

Section BatchFavorite.

Lemma map_unowned (documentId userId : jsstring) (f : DocRow -> DocRow)
      (docs : list DocRow) :
  filter (owned_by documentId userId) docs = [] ->
  map (fun r => if owned_by documentId userId r then f r else r) docs = docs.
Proof.
  induction docs as [|r docs IH]; [reflexivity|].
  cbn [filter map]. destruct (owned_by documentId userId r); [discriminate|].
  intros H. now rewrite IH.
Qed.

Lemma owned_head (documentId userId : jsstring) (docs : list DocRow) (r : DocRow) :
  hd_error (filter (owned_by documentId userId) docs) = Some r ->
  In r docs /\ doc_id r = documentId /\ doc_user_id r = userId.
Proof.
  intros H.
  assert (I : In r (filter (owned_by documentId userId) docs)).
  { destruct (filter (owned_by documentId userId) docs); [discriminate|].
    injection H as ->. now left. }
  apply filter_In in I as [I O]. unfold owned_by in O.
  apply andb_true_iff in O as [O1 O2]. apply eqb_eq in O1, O2. auto.
Qed.

Lemma owns_filter (userId documentId : jsstring) (w : World) :
  owns userId documentId w
  = match filter (owned_by documentId userId) (documents w) with
    | [] => false
    | _ :: _ => true
    end.
Proof. apply existsb_filter. Qed.

(** A batch that marks favorites, over a document of somebody else and a
    document of the caller. *)
Lemma batch_favorite_two (userId x y : jsstring) (data : BatchData) (w : World) :
  answers w = [] ->
  is_undefined (data_favorite data) = false ->
  owns userId x w = false ->
  owns userId y w = true ->
  exists d,
    batch_results userId (lit "favorite") data [x; y] w
    = [ItemFailed x DocumentNotFound; ItemSucceeded y (UpdatedResult d)]
    /\ doc_id (row d) = y
    /\ doc_user_id (row d) = userId
    /\ doc_is_favorite (row d) = data_favorite data.
Proof.
  intros Hans Hdef Hx Hy. rewrite owns_filter in Hx, Hy.
  set (updates := [(lit "is_favorite", data_favorite data)]).
  assert (Fields : updateFields updates = updates) by reflexivity.
  assert (Hne : updateFields updates <> []) by (rewrite Fields; discriminate).
  assert (Hund : existsb (fun kv => is_undefined (snd kv)) (updateFields updates)
                 = false).
  { rewrite Fields. unfold updates. cbn [existsb snd]. now rewrite Hdef. }
  assert (Act : forall id w0,
             batch_action userId (lit "favorite") data id w0
             = (d <- updateDocument id userId updates ;; ret (UpdatedResult d)) w0)
    by reflexivity.
  (* the document of somebody else *)
  destruct (updateDocument_effect x userId updates w)
    as (_ & _ & _ & _ & _ & Ex & Eans & _ & _ & Edocs).
  cbv zeta in Ex, Eans, Edocs.
  assert (Fx : filter (owned_by x userId) (documents w) = [])
    by (destruct (filter (owned_by x userId) (documents w)); congruence).
  specialize (Ex Hans Hne Hund Fx). specialize (Eans Hans).
  assert (Docs1 : documents (snd (updateDocument x userId updates w))
                  = documents w).
  { destruct Edocs as [E|E]; [exact E|]. rewrite E. now apply map_unowned. }
  (* the document of the caller *)
  set (w1 := snd (updateDocument x userId updates w)) in *.
  destruct (updateDocument_effect y userId updates w1)
    as (_ & _ & Ret & Ok & _).
  cbv zeta in Ret, Ok.
  assert (Fy : filter (owned_by y userId) (documents w1) <> []).
  { rewrite Docs1.
    destruct (filter (owned_by y userId) (documents w)); congruence. }
  specialize (Ok Eans Hne Hund Fy).
  destruct (fst (updateDocument y userId updates w1)) as [d|e] eqn:Ey;
    [|discriminate].
  destruct (Ret d eq_refl) as [_ Hd].
  exists d. split.
  - cbn [batch_results]. unfold item_result. rewrite !Act.
    rewrite bind_ret_world. fold w1. rewrite !bind_ret_outcome.
    rewrite Ex, Ey. reflexivity.
  - destruct (filter (owned_by y userId) (documents w1)) as [|r0 rs] eqn:F;
      [congruence|].
    cbn [map hd_error] in Hd. injection Hd as Hd.
    assert (O : hd_error (filter (owned_by y userId) (documents w1)) = Some r0)
      by now rewrite F.
    apply owned_head in O as (_ & O1 & O2).
    destruct (set_columns_updateFields updates r0)
      as (_ & Fav & _ & Id & User & _).
    cbv zeta in Fav, Id, User. rewrite <- Hd. unfold rewritten.
    destruct (set_columns (updateFields updates) r0).
    cbn [touch doc_id doc_user_id doc_is_favorite] in *.
    rewrite Id, User, Fav. repeat split; assumption.
Qed.

End BatchFavorite.

(* ================================================================== *)
(** * Tag rows and the documents they point to *)
(* ================================================================== *)

Section Orphans.

Lemma tags_have_documents_more (docs : list DocRow) (tgs : list TagRow)
      (d : DocRow) :
  tags_have_documents docs tgs -> tags_have_documents (docs ++ [d]) tgs.
Proof.
  intros H t Ht. rewrite existsb_app, (H t Ht). reflexivity.
Qed.

Lemma tags_have_documents_fewer (docs : list DocRow) (tgs : list TagRow)
      (keep : TagRow -> bool) :
  tags_have_documents docs tgs -> tags_have_documents docs (filter keep tgs).
Proof.
  intros H t Ht. apply filter_In in Ht as [Ht _]. now apply H.
Qed.

Lemma tags_have_documents_rewritten (documentId userId : jsstring)
      (updates : list (jsstring * Value)) (now : N)
      (docs : list DocRow) (tgs : list TagRow) :
  tags_have_documents docs tgs ->
  tags_have_documents
    (map (fun r => if owned_by documentId userId r
                   then rewritten updates now r else r) docs) tgs.
Proof.
  intros H t Ht. specialize (H t Ht).
  apply existsb_exists in H as (d & Hd & E).
  apply existsb_exists.
  exists (if owned_by documentId userId d then rewritten updates now d else d).
  split; [apply in_map_iff; eauto|].
  destruct (owned_by documentId userId d); [|exact E].
  unfold rewritten.
  destruct (set_columns_updateFields updates d) as (_ & _ & _ & Id & _).
  cbv zeta in Id. destruct (set_columns (updateFields updates) d).
  cbn [touch doc_id] in *. now rewrite Id.
Qed.

Lemma tags_have_documents_inserted (documentId userId : jsstring)
      (new us : list jsstring) (docs : list DocRow) (tgs : list TagRow) :
  filter (owned_by documentId userId) docs <> [] ->
  tags_have_documents docs tgs ->
  tags_have_documents docs (tgs ++ tag_rows documentId new us).
Proof.
  intros Hown H t Ht. apply in_app_or in Ht as [Ht|Ht]; [now apply H|].
  apply tag_rows_point in Ht. rewrite Ht.
  destruct (filter (owned_by documentId userId) docs) as [|d ds] eqn:F;
    [congruence|].
  assert (O : hd_error (filter (owned_by documentId userId) docs) = Some d)
    by now rewrite F.
  apply owned_head in O as (I & Id & _).
  apply existsb_exists. exists d. split; [exact I|]. now apply eqb_eq.
Qed.

Lemma tags_have_documents_cascade (documentId userId : jsstring)
      (docs : list DocRow) (tgs : list TagRow) :
  tags_have_documents docs tgs ->
  tags_have_documents
    (filter (fun d => negb (owned_by documentId userId d)) docs)
    (filter (fun t => negb (tag_of documentId t)) tgs).
Proof.
  intros H t Ht. apply filter_In in Ht as [Ht Hk].
  specialize (H t Ht). apply existsb_exists in H as (d & Hd & E).
  apply existsb_exists. exists d. split; [|exact E].
  apply filter_In. split; [exact Hd|].
  apply negb_true_iff. apply negb_true_iff in Hk.
  unfold owned_by, tag_of in *. apply eqb_eq in E. rewrite E, Hk. reflexivity.
Qed.

(** The calls of the store keep the schema, and keep the tags with
    their documents when the schema cascades. *)
Lemma saveDocument_keeps (userEmail : jsstring) (documentData : DocumentData)
      (fileBuffer : list N) (w : World) :
  let w' := snd (saveDocument userEmail documentData fileBuffer w) in
  tags_cascade w' = tags_cascade w
  /\ (no_orphan_tags w -> no_orphan_tags w').
Proof.
  destruct (saveDocument_tables userEmail documentData fileBuffer w)
    as (T & C & D).
  cbv zeta in *. split; [exact C|]. unfold no_orphan_tags. rewrite T.
  destruct D as [->|[d ->]]; [auto | apply tags_have_documents_more].
Qed.

Lemma getDocument_keeps (documentId userId : jsstring) (w : World) :
  let w' := snd (getDocument documentId userId w) in
  tags_cascade w' = tags_cascade w
  /\ (no_orphan_tags w -> no_orphan_tags w').
Proof.
  destruct (getDocument_reads documentId userId w)
    as ((_ & D & T & _ & C & _) & _).
  cbv zeta. split; [exact C|]. unfold no_orphan_tags. now rewrite D, T.
Qed.

Lemma updateDocument_keeps (documentId userId : jsstring)
      (updates : list (jsstring * Value)) (w : World) :
  let w' := snd (updateDocument documentId userId updates w) in
  tags_cascade w' = tags_cascade w
  /\ (no_orphan_tags w -> no_orphan_tags w').
Proof.
  destruct (updateDocument_effect documentId userId updates w)
    as (_ & _ & _ & _ & _ & _ & _ & T & C & D).
  cbv zeta in *. split; [exact C|]. unfold no_orphan_tags. rewrite T.
  destruct D as [-> | ->]; [auto | apply tags_have_documents_rewritten].
Qed.

Lemma addDocumentTags_keeps (documentId userId : jsstring)
      (new : list jsstring) (w : World) :
  let w' := snd (addDocumentTags documentId userId new w) in
  tags_cascade w' = tags_cascade w
  /\ (no_orphan_tags w -> no_orphan_tags w').
Proof.
  destruct (addDocumentTags_effect documentId userId new w)
    as (_ & _ & _ & D & C & T).
  cbv zeta in *. split; [exact C|]. unfold no_orphan_tags. rewrite D.
  intros H. destruct T as [-> | [Hown [-> | ->]]]; [exact H | |].
  - now apply tags_have_documents_fewer.
  - apply tags_have_documents_inserted with (userId := userId);
      [exact Hown | now apply tags_have_documents_fewer].
Qed.

Lemma deleteDocument_keeps (documentId userId : jsstring) (w : World) :
  let w' := snd (deleteDocument documentId userId w) in
  tags_cascade w' = tags_cascade w
  /\ (tags_cascade w = true -> no_orphan_tags w -> no_orphan_tags w').
Proof.
  destruct (deleteDocument_effect documentId userId w) as (_ & _ & _ & C & T).
  cbv zeta in *. split; [exact C|]. unfold no_orphan_tags.
  intros Hc H. destruct T as [[-> ->] | (_ & -> & ->)]; [exact H|].
  rewrite Hc. now apply tags_have_documents_cascade.
Qed.

Lemma batch_world_keeps (userId action : jsstring) (data : BatchData)
      (documentIds : list jsstring) (w : World) :
  let w' := batch_world userId action data documentIds w in
  tags_cascade w' = tags_cascade w
  /\ (tags_cascade w = true -> no_orphan_tags w -> no_orphan_tags w').
Proof.
  cbv zeta. revert w. induction documentIds as [|documentId rest IH];
    intros w; [split; auto|].
  cbn [batch_world].
  assert (Step : tags_cascade (snd (batch_action userId action data documentId w))
                 = tags_cascade w
                 /\ (tags_cascade w = true -> no_orphan_tags w ->
                     no_orphan_tags
                       (snd (batch_action userId action data documentId w)))).
  { destruct (batch_action_world userId action data documentId w)
      as [-> | [-> | [updates ->]]].
    - split; auto.
    - apply deleteDocument_keeps.
    - destruct (updateDocument_keeps documentId userId updates w) as [C K].
      split; auto. }
  destruct Step as [C K].
  destruct (IH (snd (batch_action userId action data documentId w))) as [C' K'].
  split; [congruence|]. intros Hc H. apply K'; [congruence | now apply K].
Qed.

Lemma after_keeps (r : Request) (w : World) :
  tags_cascade (after r w) = tags_cascade w
  /\ (tags_cascade w = true -> no_orphan_tags w -> no_orphan_tags (after r w)).
Proof.
  destruct r as [e d b | i u | i u | i u up | i u tg | u a ids d]; cbn [after].
  - destruct (saveDocument_keeps e d b w); auto.
  - destruct (getDocument_keeps i u w); auto.
  - apply deleteDocument_keeps.
  - destruct (updateDocument_keeps i u up w); auto.
  - destruct (addDocumentTags_keeps i u tg w); auto.
  - rewrite batch_run. cbn [snd]. apply batch_world_keeps.
Qed.

Lemma reachable_without_orphans (w : World) :
  reachable w -> tags_cascade w = true -> no_orphan_tags w.
Proof.
  induction 1 as [fs cascade base c a u | w r _ IH | w c a u _ IH]; intros Hc.
  - intros t [].
  - destruct (after_keeps r w) as [C K]. apply K; [congruence|].
    apply IH. congruence.
  - destruct w; exact (IH Hc).
Qed.

End Orphans.


(* ================================================================== *)
(** * The naming scheme of stored files *)
(* ================================================================== *)

Section NamingScheme.

Lemma sanitizedEmail_length (userEmail : jsstring) :
  length (sanitizedEmail userEmail) = length userEmail.
Proof. apply length_map. Qed.

Lemma sanitizedEmail_keeps (userEmail : jsstring) :
  forallb email_unit userEmail = true -> sanitizedEmail userEmail = userEmail.
Proof.
  unfold sanitizedEmail. induction userEmail as [|u s IH]; [reflexivity|].
  cbn [forallb map]. intros H. apply andb_true_iff in H as [-> H].
  now rewrite IH.
Qed.

(** C4, as stated, fails.  The at sign is of the class the owner key
    keeps, so the path of the scenario has [alice@example.com], not
    [alice_example.com]; a unit outside the class is replaced by an
    underscore, not stripped, and the blank is outside the class; and
    the title keeps every white space for the underscores, not the blank
    alone. *)
Lemma scenario_path_keeps_at_sign :
  let base := lit "/srv/app/stored" in
  let c := mkClock 2026 10 1700000000000 1700000000 in
  let tab : jsstring := [9%N] in
  (documentPath base c (lit "alice@example.com") (lit "rca")
                (lit "Q1 Outage") (lit "docx")
   = lit "/srv/app/stored/alice@example.com/documents/2026/11/1700000000000_rca_Q1_Outage.docx"
   /\ includes (documentPath base c (lit "alice@example.com") (lit "rca")
                             (lit "Q1 Outage") (lit "docx"))
               (lit "/alice_example.com/documents/") = false)
  /\ (documentPath base c (lit "bob smith#1") (lit "rca") (lit "Q1 Outage")
                   (lit "docx")
      = lit "/srv/app/stored/bob_smith_1/documents/2026/11/1700000000000_rca_Q1_Outage.docx"
      /\ spec_documentPath base c (lit "bob smith#1") (lit "rca")
                           (lit "Q1 Outage") (lit "docx")
         = lit "/srv/app/stored/bob smith1/documents/2026/11/1700000000000_rca_Q1_Outage.docx")
  /\ (safeTitle (lit "Q1" ++ tab ++ lit "Outage") = lit "Q1_Outage"
      /\ spec_sanitizedTitle (lit "Q1" ++ tab ++ lit "Outage") = lit "Q1Outage").
Proof. vm_compute. repeat split; reflexivity. Qed.

(** C4, amended: below a storage root in normal form, for an owner key
    whose sanitized form is not empty, ['.'] or ['..'], and a template
    kind and a format without slash, the path is
    [{root}/{owner}/documents/{year}/{2-digit month}/{ms}_{kind}_{title}.{format}],
    where the owner key has every unit outside [[A-Za-z0-9@.-]] replaced
    by an underscore (none is stripped, the units of the class are
    kept), and the title has the units outside [[A-Za-z0-9-]] and white
    space stripped and then every run of white space replaced by one
    underscore.  A save that returns gives this path back. *)
Theorem document_path_scheme
        (pieces : list jsstring) (c : Clock)
        (userEmail templateType title format : jsstring) :
  forallb plain_piece pieces = true ->
  pieces <> [] ->
  plain_piece (sanitizedEmail userEmail) = true ->
  without_slash templateType = true ->
  without_slash format = true ->
  documentPath (absolute_of pieces) c userEmail templateType title format
  = absolute_of pieces ++ [slash] ++ sanitizedEmail userEmail
    ++ [slash] ++ lit "documents"
    ++ [slash] ++ toString (fullYear c)
    ++ [slash] ++ padStart (toString (monthIndex c + 1)) 2 48%N
    ++ [slash] ++ toString (nowMs c) ++ [underscore] ++ templateType
    ++ [underscore] ++ safeTitle title ++ [dot] ++ format
  /\ length (sanitizedEmail userEmail) = length userEmail
  /\ forallb (fun u => email_unit u || (u =? underscore)%N)
             (sanitizedEmail userEmail) = true
  /\ (forallb email_unit userEmail = true -> sanitizedEmail userEmail = userEmail)
  /\ forallb safe_unit (safeTitle title) = true
  /\ includes (safeTitle title) [underscore; underscore] = false
  /\ (forall (w : World) (documentData : DocumentData) (fileBuffer : list N)
             (r : SaveResult),
        fst (saveDocument userEmail documentData fileBuffer w) = Returned r ->
        saved_filePath r
        = documentPath (baseStoragePath w) (clock w) userEmail
                       (data_template documentData) (data_title documentData)
                       (or_else (data_format documentData) (lit "docx"))).
Proof.
  intros Hpieces Hne He Ht Hf. repeat split.
  - now apply documentPath_plain.
  - apply sanitizedEmail_length.
  - apply sanitizedEmail_units.
  - apply sanitizedEmail_keeps.
  - apply safeTitle_units.
  - apply safeTitle_single_underscores.
  - intros w documentData fileBuffer r E.
    now destruct (saveDocument_returns userEmail documentData fileBuffer w E).
Qed.

(** The scenario of the specification, with the path the code gives. *)
Lemma document_path_scheme_witness :
  documentPath (lit "/srv/app/stored")
               (mkClock 2026 10 1700000000000 1700000000)
               (lit "alice@example.com") (lit "rca") (lit "Q1 Outage")
               (lit "docx")
  = lit "/srv/app/stored/alice@example.com/documents/2026/11/1700000000000_rca_Q1_Outage.docx".
Proof.
  apply (proj1 (@document_path_scheme
                  [lit "srv"; lit "app"; lit "stored"]
                  (mkClock 2026 10 1700000000000 1700000000)
                  (lit "alice@example.com") (lit "rca") (lit "Q1 Outage")
                  (lit "docx")
                  eq_refl ltac:(discriminate) eq_refl eq_refl eq_refl)).
Defined.

End NamingScheme.

(* ================================================================== *)
(** * The order of a save *)
(* ================================================================== *)

Section SaveOrder.

(** C5: in a call of [saveDocument], an insert of the metadata row is
    attempted only after the write of the file went through, and the
    generation log is appended only after the row was inserted; a call
    that returns has written, inserted and logged, in this order; and
    when the write fails the call raises, and neither the documents nor
    the generation logs have a new row. *)
Theorem save_writes_then_inserts_then_logs
        (userEmail : jsstring) (documentData : DocumentData)
        (fileBuffer : list N) (w : World) :
  let result := saveDocument userEmail documentData fileBuffer w in
  let evs := events_since w (snd result) in
  let path := save_path userEmail documentData w in
  (forall before e after,
     evs = before ++ e :: after -> is_insert_document e = true ->
     existsb is_write_done before = true)
  /\ (forall before e after,
        evs = before ++ e :: after -> is_insert_log e = true ->
        existsb is_insert_document_done before = true)
  /\ (is_returned (fst result) = true ->
      exists logged,
        is_insert_log logged = true
        /\ evs = [Done Connect;
                  Done (Mkdir (datePath (baseStoragePath w) (clock w) userEmail));
                  Done (WriteFile path); Done (Stat path);
                  Done (InsertDocument (hd [] (uuids w)));
                  logged; Done EndConnection])
  /\ (existsb is_write_failed evs = true ->
      is_returned (fst result) = false
      /\ documents (snd result) = documents w
      /\ ai_generation_logs (snd result) = ai_generation_logs w).
Proof.
  destruct (saveDocument_order userEmail documentData fileBuffer w)
    as (Ret & O1 & O2 & Fail).
  cbv zeta in *. repeat split.
  - intros before e after E T.
    exact (@preceded_by_sound _ _ _ _ O1 _ _ _ E T).
  - intros before e after E T.
    exact (@preceded_by_sound _ _ _ _ O2 _ _ _ E T).
  - exact Ret.
  - now apply Fail.
  - now apply Fail.
  - now apply Fail.
Qed.

(** A write the file system rejects: the save raises and the tables are
    as they were. *)
Lemma save_writes_then_inserts_then_logs_witness :
  let result :=
    saveDocument Sample.alice (Sample.outage (lit "u1")) [80; 75]%N
                 Sample.write_rejected in
  is_returned (fst result) = false
  /\ documents (snd result) = []
  /\ ai_generation_logs (snd result) = [].
Proof.
  apply (proj2 (proj2 (proj2
    (save_writes_then_inserts_then_logs
       Sample.alice (Sample.outage (lit "u1")) [80; 75]%N
       Sample.write_rejected)))).
  reflexivity.
Defined.

End SaveOrder.

(* ================================================================== *)
(** * The allow-list of updates *)
(* ================================================================== *)

Section AllowList.

(** C6: [updateDocument] raises [NoValidUpdates] only when no entry of
    the updates has an allowed key, and does so whenever that is the case
    and the database takes its calls; a call that returns has rewritten
    the rows of the caller with this identifier and no other row: in such
    a row [title], [is_favorite] and [is_archived] have the value the
    updates give them, [updated_at] is the time of the statement, and
    every other column is as it was, whatever else the updates name. *)
Theorem update_keeps_to_allow_list
        (documentId userId : jsstring) (updates : list (jsstring * Value))
        (w : World) :
  let result := updateDocument documentId userId updates w in
  let now := sqlNow (clock w) in
  (fst result = Thrown NoValidUpdates -> updateFields updates = [])
  /\ (answers w = [] -> updateFields updates = [] ->
      fst result = Thrown NoValidUpdates /\ documents (snd result) = documents w)
  /\ (forall d, fst result = Returned d ->
        documents (snd result)
        = map (fun r => if owned_by documentId userId r
                        then rewritten updates now r else r) (documents w)
        /\ (exists r, In r (documents w)
                      /\ owned_by documentId userId r = true
                      /\ row d = rewritten updates now r)
        /\ doc_updated_at (row d) = now)
  /\ (answers w = [] -> updateFields updates <> [] ->
      existsb (fun kv => is_undefined (snd kv)) (updateFields updates) = false ->
      owns userId documentId w = true ->
      is_returned (fst result) = true)
  /\ (forall r,
        let r' := rewritten updates now r in
        doc_title r' = assigned (lit "title") updates (doc_title r)
        /\ doc_is_favorite r'
           = assigned (lit "is_favorite") updates (doc_is_favorite r)
        /\ doc_is_archived r'
           = assigned (lit "is_archived") updates (doc_is_archived r)
        /\ doc_updated_at r' = now
        /\ doc_id r' = doc_id r
        /\ doc_user_id r' = doc_user_id r
        /\ doc_template_type r' = doc_template_type r
        /\ doc_file_path r' = doc_file_path r
        /\ doc_content_preview r' = doc_content_preview r
        /\ doc_original_sections r' = doc_original_sections r
        /\ doc_parsed_sections r' = doc_parsed_sections r
        /\ doc_metadata r' = doc_metadata r
        /\ doc_file_size r' = doc_file_size r
        /\ doc_file_format r' = doc_file_format r
        /\ doc_created_at r' = doc_created_at r).
Proof.
  destruct (updateDocument_effect documentId userId updates w)
    as (E1 & E2 & E3 & E4 & _).
  cbv zeta in *. split; [exact E1|]. split; [exact E2|]. split; [|split].
  - intros d Hd. destruct (E3 d Hd) as [D H]. split; [exact D|].
    destruct (filter (owned_by documentId userId) (documents w))
      as [|r0 rs] eqn:F; [discriminate|].
    cbn [map hd_error] in H. injection H as H.
    assert (O : hd_error (filter (owned_by documentId userId) (documents w))
                = Some r0) by now rewrite F.
    assert (I : In r0 (filter (owned_by documentId userId) (documents w)))
      by (rewrite F; now left).
    apply filter_In in I as [I Own].
    split; [exists r0; auto|]. rewrite <- H. reflexivity.
  - intros Hans Hne Hund Hown. apply E4; try assumption.
    rewrite owns_filter in Hown.
    destruct (filter (owned_by documentId userId) (documents w));
      [discriminate | discriminate].
  - intros r.
    destruct (set_columns_updateFields updates r)
      as (T & F & A & I & U & TT & P & CP & OS & PS & M & FS & FF & CA & _).
    cbv zeta in *. unfold rewritten.
    destruct (set_columns (updateFields updates) r).
    cbn [touch doc_title doc_is_favorite doc_is_archived doc_updated_at doc_id
         doc_user_id doc_template_type doc_file_path doc_content_preview
         doc_original_sections doc_parsed_sections doc_metadata doc_file_size
         doc_file_format doc_created_at] in *.
    repeat split; assumption.
Qed.

(** The scenario of the specification: an allowed key and a key that is
    not.  The favorite flag is set, the owner is as before. *)
Lemma update_keeps_to_allow_list_witness :
  let updates :=
    [(lit "is_favorite", VBool true); (lit "not_allowed", VStr (lit "x"));
     (lit "user_id", VStr (lit "u2"))] in
  let result :=
    updateDocument (lit "doc-1") (lit "u1") updates Sample.two_documents in
  is_returned (fst result) = true
  /\ fst (updateDocument (lit "doc-1") (lit "u1")
                         [(lit "not_allowed", VStr (lit "x"))]
                         Sample.two_documents)
     = Thrown NoValidUpdates
  /\ forall r,
      doc_is_favorite (rewritten updates 1700000000 r) = VBool true
      /\ doc_user_id (rewritten updates 1700000000 r) = doc_user_id r.
Proof.
  intros updates result. split; [|split].
  - apply (proj1 (proj2 (proj2 (proj2
      (update_keeps_to_allow_list (lit "doc-1") (lit "u1") updates
                                  Sample.two_documents)))));
      [reflexivity | discriminate | reflexivity | reflexivity].
  - apply (proj1 (proj2
      (update_keeps_to_allow_list (lit "doc-1") (lit "u1")
                                  [(lit "not_allowed", VStr (lit "x"))]
                                  Sample.two_documents)));
      reflexivity.
  - intros r.
    destruct (proj2 (proj2 (proj2 (proj2
      (update_keeps_to_allow_list (lit "doc-1") (lit "u1") updates
                                  Sample.two_documents)))) r)
      as (_ & F & _ & _ & _ & U & _).
    split; [exact F | exact U].
Defined.

End AllowList.

(* ================================================================== *)
(** * Replacing the tags *)
(* ================================================================== *)

Section ReplaceTags.

Variables (documentId userId : jsstring).

Lemma addDocumentTags_names (new : list jsstring) (w : World) (r : list jsstring) :
  fst (addDocumentTags documentId userId new w) = Returned r ->
  let w' := snd (addDocumentTags documentId userId new w) in
  tag_names documentId w' = map trim new
  /\ (forall other, other <> documentId ->
                    tag_names other w' = tag_names other w)
  /\ documents w' = documents w.
Proof.
  intros E. destruct (addDocumentTags_effect documentId userId new w)
    as (Ret & _ & _ & D & _).
  cbv zeta in *. destruct (Ret r E) as [_ T]. unfold tag_names. rewrite T.
  repeat split.
  - rewrite filter_app, filter_tag_of_cleared, tag_rows_of. cbn [app].
    apply tag_rows_names.
  - intros other Hne.
    rewrite filter_app, filter_tag_of_other, tag_rows_not_of by assumption.
    now rewrite app_nil_r.
  - exact D.
Qed.

Lemma owns_nonempty (w : World) :
  owns userId documentId w = true ->
  filter (owned_by documentId userId) (documents w) <> [].
Proof.
  rewrite owns_filter.
  destruct (filter (owned_by documentId userId) (documents w)); discriminate.
Qed.

Lemma owns_empty (w : World) :
  owns userId documentId w = false ->
  filter (owned_by documentId userId) (documents w) = [].
Proof.
  rewrite owns_filter.
  destruct (filter (owned_by documentId userId) (documents w));
    [reflexivity | discriminate].
Qed.

Lemma addDocumentTags_goes_through (new : list jsstring) (w : World) :
  answers w = [] -> owns userId documentId w = true ->
  exists r, fst (addDocumentTags documentId userId new w) = Returned r
            /\ answers (snd (addDocumentTags documentId userId new w)) = []
            /\ owns userId documentId
                    (snd (addDocumentTags documentId userId new w)) = true.
Proof.
  intros Hans Hown.
  destruct (addDocumentTags_effect documentId userId new w)
    as (_ & _ & Ok & D & _).
  cbv zeta in *. destruct (Ok Hans (owns_nonempty _ Hown)) as [R A].
  destruct (fst (addDocumentTags documentId userId new w)) as [r|e];
    [|discriminate].
  exists r. repeat split; [exact A|]. unfold owns in *. now rewrite D.
Qed.

End ReplaceTags.

Section ReplaceTagsClaim.

(** C7: [addDocumentTags] does nothing to the tags of a document the
    caller does not own, and raises; a call that returns leaves the
    document with exactly the given tags, trimmed, in the place of the
    tags it had, and the tags of the other documents as they were.  So
    after the tags [a], [b] and then the tag [c], the document has the
    tag [c] alone. *)
Theorem tags_are_replaced
        (documentId userId : jsstring) (new : list jsstring) (w : World) :
  let result := addDocumentTags documentId userId new w in
  (owns userId documentId w = false ->
   is_returned (fst result) = false
   /\ document_tags (snd result) = document_tags w)
  /\ (forall r, fst result = Returned r ->
        tag_names documentId (snd result) = map trim new
        /\ (forall other, other <> documentId ->
              tag_names other (snd result) = tag_names other w)
        /\ documents (snd result) = documents w)
  /\ (answers w = [] -> owns userId documentId w = true ->
      is_returned (fst result) = true)
  /\ (forall a b c,
        answers w = [] -> owns userId documentId w = true ->
        let w1 := snd (addDocumentTags documentId userId [a; b] w) in
        let w2 := snd (addDocumentTags documentId userId [c] w1) in
        tag_names documentId w1 = [trim a; trim b]
        /\ tag_names documentId w2 = [trim c]).
Proof.
  cbv zeta. split; [|split; [|split]].
  - intros Hown.
    destruct (addDocumentTags_effect documentId userId new w)
      as (_ & No & _).
    apply No. now apply owns_empty.
  - intros r E. now apply addDocumentTags_names with (r := r).
  - intros Hans Hown.
    destruct (addDocumentTags_goes_through documentId userId new w Hans Hown)
      as (r & -> & _).
    reflexivity.
  - intros a b c Hans Hown.
    destruct (addDocumentTags_goes_through documentId userId [a; b] w Hans Hown)
      as (r1 & E1 & A1 & O1).
    destruct (addDocumentTags_names documentId userId [a; b] w E1) as (N1 & _).
    cbv zeta in N1. split; [exact N1|].
    destruct (addDocumentTags_goes_through
                documentId userId [c]
                (snd (addDocumentTags documentId userId [a; b] w)) A1 O1)
      as (r2 & E2 & _).
    destruct (addDocumentTags_names
                documentId userId [c]
                (snd (addDocumentTags documentId userId [a; b] w)) E2)
      as (N2 & _).
    exact N2.
Qed.

(** The scenario of the specification. *)
Lemma tags_are_replaced_witness :
  let w1 := snd (addDocumentTags (lit "doc-1") (lit "u1") [lit "a"; lit "b"]
                                 Sample.two_documents) in
  let w2 := snd (addDocumentTags (lit "doc-1") (lit "u1") [lit "c"] w1) in
  tag_names (lit "doc-1") w1 = [lit "a"; lit "b"]
  /\ tag_names (lit "doc-1") w2 = [lit "c"].
Proof.
  apply (proj2 (proj2 (proj2
    (tags_are_replaced (lit "doc-1") (lit "u1") [] Sample.two_documents)))
    (lit "a") (lit "b") (lit "c")); reflexivity.
Defined.

End ReplaceTagsClaim.

(* ================================================================== *)
(** * No tags without document *)
(* ================================================================== *)

Section NoOrphans.

Lemma kept_not_owned (documentId userId : jsstring) (docs : list DocRow) :
  existsb (owned_by documentId userId)
          (filter (fun d => negb (owned_by documentId userId d)) docs) = false.
Proof.
  induction docs as [|d docs IH]; [reflexivity|].
  cbn [filter]. destruct (owned_by documentId userId d) eqn:O; cbn [negb];
    [exact IH|].
  cbn [existsb]. now rewrite O, IH.
Qed.

(** What the claim rests on: under a schema that does not cascade, the
    tags of a deleted document stay behind. *)
Remark delete_without_cascade_leaves_tags :
  let saved :=
    after (Save Sample.alice (Sample.outage (lit "u1")) [80; 75]%N)
          Sample.start_without_cascade in
  let tagged := after (Tags (lit "doc-1") (lit "u1") [lit "a"]) saved in
  let result := deleteDocument (lit "doc-1") (lit "u1") tagged in
  is_returned (fst result) = true
  /\ has_document (lit "doc-1") (snd result) = false
  /\ tag_names (lit "doc-1") (snd result) = [lit "a"].
Proof. vm_compute. repeat split; reflexivity. Qed.

(** C8: under a schema whose tag rows cascade with their document, in
    every state the store can reach every tag row points to a document
    that has a row; and when [deleteDocument] returns, the document has
    no metadata row of the caller and no tag row is left for its
    identifier. *)
Theorem no_orphan_tags_when_schema_cascades (w : World) :
  tags_cascade w = true ->
  reachable w ->
  no_orphan_tags w
  /\ (forall documentId userId,
        is_returned (fst (deleteDocument documentId userId w)) = true ->
        owns userId documentId (snd (deleteDocument documentId userId w)) = false
        /\ tag_names documentId (snd (deleteDocument documentId userId w)) = []
        /\ no_orphan_tags (snd (deleteDocument documentId userId w))).
Proof.
  intros Hc Hr. split; [now apply reachable_without_orphans|].
  intros documentId userId Ret.
  destruct (deleteDocument_effect documentId userId w) as (R & _).
  cbv zeta in R. destruct (R Ret) as (_ & D & T).
  split; [|split].
  - unfold owns. rewrite D. apply kept_not_owned.
  - unfold tag_names. rewrite T, Hc. rewrite filter_tag_of_cleared. reflexivity.
  - apply (reachable_without_orphans (reachable_request (Delete documentId userId) Hr)).
    destruct (deleteDocument_keeps documentId userId w) as [C _].
    cbn [after]. cbv zeta in C. congruence.
Qed.

(** A document is saved, tagged and deleted: no tag is left. *)
Lemma no_orphan_tags_when_schema_cascades_witness :
  let saved :=
    after (Save Sample.alice (Sample.outage (lit "u1")) [80; 75]%N)
          Sample.start in
  let tagged := after (Tags (lit "doc-1") (lit "u1") [lit "a"; lit "b"]) saved in
  no_orphan_tags tagged
  /\ tag_names (lit "doc-1") tagged = [lit "a"; lit "b"]
  /\ tag_names (lit "doc-1")
               (snd (deleteDocument (lit "doc-1") (lit "u1") tagged)) = [].
Proof.
  intros saved tagged.
  assert (R : reachable tagged).
  { apply reachable_request. apply reachable_request. apply reachable_start. }
  destruct (@no_orphan_tags_when_schema_cascades tagged eq_refl R) as [I D].
  split; [exact I|]. split; [reflexivity|].
  exact (proj1 (proj2 (D (lit "doc-1") (lit "u1") eq_refl))).
Defined.

End NoOrphans.

(* ================================================================== *)
(** * One item fails, the others go on *)
(* ================================================================== *)

Section BatchClaim.

(** C9: the batch route answers with one entry for each identifier, in
    order; the entry of an item is a failure exactly when its action
    raised, a success when it returned, and whatever it is the items
    after it are run, each in the world its predecessors left.  A batch
    that marks favorites over a document [x] the caller does not own and
    a document [y] it owns answers with a failure for [x] and a success
    for [y], which is a favorite then. *)
Theorem batch_isolates_failures
        (userId action : jsstring) (documentIds : list jsstring)
        (data : BatchData) (w : World) :
  fst (batch userId action documentIds data w)
  = Returned (Json (batch_results userId action data documentIds w))
  /\ map item_id (batch_results userId action data documentIds w) = documentIds
  /\ (forall before documentId after,
        documentIds = before ++ documentId :: after ->
        let w' := batch_world userId action data before w in
        batch_results userId action data documentIds w
        = batch_results userId action data before w
          ++ item_result userId action data documentId w'
          :: batch_results userId action data after
               (snd (batch_action userId action data documentId w')))
  /\ (forall documentId w',
        item_success (item_result userId action data documentId w')
        = is_returned (fst (batch_action userId action data documentId w')))
  /\ (forall x y,
        answers w = [] ->
        is_undefined (data_favorite data) = false ->
        owns userId x w = false ->
        owns userId y w = true ->
        exists d,
          fst (batch userId (lit "favorite") [x; y] data w)
          = Returned (Json [ItemFailed x DocumentNotFound;
                            ItemSucceeded y (UpdatedResult d)])
          /\ doc_id (row d) = y
          /\ doc_is_favorite (row d) = data_favorite data).
Proof.
  split; [|split; [|split; [|split]]].
  - now rewrite batch_run.
  - apply batch_results_ids.
  - intros before documentId after ->. cbv zeta.
    now rewrite batch_results_app.
  - intros documentId w'. apply item_result_success.
  - intros x y Hans Hdef Hx Hy.
    destruct (batch_favorite_two userId x y data w Hans Hdef Hx Hy)
      as (d & E & Id & _ & Fav).
    exists d. rewrite batch_run. cbn [fst]. rewrite E. auto.
Qed.

(** The scenario of the specification: [doc-2] is Bob's, [doc-1] is the
    caller's. *)
Lemma batch_isolates_failures_witness :
  exists d,
    fst (batch (lit "u1") (lit "favorite") [lit "doc-2"; lit "doc-1"]
               (mkBatchData (VBool true) VUndefined) Sample.two_documents)
    = Returned (Json [ItemFailed (lit "doc-2") DocumentNotFound;
                      ItemSucceeded (lit "doc-1") (UpdatedResult d)])
    /\ doc_id (row d) = lit "doc-1"
    /\ doc_is_favorite (row d) = VBool true.
Proof.
  apply (proj2 (proj2 (proj2 (proj2
    (batch_isolates_failures (lit "u1") (lit "favorite") []
       (mkBatchData (VBool true) VUndefined) Sample.two_documents))))
    (lit "doc-2") (lit "doc-1")); reflexivity.
Defined.

End BatchClaim.

(* ================================================================== *)
(** * Tags and commas *)
(* ================================================================== *)

Section TagsAndCommas.

Lemma comma_free_apart (t : jsstring) :
  comma_free t = true ->
  includes (t ++ removelast (lit ",")) (lit ",") = false.
Proof.
  unfold comma_free. intros H. apply negb_true_iff in H.
  change (removelast (lit ",")) with (@nil N). now rewrite app_nil_r.
Qed.

(** Tags without comma come back as they are, unless the only one is
    empty. *)
Lemma tags_of_column_comma_free (stored : list jsstring) :
  forallb comma_free stored = true ->
  stored <> [[]] ->
  tags_of_column (group_concat stored) = stored.
Proof.
  intros Hfree Hne. destruct stored as [|x rest]; [reflexivity|].
  cbn [group_concat tags_of_column].
  assert (T : truthy (join (lit ",") (x :: rest)) = true).
  { destruct rest as [|y rest].
    - cbn [join]. destruct x; [now elim Hne | reflexivity].
    - change (join (lit ",") (x :: y :: rest))
        with (x ++ lit "," ++ join (lit ",") (y :: rest)).
      destruct x; reflexivity. }
  rewrite T. apply split_join; [discriminate | discriminate |].
  apply Forall_forall. intros t Ht. apply comma_free_apart.
  rewrite forallb_forall in Hfree. now apply Hfree.
Qed.

(** What is read is the stored tags cut at every comma. *)
Lemma tags_of_column_cut (stored : list jsstring) :
  join (lit ",") stored <> [] ->
  tags_of_column (group_concat stored)
  = flat_map (fun t => split t (lit ",")) stored.
Proof.
  intros Hne. destruct stored as [|x rest]; [now cbn in Hne|].
  cbn [group_concat tags_of_column].
  destruct (join (lit ",") (x :: rest)) as [|c j] eqn:J; [congruence|].
  cbn [truthy]. rewrite <- J.
  change (lit ",") with [44%N]. apply split_join_unit. discriminate.
Qed.

(** C10, as stated, fails: a lone tag that is blank is stored as an
    empty name, and is read back as no tag at all. *)
Lemma lone_blank_tag_is_lost :
  let new := [lit " "] in
  let added := addDocumentTags (lit "doc-1") (lit "u1") new
                               Sample.two_documents in
  let read := getDocument (lit "doc-1") (lit "u1") (snd added) in
  forallb comma_free (map trim new) = true
  /\ is_returned (fst added) = true
  /\ tag_names (lit "doc-1") (snd added) = [[]]
  /\ (exists d, fst read = Returned d /\ tags d = [] /\ tags d <> map trim new).
Proof.
  vm_compute. repeat split; try reflexivity.
  eexists. repeat split; discriminate.
Qed.

(** C10, amended: [addDocumentTags] stores each tag trimmed, as a row of
    its own, and [getDocument] reads the rows of the document joined by
    commas and cut at every comma.  So, unless the list is a lone tag
    that trims to the empty string, tags whose trimmed forms hold no
    comma are read back as exactly these forms, and a stored tag with
    a comma is read back as the pieces between its commas. *)
Theorem tags_round_trip_without_commas
        (documentId userId : jsstring) (new : list jsstring) (w : World) :
  let added := addDocumentTags documentId userId new w in
  let read := getDocument documentId userId (snd added) in
  let stored := map trim new in
  (answers w = [] -> owns userId documentId w = true ->
   is_returned (fst added) = true /\ is_returned (fst read) = true)
  /\ (forall r d,
        fst added = Returned r -> fst read = Returned d ->
        tag_names documentId (snd added) = stored
        /\ tags d = tags_of_column (group_concat stored)
        /\ (forallb comma_free stored = true -> stored <> [[]] ->
            tags d = stored)
        /\ (join (lit ",") stored <> [] ->
            tags d = flat_map (fun t => split t (lit ",")) stored)).
Proof.
  cbv zeta. split.
  - intros Hans Hown.
    destruct (addDocumentTags_goes_through documentId userId new w Hans Hown)
      as (r & E & A & O).
    rewrite E. split; [reflexivity|].
    destruct (getDocument_reads documentId userId
                (snd (addDocumentTags documentId userId new w)))
      as (_ & _ & _ & _ & Ok & _).
    apply Ok; [exact A | now apply owns_nonempty].
  - intros r d Ea Er.
    destruct (addDocumentTags_names documentId userId new w Ea) as (N & _).
    cbv zeta in N.
    destruct (getDocument_reads documentId userId
                (snd (addDocumentTags documentId userId new w)))
      as (_ & Rd & _).
    destruct (Rd d Er) as [Hd Ht].
    apply owned_head in Hd as (_ & Id & _).
    assert (T : tags d = tags_of_column (group_concat (map trim new))).
    { rewrite Ht, Id. unfold tags_read. now rewrite N. }
    split; [exact N|]. split; [exact T|]. split.
    + intros Hfree Hne. rewrite T. now apply tags_of_column_comma_free.
    + intros Hne. rewrite T. now apply tags_of_column_cut.
Qed.

(** Two tags go and come back trimmed; a tag with a comma comes back as
    two. *)
Lemma tags_round_trip_without_commas_witness :
  let w := Sample.two_documents in
  (forall r d,
     fst (addDocumentTags (lit "doc-1") (lit "u1") [lit " urgent "; lit "q1"] w)
     = Returned r ->
     fst (getDocument (lit "doc-1") (lit "u1")
            (snd (addDocumentTags (lit "doc-1") (lit "u1")
                                  [lit " urgent "; lit "q1"] w)))
     = Returned d ->
     tags d = [lit "urgent"; lit "q1"])
  /\ (forall r d,
        fst (addDocumentTags (lit "doc-1") (lit "u1") [lit "a,b"] w)
        = Returned r ->
        fst (getDocument (lit "doc-1") (lit "u1")
               (snd (addDocumentTags (lit "doc-1") (lit "u1") [lit "a,b"] w)))
        = Returned d ->
        tags d = [lit "a"; lit "b"])
  /\ is_returned
       (fst (addDocumentTags (lit "doc-1") (lit "u1")
                             [lit " urgent "; lit "q1"] w)) = true.
Proof.
  intros w. split; [|split].
  - intros r d Ea Er.
    apply (proj1 (proj2 (proj2 (proj2
      (tags_round_trip_without_commas
         (lit "doc-1") (lit "u1") [lit " urgent "; lit "q1"] w) r d Ea Er))));
      [reflexivity | discriminate].
  - intros r d Ea Er.
    apply (proj2 (proj2 (proj2 (proj2
      (tags_round_trip_without_commas
         (lit "doc-1") (lit "u1") [lit "a,b"] w) r d Ea Er)))).
    discriminate.
  - apply (proj1 (tags_round_trip_without_commas
                    (lit "doc-1") (lit "u1") [lit " urgent "; lit "q1"] w));
      reflexivity.
Defined.

End TagsAndCommas.


(* ================================================================== *)
(** * Reading, saving and deleting: what the store guarantees *)
(* ================================================================== *)

Section ReadOnly.

(** X1: [getDocument] changes neither a file nor a row, whatever comes of
    it, and it answers only with a row of the table that has the
    identifier asked for and belongs to the caller, together with the
    tags of that row; without such a row it does not return. *)
Theorem getDocument_reads_own_rows_only
        (documentId userId : jsstring) (w : World) :
  let result := getDocument documentId userId w in
  same_store w (snd result)
  /\ (forall d, fst result = Returned d ->
        In (row d) (documents w)
        /\ doc_id (row d) = documentId
        /\ doc_user_id (row d) = userId
        /\ tags d = tags_read documentId w)
  /\ (owns userId documentId w = false -> is_returned (fst result) = false).
Proof.
  destruct (getDocument_reads documentId userId w) as (S & R & N & _).
  cbv zeta. split; [exact S|]. split.
  - intros d E. destruct (R d E) as [H T].
    apply owned_head in H as (I & Id & U).
    repeat split; try assumption. now rewrite T, Id.
  - intros O. apply N. now apply owns_empty.
Qed.

Lemma getDocument_reads_own_rows_only_witness :
  is_returned (fst (getDocument (lit "doc-2") (lit "u1") Sample.two_documents))
  = false.
Proof.
  apply (proj2 (proj2 (getDocument_reads_own_rows_only
                         (lit "doc-2") (lit "u1") Sample.two_documents))).
  reflexivity.
Defined.

End ReadOnly.

Section SaveFates.

(** The events of a run, read off the two traces. *)
Ltac events :=
  unfold events_since in *; run;
  rewrite <- ?app_assoc in *; cbn [app] in *;
  rewrite ?skipn_length_app, ?skipn_length_self in *.

Variables (userEmail : jsstring) (documentData : DocumentData)
          (fileBuffer : list N).

Lemma file_content_written (path : jsstring) (data : list N)
      (rest : list (jsstring * list N)) (w : World) :
  files w = (path, data) :: rest -> file_content path w = Some data.
Proof. unfold file_content. intros ->. now rewrite find_written. Qed.

Lemma saveDocument_fates (w : World) :
  let result := saveDocument userEmail documentData fileBuffer w in
  let evs := events_since w (snd result) in
  let path := save_path userEmail documentData w in
  let new := saved_row userEmail documentData fileBuffer w in
  connections_left 0 evs = Some 0
  /\ (existsb is_insert_log_failed evs = true ->
      existsb is_end_failed evs = false ->
      is_returned (fst result) = true
      /\ ai_generation_logs (snd result) = ai_generation_logs w)
  /\ (existsb is_insert_document_failed evs = true ->
      is_returned (fst result) = false
      /\ documents (snd result) = documents w
      /\ ai_generation_logs (snd result) = ai_generation_logs w
      /\ file_content path (snd result) = Some fileBuffer)
  /\ (forall e, fst result = Thrown e ->
        e = Rejected Connect \/ e = Rejected EndConnection
        \/ exists cause, e = FailedToSave cause)
  /\ (is_returned (fst result) = true ->
      fst result
      = Returned (mkSaveResult (hd [] (uuids w)) path
                               (N.of_nat (length fileBuffer)) true)
      /\ documents (snd result) = documents w ++ [new]
      /\ file_content path (snd result) = Some fileBuffer)
  /\ (answers w = [] ->
      is_returned (fst result) = true /\ answers (snd result) = [])
  /\ document_tags (snd result) = document_tags w.
Proof.
  destruct w as [fs docs tgs logs casc base ck ans us tr].
  unfold save_path, saved_row, file_content. cbv zeta.
  runs_with ltac:(rewrite find_written).
  all: events.
  all: rewrite ?find_written.
  all: repeat split; try reflexivity; try discriminate; auto.
  all: try (intros e E; injection E as <-; eauto; fail).
Qed.

End SaveFates.

Section SaveAndRead.




(** X3: the generation log is not worth a save: when the append to the
    log is rejected and the connection closes, the save returns all the
    same, with its row in the table and its bytes at the path. *)
Theorem save_survives_log_failure
        (userEmail : jsstring) (documentData : DocumentData)
        (fileBuffer : list N) (w : World) :
  let saved := saveDocument userEmail documentData fileBuffer w in
  let evs := events_since w (snd saved) in
  existsb is_insert_log_failed evs = true ->
  existsb is_end_failed evs = false ->
  is_returned (fst saved) = true
  /\ documents (snd saved)
     = documents w ++ [saved_row userEmail documentData fileBuffer w]
  /\ ai_generation_logs (snd saved) = ai_generation_logs w
  /\ file_content (save_path userEmail documentData w) (snd saved)
     = Some fileBuffer.
Proof.
  cbv zeta. intros Hlog Hend.
  destruct (saveDocument_fates userEmail documentData fileBuffer w)
    as (_ & Log & _ & _ & Ret & _).
  cbv zeta in *. destruct (Log Hlog Hend) as [R L].
  destruct (Ret R) as (_ & D & F).
  repeat split; assumption.
Qed.

Lemma save_survives_log_failure_witness :
  let saved := saveDocument Sample.alice (Sample.outage (lit "u1"))
                            [80; 75]%N log_rejected in
  is_returned (fst saved) = true
  /\ length (documents (snd saved)) = 1
  /\ ai_generation_logs (snd saved) = [].
Proof.
  destruct (@save_survives_log_failure
              Sample.alice (Sample.outage (lit "u1")) [80; 75]%N log_rejected
              eq_refl eq_refl) as (R & D & L & _).
  cbv zeta. split; [exact R|]. split; [|exact L].
  rewrite D. reflexivity.
Defined.

(** X4: when the insert of the metadata row is rejected after the file
    was written, the save raises with no row and no log entry added, and
    the file stays where it was written; and whatever makes a save raise,
    the error is the failure of the connection to open or to close, or
    is wrapped as a failure to save. *)
Theorem save_leaves_file_when_insert_fails
        (userEmail : jsstring) (documentData : DocumentData)
        (fileBuffer : list N) (w : World) :
  let saved := saveDocument userEmail documentData fileBuffer w in
  let evs := events_since w (snd saved) in
  (existsb is_insert_document_failed evs = true ->
   is_returned (fst saved) = false
   /\ documents (snd saved) = documents w
   /\ ai_generation_logs (snd saved) = ai_generation_logs w
   /\ file_content (save_path userEmail documentData w) (snd saved)
      = Some fileBuffer)
  /\ (forall e, fst saved = Thrown e ->
        e = Rejected Connect \/ e = Rejected EndConnection
        \/ exists cause, e = FailedToSave cause).
Proof.
  destruct (saveDocument_fates userEmail documentData fileBuffer w)
    as (_ & _ & Ins & Wrap & _).
  cbv zeta in *. split; [exact Ins | exact Wrap].
Qed.

Lemma save_leaves_file_when_insert_fails_witness :
  let saved := saveDocument Sample.alice (Sample.outage (lit "u1"))
                            [80; 75]%N insert_rejected in
  is_returned (fst saved) = false
  /\ documents (snd saved) = []
  /\ file_content (save_path Sample.alice (Sample.outage (lit "u1"))
                             insert_rejected) (snd saved)
     = Some [80; 75]%N.
Proof.
  destruct (proj1 (save_leaves_file_when_insert_fails
              Sample.alice (Sample.outage (lit "u1")) [80; 75]%N
              insert_rejected) eq_refl) as (R & D & _ & F).
  cbv zeta. repeat split; assumption.
Defined.

End SaveAndRead.


(* ================================================================== *)
(** * Connections, files and strangers *)
(* ================================================================== *)

Section Fates.

Ltac events :=
  unfold events_since in *; run;
  rewrite <- ?app_assoc in *; cbn [app] in *;
  rewrite ?skipn_length_app, ?skipn_length_self in *.

Variables (documentId userId : jsstring).

Lemma getDocument_fates (w : World) :
  connections_left 0 (events_since w (snd (getDocument documentId userId w)))
  = Some 0.
Proof.
  destruct w as [fs docs tgs logs casc base ck ans us tr].
  destruct (filter (owned_by documentId userId) docs) as [|d0 ds] eqn:F.
  all: runs_with ltac:(rewrite F).
  all: events; reflexivity.
Qed.

Lemma updateDocument_fates (updates : list (jsstring * Value)) (w : World) :
  let w' := snd (updateDocument documentId userId updates w) in
  connections_left 0 (events_since w w') = Some 0
  /\ files w' = files w
  /\ ai_generation_logs w' = ai_generation_logs w.
Proof.
  destruct w as [fs docs tgs logs casc base ck ans us tr]. cbv zeta.
  pose proof (updateFields_accepted updates) as Acc.
  pose proof (filter_owned_rewritten documentId userId updates (sqlNow ck) docs)
    as Flt.
  unfold rewritten in *.
  destruct (updateFields updates) as [|f fields] eqn:U.
  - runs_with ltac:(rewrite U).
    all: events; repeat split; reflexivity.
  - destruct (existsb (fun kv => is_undefined (snd kv)) (f :: fields)) eqn:Und;
      destruct (filter (owned_by documentId userId) docs) as [|d0 ds] eqn:F;
      runs_with ltac:(first [rewrite U | rewrite Und | rewrite Acc
                            | rewrite Flt | rewrite F]).
    all: events; repeat split; reflexivity.
Qed.

Lemma addDocumentTags_fates (new : list jsstring) (w : World) :
  let w' := snd (addDocumentTags documentId userId new w) in
  connections_left 0 (events_since w w') = Some 0
  /\ files w' = files w
  /\ ai_generation_logs w' = ai_generation_logs w.
Proof.
  destruct w as [fs docs tgs logs casc base ck ans us tr]. cbv zeta.
  destruct (filter (owned_by documentId userId) docs) as [|d0 ds] eqn:F;
    destruct new as [|t new];
    runs_with ltac:(first [rewrite F | rewrite tagValues_run]).
  all: events; repeat split; reflexivity.
Qed.

Lemma find_removed (path : jsstring) (fs : list (jsstring * list N)) :
  find (file_at path) (filter (fun e => negb (file_at path e)) fs) = None.
Proof.
  induction fs as [|e fs IH]; [reflexivity|].
  cbn [filter]. destruct (file_at path e) eqn:E; cbn [negb]; [exact IH|].
  cbn [find]. now rewrite E.
Qed.

Lemma find_kept (path other : jsstring) (fs : list (jsstring * list N)) :
  other <> path ->
  find (file_at other) (filter (fun e => negb (file_at path e)) fs)
  = find (file_at other) fs.
Proof.
  intros Hne. induction fs as [|e fs IH]; [reflexivity|].
  cbn [filter find]. destruct (file_at path e) eqn:E; cbn [negb].
  - destruct (file_at other e) eqn:O; [|exact IH].
    unfold file_at in *. apply eqb_eq in E, O. congruence.
  - cbn [find]. now rewrite IH.
Qed.

Lemma deleteDocument_fates (w : World) :
  let w' := snd (deleteDocument documentId userId w) in
  connections_left 0 (events_since w w') = Some 0
  /\ ai_generation_logs w' = ai_generation_logs w
  /\ (files w' = files w
      \/ exists d0,
          hd_error (filter (owned_by documentId userId) (documents w)) = Some d0
          /\ files w'
             = filter (fun e => negb (file_at (doc_file_path d0) e)) (files w))
  /\ (answers w = [] ->
      forall d0,
        hd_error (filter (owned_by documentId userId) (documents w)) = Some d0 ->
        file_content (doc_file_path d0) w' = None).
Proof.
  destruct w as [fs docs tgs logs casc base ck ans us tr]. cbv zeta.
  unfold file_content.
  pose proof (existsb_filter (owned_by documentId userId) docs) as Ex.
  destruct (filter (owned_by documentId userId) docs) as [|d0 ds] eqn:F.
  - runs_with ltac:(first [rewrite F | rewrite Ex]).
    all: events; repeat split; try reflexivity; auto; try discriminate.
  - pose proof (find_removed (doc_file_path d0) fs) as Gone.
    destruct (find (file_at (doc_file_path d0)) fs) as [e|] eqn:Ff;
      destruct casc;
      runs_with ltac:(first [rewrite F | rewrite Ex | rewrite Ff
                            | progress cbn [andb] in *]).
    all: events.
    all: repeat split; try reflexivity; auto; try discriminate.
    all: try (right; eexists; split; reflexivity).
    all: intros _ d1 E1; injection E1 as <-; first [now rewrite Gone | now rewrite Ff].
Qed.

End Fates.

Section DeleteClaims.

(** X5: a delete that returns has removed the rows of the caller with
    this identifier and no other row, and has touched no file but the one
    of the document; when no call is rejected the delete of a document of
    the caller returns, whether its file is still there or not, and no
    file is left at its path. *)
Theorem delete_removes_row_and_file
        (documentId userId : jsstring) (w : World) :
  let result := deleteDocument documentId userId w in
  (is_returned (fst result) = true ->
   owns userId documentId (snd result) = false
   /\ forall d, In d (documents (snd result))
                <-> In d (documents w) /\ owned_by documentId userId d = false)
  /\ (answers w = [] -> owns userId documentId w = true ->
      is_returned (fst result) = true
      /\ forall d0,
          hd_error (filter (owned_by documentId userId) (documents w)) = Some d0 ->
          file_content (doc_file_path d0) (snd result) = None)
  /\ (forall path,
        (forall d0,
           hd_error (filter (owned_by documentId userId) (documents w)) = Some d0 ->
           path <> doc_file_path d0) ->
        file_content path (snd result) = file_content path w).
Proof.
  destruct (deleteDocument_effect documentId userId w) as (R & _ & Ok & _).
  destruct (deleteDocument_fates documentId userId w) as (_ & _ & Fs & Gone).
  cbv zeta in *. split; [|split].
  - intros Ret. destruct (R Ret) as (_ & D & _). split.
    + unfold owns. rewrite D. apply kept_not_owned.
    + intros d. rewrite D, filter_In, negb_true_iff. reflexivity.
  - intros Hans Hown. split; [|now apply Gone].
    apply Ok; [exact Hans | now apply owns_nonempty].
  - intros path Hp. unfold file_content.
    destruct Fs as [-> | (d0 & H0 & ->)]; [reflexivity|].
    rewrite find_kept; [reflexivity|]. now apply Hp.
Qed.

(** The files were removed from outside: the delete goes through. *)
Lemma delete_removes_row_and_file_witness :
  let result := deleteDocument (lit "doc-1") (lit "u1") files_lost in
  is_returned (fst result) = true
  /\ owns (lit "u1") (lit "doc-1") (snd result) = false.
Proof.
  cbv zeta.
  pose proof (proj1 (proj1 (proj2 (delete_removes_row_and_file
                       (lit "doc-1") (lit "u1") files_lost))
                     eq_refl eq_refl)) as R.
  split; [exact R|].
  exact (proj1 (proj1 (delete_removes_row_and_file
                         (lit "doc-1") (lit "u1") files_lost) R)).
Defined.

End DeleteClaims.

Section Strangers.

(** X6: a caller who owns no row with the identifier changes nothing:
    [updateDocument], [deleteDocument] and [addDocumentTags] raise, and
    the documents, the tags and the files are as they were, whatever the
    fate of the calls. *)
Theorem strangers_change_nothing
        (documentId userId : jsstring) (w : World) :
  owns userId documentId w = false ->
  (forall updates,
     let result := updateDocument documentId userId updates w in
     is_returned (fst result) = false
     /\ documents (snd result) = documents w
     /\ document_tags (snd result) = document_tags w
     /\ files (snd result) = files w)
  /\ (let result := deleteDocument documentId userId w in
      is_returned (fst result) = false
      /\ documents (snd result) = documents w
      /\ document_tags (snd result) = document_tags w
      /\ files (snd result) = files w)
  /\ (forall new,
        let result := addDocumentTags documentId userId new w in
        is_returned (fst result) = false
        /\ documents (snd result) = documents w
        /\ document_tags (snd result) = document_tags w
        /\ files (snd result) = files w).
Proof.
  intros Hown. apply owns_empty in Hown. cbv zeta. split; [|split].
  - intros updates.
    destruct (updateDocument_effect documentId userId updates w)
      as (_ & _ & _ & _ & No & _ & _ & T & _ & D).
    destruct (updateDocument_fates documentId userId updates w) as (_ & F & _).
    cbv zeta in *. repeat split; try assumption; [now apply No|].
    destruct D as [D|D]; [exact D|]. rewrite D. now apply map_unowned.
  - destruct (deleteDocument_effect documentId userId w) as (_ & No & _).
    destruct (deleteDocument_fates documentId userId w) as (_ & _ & Fs & _).
    cbv zeta in *. destruct (No Hown) as (R & D & T).
    repeat split; try assumption.
    destruct Fs as [E | (d0 & H0 & _)]; [exact E|].
    rewrite Hown in H0. discriminate.
  - intros new.
    destruct (addDocumentTags_effect documentId userId new w)
      as (_ & No & _ & D & _).
    destruct (addDocumentTags_fates documentId userId new w) as (_ & F & _).
    cbv zeta in *. destruct (No Hown) as (R & T).
    repeat split; assumption.
Qed.

Lemma strangers_change_nothing_witness :
  let result := deleteDocument (lit "doc-2") (lit "u1") Sample.two_documents in
  is_returned (fst result) = false
  /\ documents (snd result) = documents Sample.two_documents.
Proof.
  destruct (proj1 (proj2 (@strangers_change_nothing
                            (lit "doc-2") (lit "u1") Sample.two_documents
                            eq_refl))) as (R & D & _).
  cbv zeta. split; assumption.
Defined.

End Strangers.

Section Release.

(** X7: every operation of the store releases the connections it
    opens, on every way out: in the calls of a run of [getDocument],
    [saveDocument], [updateDocument], [deleteDocument] or
    [addDocumentTags], whatever calls are rejected, each connection
    that was opened is ended, and none is left open. *)
Theorem connections_are_released (w : World) :
  (forall documentId userId,
     connections_left 0
       (events_since w (snd (getDocument documentId userId w))) = Some 0)
  /\ (forall userEmail documentData fileBuffer,
        connections_left 0
          (events_since w (snd (saveDocument userEmail documentData
                                             fileBuffer w))) = Some 0)
  /\ (forall documentId userId updates,
        connections_left 0
          (events_since w (snd (updateDocument documentId userId updates w)))
        = Some 0)
  /\ (forall documentId userId,
        connections_left 0
          (events_since w (snd (deleteDocument documentId userId w))) = Some 0)
  /\ (forall documentId userId new,
        connections_left 0
          (events_since w (snd (addDocumentTags documentId userId new w)))
        = Some 0).
Proof.
  split; [|split; [|split; [|split]]].
  - intros. apply getDocument_fates.
  - intros. apply saveDocument_fates.
  - intros. apply updateDocument_fates.
  - intros. apply deleteDocument_fates.
  - intros. apply addDocumentTags_fates.
Qed.

End Release.

Section UnknownAction.

Lemma batch_action_unknown (userId action : jsstring) (data : BatchData)
      (documentId : jsstring) (w : World) :
  known_action action = false ->
  batch_action userId action data documentId w = (Thrown InvalidBatchAction, w).
Proof.
  unfold known_action, batch_action. intros H.
  apply orb_false_iff in H as [H H3]. apply orb_false_iff in H as [H1 H2].
  now rewrite H1, H2, H3.
Qed.

(** X8: an action that is none of [delete], [favorite] and [archive]
    fails for every item with [Invalid batch action], the answer is
    still the list of the items, and the world is as it was. *)
Theorem unknown_batch_action_fails_every_item
        (userId action : jsstring) (documentIds : list jsstring)
        (data : BatchData) (w : World) :
  known_action action = false ->
  batch userId action documentIds data w
  = (Returned (Json (map (fun id => ItemFailed id InvalidBatchAction)
                         documentIds)), w).
Proof.
  intros H. rewrite batch_run. revert w.
  induction documentIds as [|id rest IH]; intros w; [reflexivity|].
  cbn [batch_results batch_world map]. unfold item_result.
  rewrite (@batch_action_unknown userId action data id w H). cbn [fst snd].
  specialize (IH w). injection IH as IH1 IH2. now rewrite IH1, IH2.
Qed.

Lemma unknown_batch_action_fails_every_item_witness :
  batch (lit "u1") (lit "purge") [lit "doc-1"; lit "doc-2"]
        (mkBatchData VUndefined VUndefined) Sample.two_documents
  = (Returned (Json [ItemFailed (lit "doc-1") InvalidBatchAction;
                     ItemFailed (lit "doc-2") InvalidBatchAction]),
     Sample.two_documents).
Proof.
  apply (@unknown_batch_action_fails_every_item
           (lit "u1") (lit "purge") [lit "doc-1"; lit "doc-2"]
           (mkBatchData VUndefined VUndefined) Sample.two_documents).
  reflexivity.
Defined.

End UnknownAction.


(* ================================================================== *)
(** * What the template is given *)
(* ================================================================== *)

Import Render.

Section TemplateData.

Lemma or_else_filled (s d : jsstring) :
  d <> [] ->
  or_else s d <> [] /\ (forall p, s = p -> p <> [] -> or_else s d = p).
Proof.
  intros Hd. destruct s as [|c s]; cbn; split; try assumption;
    try discriminate; congruence.
Qed.

Lemma or_else_empty (s : jsstring) : or_else s [] = s.
Proof. now destruct s. Qed.




Lemma processedSteps_shape (given : list Step) (index : nat) :
  length (processedSteps index given) = length given
  /\ map step_number (processedSteps index given)
     = map N.of_nat (seq (index + 1) (length given))
  /\ Forall (fun p => step_title p <> []) (processedSteps index given)
  /\ map step_description (processedSteps index given) = map description given
  /\ map step_notes (processedSteps index given) = map notes given.
Proof.
  revert index. induction given as [|step rest IH]; intros index.
  - repeat split; constructor.
  - destruct (IH (S index)) as (L & Nb & T & D & Nt).
    cbn [processedSteps length map seq step_number step_title
         step_description step_notes].
    rewrite L, D, Nt, Nb, !or_else_empty.
    replace (S index + 1) with (S (index + 1)) by lia.
    repeat split; try reflexivity.
    constructor; [|exact T].
    cbn [step_title]. apply or_else_filled. discriminate.
Qed.

Lemma processedSteps_title (given : list Step) (index i : nat) (step : Step) :
  nth_error given i = Some step ->
  option_map step_title (nth_error (processedSteps index given) i)
  = Some (or_else (title step)
                  (lit "Step " ++ toString (N.of_nat (index + i + 1)))).
Proof.
  revert index i. induction given as [|s rest IH]; intros index i.
  - destruct i; discriminate.
  - destruct i as [|i]; cbn [nth_error processedSteps].
    + intros E. injection E as ->. cbn [option_map step_title].
      now rewrite Nat.add_0_r.
    + intros E. rewrite (IH (S index) i E).
      now replace (S index + i + 1) with (index + S i + 1) by lia.
Qed.

(** X10: the steps of a guide reach the template in the order given,
    numbered from 1 without a gap, each with a title that is not empty: its
    own, or [Step n] with its number when it has none; descriptions and
    notes are handed on as they are.  Without structured steps the
    template is given an empty list. *)
Theorem steps_are_numbered_and_titled (data : Data) (today : jsstring) :
  let given := match structuredSteps data with
               | Some l => l
               | None => []
               end in
  exists processed,
    steps (templateData (lit "step-by-step-guide") data today) = Some processed
    /\ map step_number processed = map N.of_nat (seq 1 (length given))
    /\ Forall (fun p => step_title p <> []) processed
    /\ (forall i step,
           nth_error given i = Some step ->
           option_map step_title (nth_error processed i)
           = Some (if truthy (title step) then title step
                   else lit "Step " ++ toString (N.of_nat (i + 1))))
    /\ map step_description processed = map description given
    /\ map step_notes processed = map notes given.
Proof.
  cbv zeta. unfold templateData.
  change (eqb (lit "step-by-step-guide") (lit "step-by-step-guide")) with true.
  cbn [steps]. eexists. split; [reflexivity|].
  destruct (structuredSteps data) as [given|].
  - destruct (processedSteps_shape given 0) as (_ & Nb & T & D & Nt).
    repeat split; try assumption.
    intros i step E. now rewrite (processedSteps_title _ 0 _ E).
  - repeat split; try constructor. intros [|i] step E; discriminate.
Qed.

End TemplateData.


Lemma steps_are_numbered_and_titled_witness :
  exists processed,
    steps (templateData (lit "step-by-step-guide")
             (mkData [] (Some [mkStep [] (lit "Unpack") [] [];
                               mkStep (lit "Plug in") [] [] []]))
             (lit "02/11/2026"))
    = Some processed
    /\ map step_number processed = [1; 2]%N.
Proof.
  destruct (steps_are_numbered_and_titled
              (mkData [] (Some [mkStep [] (lit "Unpack") [] [];
                                mkStep (lit "Plug in") [] [] []]))
              (lit "02/11/2026")) as (p & E & Nb & _).
  exists p. split; [exact E | exact Nb].
Defined.


(* ================================================================== *)
(** * Images: stored, read and removed *)
(* ================================================================== *)

Import Routes.

Section JoinedPaths.

(** [path.join] of an absolute path in normal form and arguments whose
    pieces are known. *)
Lemma path_join_absolute (pieces args out : list jsstring) :
  Forall (fun p => plain_piece p = true) pieces ->
  Forall (fun a => truthy a = true) args ->
  args <> [] ->
  normalize_pieces false (rev pieces)
                   (flat_map (fun s => split s [slash]) args) = out ->
  join [slash] out <> [] ->
  (last (join [slash] args) 0%N =? slash)%N = false ->
  join [slash] args <> [] ->
  path_join (absolute_of pieces :: args) = slash :: join [slash] out.
Proof.
  intros Hpieces Hargs Hne Hout Hbody Hlast Hjoin. unfold path_join.
  assert (F : filter truthy (absolute_of pieces :: args) = absolute_of pieces :: args).
  { cbn [filter absolute_of truthy]. f_equal.
    clear Hne Hout Hlast Hjoin. induction Hargs as [|a args Ha _ IH]; [reflexivity|].
    cbn [filter]. now rewrite Ha, IH. }
  rewrite F.
  set (path := join [slash] (absolute_of pieces :: args)).
  assert (Epath : path = slash :: (join [slash] pieces ++ [slash]) ++ join [slash] args).
  { unfold path. destruct args as [|q args]; [congruence|].
    change (join [slash] (absolute_of pieces :: q :: args))
      with (absolute_of pieces ++ [slash] ++ join [slash] (q :: args)).
    unfold absolute_of. cbn [app]. now rewrite <- app_assoc. }
  assert (Esplit : normalize_pieces false [] (split path [slash]) = out).
  { unfold path. rewrite split_join_unit by discriminate.
    cbn [flat_map]. rewrite split_absolute by assumption.
    cbn [app]. rewrite normalize_pieces_empty.
    destruct pieces as [|p pieces].
    - cbn [app]. rewrite normalize_pieces_empty. exact Hout.
    - rewrite normalize_pieces_plain by assumption.
      now rewrite app_nil_r. }
  assert (L : (last path 0%N =? slash)%N = false).
  { rewrite Epath.
    change (slash :: (join [slash] pieces ++ [slash]) ++ join [slash] args)
      with ((slash :: join [slash] pieces ++ [slash]) ++ join [slash] args).
    now rewrite last_app_nonempty by exact Hjoin. }
  apply (normalize_absolute Epath Esplit Hbody L).
Qed.

(** ['..'] takes back the piece before it. *)
Lemma normalize_pieces_up (b : bool) (top : jsstring)
      (res rest : list jsstring) :
  plain_piece top = true ->
  normalize_pieces b res (top :: [dot; dot] :: rest)
  = normalize_pieces b res rest.
Proof.
  intros H. apply plain_piece_facts in H as (_ & _ & E0 & E1 & E2).
  cbn [normalize_pieces]. rewrite E0, E1, E2.
  change (eqb [dot; dot] []) with false.
  change (eqb [dot; dot] [dot]) with false.
  change (eqb [dot; dot] [dot; dot]) with true.
  reflexivity.
Qed.

End JoinedPaths.

Section Images.

Variables (pieces : list jsstring) (filename : jsstring).
Hypothesis Hpieces : forallb plain_piece pieces = true.
Hypothesis Hname : plain_piece filename = true.

Lemma pieces_plain : Forall (fun p => plain_piece p = true) pieces.
Proof. apply Forall_forall. now apply forallb_forall. Qed.

Lemma last_after (prefix : jsstring) :
  (last (prefix ++ filename) 0%N =? slash)%N = false.
Proof.
  destruct (plain_piece_facts _ Hname) as (T & W & _).
  rewrite last_app_nonempty by (destruct filename; [discriminate T | discriminate]).
  now apply last_not_slash.
Qed.

Lemma split_upload_url :
  split (upload_imageUrl filename) [slash] = [[]; lit "uploads"; filename].
Proof.
  change (upload_imageUrl filename)
    with (join [slash] [[]; lit "uploads"; filename]).
  apply split_join; [discriminate | discriminate |].
  repeat constructor. cbn [removelast]. rewrite app_nil_r.
  apply without_slash_includes. now apply plain_piece_facts in Hname.
Qed.

Lemma upload_fullPath_plain :
  upload_fullPath (absolute_of pieces) filename
  = absolute_of (pieces ++ [lit "uploads"; filename]).
Proof.
  unfold upload_fullPath.
  apply (path_join_plain pieces_plain);
    [repeat constructor; assumption | discriminate].
Qed.

Lemma getImage_upload :
  path_join [absolute_of pieces; upload_imageUrl filename]
  = absolute_of (pieces ++ [lit "uploads"; filename]).
Proof.
  assert (P : Forall (fun p => plain_piece p = true)
                     (pieces ++ [lit "uploads"; filename])).
  { apply Forall_app. split; [exact pieces_plain|].
    repeat constructor. exact Hname. }
  apply (@path_join_absolute pieces [upload_imageUrl filename]
           (pieces ++ [lit "uploads"; filename]) pieces_plain).
  - repeat constructor.
  - discriminate.
  - cbn [flat_map]. rewrite app_nil_r, split_upload_url.
    rewrite normalize_pieces_empty.
    rewrite normalize_pieces_all_plain by (repeat constructor; exact Hname).
    now rewrite rev_involutive.
  - apply join_plain_end; [destruct pieces; discriminate | exact P].
  - cbn [join]. apply last_after.
  - discriminate.
Qed.

Lemma split_climbing :
  split (lit "../" ++ filename) [slash] = [[dot; dot]; filename].
Proof.
  change (lit "../" ++ filename) with (join [slash] [[dot; dot]; filename]).
  apply split_join; [discriminate | discriminate |].
  repeat constructor. cbn [removelast]. rewrite app_nil_r.
  apply without_slash_includes. now apply plain_piece_facts in Hname.
Qed.

Lemma climbing_path :
  upload_fullPath (absolute_of pieces) (lit "../" ++ filename)
  = absolute_of (pieces ++ [filename]).
Proof.
  unfold upload_fullPath.
  assert (P : Forall (fun p => plain_piece p = true) (pieces ++ [filename])).
  { apply Forall_app. split; [exact pieces_plain|].
    repeat constructor. exact Hname. }
  apply (@path_join_absolute pieces [lit "uploads"; lit "../" ++ filename]
           (pieces ++ [filename]) pieces_plain).
  - repeat constructor.
  - discriminate.
  - cbn [flat_map]. rewrite app_nil_r, split_climbing.
    change (split (lit "uploads") [slash]) with [lit "uploads"].
    cbn [app]. rewrite (normalize_pieces_up _ (lit "uploads")) by reflexivity.
    rewrite normalize_pieces_all_plain by (repeat constructor; exact Hname).
    now rewrite rev_involutive.
  - apply join_plain_end; [destruct pieces; discriminate | exact P].
  - change (join [slash] [lit "uploads"; lit "../" ++ filename])
      with (lit "uploads/../" ++ filename).
    apply last_after.
  - discriminate.
Qed.

End Images.

(** X11: an image is read where it was stored.  For a file name that is
    one plain path segment, the address the upload route reports reaches
    the template as it is, given with or without the host
    [http://localhost:3001] before it, and the image module reads the
    very path the upload route reported: [uploads/<name>] below the
    directory of the server. *)
Theorem uploaded_image_is_read_where_it_was_stored
        (pieces : list jsstring) (filename title description notes : jsstring) :
  forallb plain_piece pieces = true ->
  plain_piece filename = true ->
  let dirname := absolute_of pieces in
  let url := upload_imageUrl filename in
  imageUrl (mkStep title description url notes) = Some url
  /\ imageUrl (mkStep title description (localhost ++ url) notes) = Some url
  /\ getImage dirname url = Some (upload_fullPath dirname filename)
  /\ upload_fullPath dirname filename
     = absolute_of (pieces ++ [lit "uploads"; filename]).
Proof.
  intros Hpieces Hname. cbv zeta.
  split; [reflexivity|]. split; [reflexivity|]. split.
  - unfold getImage. change (truthy (upload_imageUrl filename)) with true.
    change (starts_with uploads (upload_imageUrl filename)) with true.
    cbn [andb].
    now rewrite (getImage_upload _ _ Hpieces Hname),
                (upload_fullPath_plain _ _ Hpieces Hname).
  - now apply upload_fullPath_plain.
Qed.

Lemma uploaded_image_is_read_where_it_was_stored_witness :
  getImage (lit "/srv/app") (lit "/uploads/image-1.png")
  = Some (lit "/srv/app/uploads/image-1.png").
Proof.
  destruct (@uploaded_image_is_read_where_it_was_stored
              [lit "srv"; lit "app"] (lit "image-1.png") [] [] []
              eq_refl eq_refl) as (_ & _ & G & P).
  cbv zeta in G, P. rewrite P in G. exact G.
Defined.

Section DeleteImage.

(** A route, call by call. *)
Ltac route :=
  cbv beta iota zeta delta
      [delete_image is_enoent status_of is_sent file_content
       fs_access fs_readFile answer get_document put_document
       delete_document post_tags download duplicate is_not_found] in *;
  run.

Lemma delete_image_fates (dirname filename : jsstring) (w : World) :
  let path := upload_fullPath dirname filename in
  let result := delete_image dirname filename w in
  documents (snd result) = documents w
  /\ document_tags (snd result) = document_tags w
  /\ (fst result = Sent tt ->
      file_content path w <> None
      /\ file_content path (snd result) = None
      /\ forall other, other <> path ->
           file_content other (snd result) = file_content other w)
  /\ (status_of (fst result) = 404%N ->
      file_content path w = None /\ files (snd result) = files w)
  /\ (status_of (fst result) = 500%N -> files (snd result) = files w)
  /\ (answers w = [] ->
      fst result
      = match file_content path w with
        | Some _ => Sent tt
        | None => Refused 404 ImageNotFound
        end).
Proof.
  destruct w as [fs docs tgs logs casc base ck ans us tr]. cbv zeta.
  unfold upload_fullPath.
  set (path := path_join [dirname; lit "uploads"; filename]).
  pose proof (find_removed path fs) as Gone.
  pose proof (fun other => @find_kept path other fs) as Kept.
  destruct (find (file_at path) fs) as [e|] eqn:Ff.
  all: unfold delete_image; fold path.
  all: runs_with ltac:(rewrite Ff).
  all: route; rewrite ?Ff, ?Gone.
  all: repeat split; try reflexivity; try discriminate; auto.
  all: try (intros other Hne; now rewrite Kept).
Qed.

End DeleteImage.



(** X13: the name of the image is not confined to the upload directory:
    a name that starts with [../] reaches the directory of the server
    itself, and the route removes the file it finds there. *)
Theorem delete_image_reaches_outside_uploads
        (pieces : list jsstring) (name : jsstring) (w : World) :
  forallb plain_piece pieces = true ->
  plain_piece name = true ->
  answers w = [] ->
  let target := absolute_of (pieces ++ [name]) in
  let result := delete_image (absolute_of pieces) (lit "../" ++ name) w in
  file_content target w <> None ->
  fst result = Sent tt /\ file_content target (snd result) = None.
Proof.
  intros Hpieces Hname Hans. cbv zeta. intros Hfile.
  pose proof (delete_image_fates (absolute_of pieces) (lit "../" ++ name) w)
    as F.
  cbv zeta in F.
  rewrite (climbing_path _ _ Hpieces Hname) in F.
  destruct F as (_ & _ & S & _ & _ & Q).
  specialize (Q Hans).
  destruct (file_content (absolute_of (pieces ++ [name])) w) as [b|];
    [|congruence].
  split; [exact Q|]. now apply S.
Qed.

Lemma delete_image_reaches_outside_uploads_witness :
  fst (delete_image (lit "/srv/app") (lit "../server.js") with_image) = Sent tt.
Proof.
  apply (@delete_image_reaches_outside_uploads
           [lit "srv"; lit "app"] (lit "server.js") with_image
           eq_refl eq_refl eq_refl).
  discriminate.
Defined.


(* ================================================================== *)
(** * The routes of a document *)
(* ================================================================== *)

Section DocumentRoutes.

(** A route, call by call. *)
Ltac route :=
  cbv beta iota zeta delta
      [is_enoent status_of is_sent file_content own_row
       fs_access fs_readFile answer get_document put_document
       delete_document post_tags download duplicate is_not_found] in *;
  run.

Lemma same_store_trans (a b c : World) :
  same_store a b -> same_store b c -> same_store a c.
Proof.
  unfold same_store.
  intros (F1 & D1 & T1 & L1 & C1 & B1 & K1 & U1)
         (F2 & D2 & T2 & L2 & C2 & B2 & K2 & U2).
  repeat split; congruence.
Qed.

Lemma same_store_answers (a : list bool) (w : World) :
  same_store w (set_answers a w).
Proof. unfold same_store. repeat split. Qed.

(** A file whose bytes were written to another path, or again to its
    own, still holds them. *)
Lemma content_after_copy (new old : jsstring) (e : jsstring * list N)
      (fs : list (jsstring * list N)) :
  find (file_at old) fs = Some e ->
  match find (file_at old)
             ((new, snd e) :: filter (fun x => negb (file_at new x)) fs) with
  | Some x => Some (snd x)
  | None => None
  end = Some (snd e).
Proof.
  intros H. cbn [find]. unfold file_at at 1. cbn [fst].
  destruct (eqb new old) eqn:E; [reflexivity|].
  apply eqb_neq in E.
  rewrite find_kept by congruence. now rewrite H.
Qed.

Variables (id userId : jsstring).

(** [getDocument] when no call is rejected. *)
Lemma getDocument_quiet (w : World) :
  answers w = [] ->
  fst (getDocument id userId w)
  = match own_row id userId w with
    | Some d => Returned (mkDocument d (tags_read (doc_id d) w))
    | None => Thrown DocumentNotFound
    end
  /\ same_store w (snd (getDocument id userId w))
  /\ answers (snd (getDocument id userId w)) = [].
Proof.
  intros Hans.
  destruct (getDocument_reads id userId w) as (S & R & _ & NF & Ret & A).
  split; [|split; [exact S | exact (A Hans)]].
  unfold own_row.
  destruct (filter (owned_by id userId) (documents w)) as [|d0 ds] eqn:F.
  - now apply NF.
  - assert (Hr : is_returned (fst (getDocument id userId w)) = true)
      by (apply Ret; [exact Hans | discriminate]).
    destruct (fst (getDocument id userId w)) as [d|e]; [|discriminate].
    destruct (R d eq_refl) as [Hd Ht]. cbn [hd_error] in *.
    injection Hd as Hd. destruct d as [r t]. cbn [row tags] in *.
    now subst.
Qed.

Lemma getDocument_stranger (w : World) :
  owns userId id w = false ->
  exists e, fst (getDocument id userId w) = Thrown e
            /\ (answers w = [] -> e = DocumentNotFound).
Proof.
  intros Hown. apply owns_empty in Hown.
  destruct (getDocument_reads id userId w) as (_ & _ & N & NF & _).
  specialize (N Hown).
  destruct (fst (getDocument id userId w)) as [d|e] eqn:E; [discriminate|].
  exists e. split; [reflexivity|]. intros Hans.
  specialize (NF Hans Hown). congruence.
Qed.

Lemma answer_thrown {A} (m : M A) (w : World) :
  is_returned (fst (m w)) = false ->
  status_of (fst (answer m w)) = 500%N.
Proof.
  unfold answer. destruct (m w) as [[a|e] w']; [discriminate | reflexivity].
Qed.

Lemma deleteDocument_stranger_quiet (w : World) :
  answers w = [] -> owns userId id w = false ->
  fst (deleteDocument id userId w) = Thrown DocumentNotFound.
Proof.
  intros Hans Hown. apply owns_empty in Hown.
  destruct w as [fs docs tgs logs casc base ck ans us tr].
  cbn [answers documents] in *. subst ans.
  now runs_with ltac:(rewrite Hown).
Qed.

Lemma addDocumentTags_stranger_quiet (new : list jsstring) (w : World) :
  answers w = [] -> owns userId id w = false ->
  fst (addDocumentTags id userId new w) = Thrown DocumentNotFound.
Proof.
  intros Hans Hown. apply owns_empty in Hown.
  destruct w as [fs docs tgs logs casc base ck ans us tr].
  cbn [answers documents] in *. subst ans.
  now runs_with ltac:(rewrite Hown).
Qed.

Lemma strangers_statuses (userEmail : jsstring) (w : World) :
  owns userId id w = false ->
  (status_of (fst (get_document id userId w)) = 404%N
   \/ status_of (fst (get_document id userId w)) = 500%N)
  /\ (forall updates,
        status_of (fst (put_document id userId updates w)) = 500%N)
  /\ status_of (fst (delete_document id userId w)) = 500%N
  /\ (forall new, status_of (fst (post_tags id userId new w)) = 500%N)
  /\ status_of (fst (download id userId w)) = 500%N
  /\ status_of (fst (duplicate id userId userEmail w)) = 500%N
  /\ (answers w = [] ->
      fst (get_document id userId w)
      = Refused 404 (ServiceError DocumentNotFound)
      /\ fst (delete_document id userId w)
         = Refused 500 (ServiceError DocumentNotFound)
      /\ (forall new,
            fst (post_tags id userId new w)
            = Refused 500 (ServiceError DocumentNotFound))
      /\ fst (download id userId w)
         = Refused 500 (ServiceError DocumentNotFound)
      /\ fst (duplicate id userId userEmail w)
         = Refused 500 (ServiceError DocumentNotFound)).
Proof.
  intros Hown.
  destruct (getDocument_stranger w Hown) as (e & G & Q).
  pose proof (owns_empty _ _ _ Hown) as Hnone.
  split; [|split; [|split; [|split; [|split; [|split]]]]].
  - unfold get_document. destruct (getDocument id userId w) as [r w1].
    cbn [fst] in G. subst r. cbn [fst status_of].
    destruct (is_not_found e); auto.
  - intros updates. apply answer_thrown.
    now apply (updateDocument_effect id userId updates w).
  - apply answer_thrown. now apply (deleteDocument_effect id userId w).
  - intros new. apply answer_thrown.
    now apply (addDocumentTags_effect id userId new w).
  - unfold download. destruct (getDocument id userId w) as [r w1].
    cbn [fst] in G. now subst r.
  - unfold duplicate. destruct (getDocument id userId w) as [r w1].
    cbn [fst] in G. now subst r.
  - intros Hans. specialize (Q Hans). subst e.
    pose proof (deleteDocument_stranger_quiet w Hans Hown) as D.
    pose proof (fun new => addDocumentTags_stranger_quiet new w Hans Hown) as T.
    unfold get_document, delete_document, post_tags, download, duplicate, answer.
    destruct (getDocument id userId w) as [r w1]. cbn [fst] in G. subst r.
    destruct (deleteDocument id userId w) as [r w2]. cbn [fst] in D. subst r.
    repeat split.
    intros new. specialize (T new).
    destruct (addDocumentTags id userId new w) as [r w3]. cbn [fst] in T.
    now subst r.
Qed.

Lemma download_quiet (w : World) (d : DocRow) :
  answers w = [] ->
  own_row id userId w = Some d ->
  fst (download id userId w)
  = match file_content (doc_file_path d) w with
    | Some fileBuffer =>
        Sent (mkAttachment (basename (doc_file_path d)) fileBuffer)
    | None => Refused 404 FileNotInStorage
    end
  /\ same_store w (snd (download id userId w)).
Proof.
  intros Hans Hrow.
  destruct w as [fs docs tgs logs casc base ck ans us tr].
  unfold own_row, same_store in *. cbn [answers documents] in *. subst ans.
  destruct (filter (owned_by id userId) docs) as [|d0 ds] eqn:F;
    [discriminate|].
  injection Hrow as ->.
  destruct (find (file_at (doc_file_path d)) fs) as [e|] eqn:Ff.
  all: unfold download.
  all: runs_with ltac:(rewrite F).
  all: route; rewrite ?Ff.
  all: repeat split.
Qed.

Lemma duplicate_quiet (userEmail : jsstring) (w : World) (d : DocRow) :
  answers w = [] ->
  own_row id userId w = Some d ->
  let original := mkDocument d (tags_read (doc_id d) w) in
  let data := duplicateData userId original in
  let result := duplicate id userId userEmail w in
  match file_content (doc_file_path d) w with
  | Some fileBuffer =>
      fst result = Sent (hd [] (uuids w))
      /\ documents (snd result)
         = documents w ++ [saved_row userEmail data fileBuffer w]
      /\ file_content (save_path userEmail data w) (snd result)
         = Some fileBuffer
      /\ file_content (doc_file_path d) (snd result) = Some fileBuffer
      /\ document_tags (snd result) = document_tags w
  | None =>
      fst result = Refused 500 (ReadError (doc_file_path d))
      /\ same_store w (snd result)
  end.
Proof.
  intros Hans Hrow.
  destruct w as [fs docs tgs logs casc base ck ans us tr].
  unfold own_row, same_store, saved_row, save_path, tags_read, tag_names in *.
  cbn [answers documents] in *. subst ans. cbv zeta.
  destruct (filter (owned_by id userId) docs) as [|d0 ds] eqn:F;
    [discriminate|].
  injection Hrow as ->.
  unfold file_content at 1. cbn [files].
  destruct (find (file_at (doc_file_path d)) fs) as [e|] eqn:Ff.
  all: unfold duplicate.
  all: runs_with ltac:(first [rewrite F | rewrite find_written]).
  all: route; rewrite ?Ff, ?find_written.
  all: repeat split.
  exact (content_after_copy _ _ _ Ff).
Qed.

End DocumentRoutes.

Section ExportRoute.

Variable userId : jsstring.

Lemma fs_readFile_reads (path : jsstring) (w : World) :
  same_store w (snd (fs_readFile path w))
  /\ (forall b, fst (fs_readFile path w) = Some b ->
                file_content path w = Some b)
  /\ (answers w = [] ->
      fst (fs_readFile path w) = file_content path w
      /\ answers (snd (fs_readFile path w)) = []).
Proof.
  unfold fs_readFile.
  destruct (answers w) as [|[|] rest] eqn:A; cbn [fst snd].
  all: split; [apply same_store_answers|].
  all: split; [intros b E; first [exact E | discriminate E]|].
  all: intros H; first [discriminate H | split; reflexivity].
Qed.

Lemma file_content_same_store (path : jsstring) (w w' : World) :
  same_store w w' -> file_content path w' = file_content path w.
Proof. intros (F & _). unfold file_content. now rewrite F. Qed.

Lemma exported_same_store (ids : list jsstring) (w w' : World) (e : Entry) :
  same_store w w' -> exported userId ids w' e -> exported userId ids w e.
Proof.
  intros (F & D & T & _) (i & d & b & I & Id & E1 & E2 & C & E).
  exists i, d, b. unfold file_content, tags_read, tag_names in *.
  rewrite F, T in *. rewrite D in Id. auto 10.
Qed.

Lemma exported_more (i : jsstring) (ids : list jsstring) (w : World)
      (e : Entry) :
  exported userId ids w e -> exported userId (i :: ids) w e.
Proof.
  intros (j & d & b & I & H). exists j, d, b. split; [now right | exact H].
Qed.

Lemma entries_of_same_store (ids : list jsstring) (w w' : World) :
  same_store w w' -> entries_of userId ids w' = entries_of userId ids w.
Proof.
  intros (F & D & T & _).
  unfold entries_of, own_row, file_content, tags_read, tag_names.
  now rewrite F, D, T.
Qed.

Lemma export_loop_holds (ids : list jsstring) :
  forall (archive : list Entry) (w : World),
    let result := export_loop userId ids archive w in
    same_store w (snd result)
    /\ (exists added,
          fst result = archive ++ added
          /\ Forall (exported userId ids w) added)
    /\ (answers w = [] ->
        fst result = archive ++ entries_of userId ids w).
Proof.
  induction ids as [|i ids IH]; intros archive w; cbv zeta.
  - cbn [export_loop fst snd entries_of flat_map]. rewrite app_nil_r.
    split; [unfold same_store; repeat split|].
    split; [exists []; split; [now rewrite app_nil_r | constructor]|].
    reflexivity.
  - cbn [export_loop].
    destruct (getDocument_reads i userId w) as (S1 & R & _).
    pose proof (getDocument_quiet i userId w) as Q1.
    destruct (getDocument i userId w) as [[doc|err] w1]; cbn [fst snd] in *.
    + destruct (fs_readFile_reads (doc_file_path (row doc)) w1)
        as (S2 & B & Q2).
      destruct (R doc eq_refl) as [Hd Ht].
      apply owned_head in Hd as (In1 & Id1 & U1).
      assert (Edoc : doc = mkDocument (row doc) (tags_read i w))
        by (destruct doc as [r t]; cbn [row tags] in *; congruence).
      destruct (fs_readFile (doc_file_path (row doc)) w1) as [[b|] w2];
        cbn [fst snd] in *.
      * destruct (IH (archive ++ [entry_of doc b]) w2) as (S3 & (added & E & Fa) & Q3).
        pose proof (same_store_trans S1 S2) as S12.
        split; [exact (same_store_trans S12 S3)|]. split.
        -- exists (entry_of doc b :: added). split.
           ++ rewrite E. now rewrite <- app_assoc.
           ++ constructor.
              ** exists i, (row doc), b.
                 split; [now left|]. split; [exact In1|].
                 split; [exact Id1|]. split; [exact U1|]. split.
                 --- rewrite <- (file_content_same_store _ S1).
                     now apply B.
                 --- now rewrite <- Edoc.
              ** eapply Forall_impl; [|exact Fa]. intros e He.
                 apply exported_more. eapply exported_same_store; eassumption.
        -- intros Hans. destruct (Q1 Hans) as (G & _ & A1).
           destruct (Q2 A1) as (Rd & A2).
           rewrite (Q3 A2), (entries_of_same_store ids S12).
           cbn [entries_of flat_map].
           destruct (own_row i userId w) as [d|]; [|discriminate G].
           injection G as G. subst doc. cbn [row] in *.
           rewrite (file_content_same_store _ S1) in Rd.
           rewrite <- Rd. now rewrite <- app_assoc.
      * destruct (IH archive w2) as (S3 & (added & E & Fa) & Q3).
        pose proof (same_store_trans S1 S2) as S12.
        split; [exact (same_store_trans S12 S3)|]. split.
        -- exists added. split; [exact E|].
           eapply Forall_impl; [|exact Fa]. intros e He.
           apply exported_more. eapply exported_same_store; eassumption.
        -- intros Hans. destruct (Q1 Hans) as (G & _ & A1).
           destruct (Q2 A1) as (Rd & A2).
           rewrite (Q3 A2), (entries_of_same_store ids S12).
           cbn [entries_of flat_map].
           destruct (own_row i userId w) as [d|]; [|discriminate G].
           injection G as G. subst doc. cbn [row] in *.
           rewrite (file_content_same_store _ S1) in Rd.
           now rewrite <- Rd.
    + destruct (IH archive w1) as (S3 & (added & E & Fa) & Q3).
      split; [exact (same_store_trans S1 S3)|]. split.
      * exists added. split; [exact E|].
        eapply Forall_impl; [|exact Fa]. intros e He.
        apply exported_more. eapply exported_same_store; eassumption.
      * intros Hans. destruct (Q1 Hans) as (G & _ & A1).
        rewrite (Q3 A1), (entries_of_same_store ids S1).
        cbn [entries_of flat_map].
        destruct (own_row i userId w) as [d|]; [discriminate G|].
        reflexivity.
Qed.

End ExportRoute.

Section Basename.





End Basename.

(* ================================================================== *)
(** * What the routes answer *)
(* ================================================================== *)

(** X14: a document that is not there, or not the caller's, is a 404
    for the read alone.  The routes that update, delete, tag, download
    and duplicate answer 500 for it, whatever the collaborators do; when
    no call is rejected the read answers 404 and the others 500, all with
    the message [Document not found]. *)
Theorem only_the_read_answers_404
        (id userId userEmail : jsstring) (w : World) :
  owns userId id w = false ->
  (status_of (fst (get_document id userId w)) = 404%N
   \/ status_of (fst (get_document id userId w)) = 500%N)
  /\ (forall updates,
        status_of (fst (put_document id userId updates w)) = 500%N)
  /\ status_of (fst (delete_document id userId w)) = 500%N
  /\ (forall new, status_of (fst (post_tags id userId new w)) = 500%N)
  /\ status_of (fst (download id userId w)) = 500%N
  /\ status_of (fst (duplicate id userId userEmail w)) = 500%N
  /\ (answers w = [] ->
      fst (get_document id userId w)
      = Refused 404 (ServiceError DocumentNotFound)
      /\ fst (delete_document id userId w)
         = Refused 500 (ServiceError DocumentNotFound)
      /\ (forall new,
            fst (post_tags id userId new w)
            = Refused 500 (ServiceError DocumentNotFound))
      /\ fst (download id userId w)
         = Refused 500 (ServiceError DocumentNotFound)
      /\ fst (duplicate id userId userEmail w)
         = Refused 500 (ServiceError DocumentNotFound)).
Proof. apply strangers_statuses. Qed.

Lemma only_the_read_answers_404_witness :
  fst (get_document (lit "doc-2") (lit "u1") Sample.two_documents)
  = Refused 404 (ServiceError DocumentNotFound)
  /\ fst (download (lit "doc-2") (lit "u1") Sample.two_documents)
     = Refused 500 (ServiceError DocumentNotFound).
Proof.
  assert (Hown : owns (lit "u1") (lit "doc-2") Sample.two_documents = false)
    by (vm_compute; reflexivity).
  assert (Hans : answers Sample.two_documents = [])
    by (vm_compute; reflexivity).
  destruct (@only_the_read_answers_404
              (lit "doc-2") (lit "u1") Sample.alice Sample.two_documents
              Hown) as (_ & _ & _ & _ & _ & _ & Q).
  destruct (Q Hans) as (G & _ & _ & D & _). split; assumption.
Defined.

(** X15: when no call is rejected, the download of a document of the
    caller sends the bytes stored at its path under the last segment of
    that path, and answers 404 when no file is there; the store is left as
    it was. *)
Theorem download_sends_the_stored_file
        (id userId : jsstring) (w : World) (d : DocRow) :
  answers w = [] ->
  own_row id userId w = Some d ->
  fst (download id userId w)
  = match file_content (doc_file_path d) w with
    | Some fileBuffer =>
        Sent (mkAttachment (basename (doc_file_path d)) fileBuffer)
    | None => Refused 404 FileNotInStorage
    end
  /\ same_store w (snd (download id userId w)).
Proof. apply download_quiet. Qed.

Lemma download_sends_the_stored_file_witness :
  fst (download (lit "doc-1") (lit "u1") files_lost)
  = Refused 404 FileNotInStorage.
Proof.
  assert (Hans : answers files_lost = []) by (vm_compute; reflexivity).
  assert (Hrow : own_row (lit "doc-1") (lit "u1") files_lost
                 = Some (saved_row Sample.alice (Sample.outage (lit "u1"))
                                   [80; 75]%N Sample.start))
    by (vm_compute; reflexivity).
  rewrite (proj1 (@download_sends_the_stored_file _ _ _ _ Hans Hrow)).
  vm_compute. reflexivity.
Defined.



(** X17: when no call is rejected, the duplicate of a document of the
    caller whose file is there answers with a new identifier; the copy is
    a new row of the caller with the title followed by [ (Copy)], the
    template, format, preview and sections of the original, no flag set
    and a file of its own with the same bytes; the original keeps its file,
    and no tag is copied.  When the file of the original is gone the
    route answers 500 and the store is left as it was. *)
Theorem duplicate_copies_the_document
        (id userId userEmail : jsstring) (w : World) (d : DocRow) :
  answers w = [] ->
  own_row id userId w = Some d ->
  let result := duplicate id userId userEmail w in
  match file_content (doc_file_path d) w with
  | Some fileBuffer =>
      exists copy,
        fst result = Sent (hd [] (uuids w))
        /\ documents (snd result) = documents w ++ [copy]
        /\ doc_id copy = hd [] (uuids w)
        /\ doc_user_id copy = userId
        /\ doc_title copy = VStr (text_read (doc_title d) ++ lit " (Copy)")
        /\ doc_template_type copy = doc_template_type d
        /\ doc_file_format copy = or_else (doc_file_format d) (lit "docx")
        /\ doc_content_preview copy = doc_content_preview d
        /\ doc_original_sections copy = doc_original_sections d
        /\ doc_parsed_sections copy = doc_parsed_sections d
        /\ doc_is_favorite copy = default_flag
        /\ doc_is_archived copy = default_flag
        /\ file_content (doc_file_path copy) (snd result) = Some fileBuffer
        /\ file_content (doc_file_path d) (snd result) = Some fileBuffer
        /\ document_tags (snd result) = document_tags w
  | None =>
      fst result = Refused 500 (ReadError (doc_file_path d))
      /\ same_store w (snd result)
  end.
Proof.
  intros Hans Hrow. cbv zeta.
  pose proof (@duplicate_quiet _ _ userEmail _ _ Hans Hrow) as Q. cbv zeta in Q.
  destruct (file_content (doc_file_path d) w) as [b|]; [|exact Q].
  destruct Q as (E & D & Fnew & Fold & T).
  eexists. split; [exact E|]. split; [exact D|].
  cbn [saved_row duplicateData doc_id doc_user_id doc_title doc_template_type
       doc_file_format doc_content_preview doc_original_sections
       doc_parsed_sections doc_is_favorite doc_is_archived doc_file_path
       data_userId data_title data_template data_format data_contentPreview
       data_originalSections data_parsedSections row].
  rewrite or_else_empty.
  repeat split; assumption.
Qed.

Lemma duplicate_copies_the_document_witness :
  fst (duplicate (lit "doc-1") (lit "u1") Sample.alice Sample.two_documents)
  = Sent (lit "tag-1").
Proof.
  assert (Hans : answers Sample.two_documents = [])
    by (vm_compute; reflexivity).
  assert (Hrow : own_row (lit "doc-1") (lit "u1") Sample.two_documents
                 = Some (saved_row Sample.alice (Sample.outage (lit "u1"))
                                   [80; 75]%N Sample.start))
    by (vm_compute; reflexivity).
  assert (Hfile : file_content
                    (doc_file_path
                       (saved_row Sample.alice (Sample.outage (lit "u1"))
                                  [80; 75]%N Sample.start))
                    Sample.two_documents = Some [80; 75]%N)
    by (vm_compute; reflexivity).
  pose proof (@duplicate_copies_the_document
                (lit "doc-1") (lit "u1") Sample.alice Sample.two_documents
                _ Hans Hrow) as D.
  cbv zeta in D. rewrite Hfile in D. destruct D as (copy & E & _).
  rewrite E. vm_compute. reflexivity.
Defined.

(** X18: an export holds nothing but documents of the caller: whatever
    the collaborators do, every entry of the archive carries the title,
    the format and the stored bytes of a document of the caller that was
    asked for, and the store is left as it was.  When no call is rejected
    the archive holds, in the order asked, one entry for each document of
    the caller whose file is there; the others are passed over.  Any
    format but [zip] is answered 400. *)
Theorem export_holds_own_documents
        (userId : jsstring) (documentIds : list jsstring)
        (format : option jsstring) (w : World) :
  let result := export userId documentIds format w in
  same_store w (snd result)
  /\ (forall archive,
        fst result = Sent archive ->
        Forall (exported userId documentIds w) archive)
  /\ (answers w = [] ->
      format = None \/ format = Some (lit "zip") ->
      fst result = Sent (entries_of userId documentIds w))
  /\ (forall f, format = Some f -> f <> lit "zip" ->
                fst result = Refused 400 UnsupportedFormat).
Proof.
  cbv zeta. unfold export.
  destruct (export_loop_holds userId documentIds [] w) as (S & (added & E & Fa) & Q).
  cbv zeta in *. cbn [app] in *.
  destruct (export_loop userId documentIds [] w) as [archive w'].
  cbn [fst snd] in *. subst added.
  destruct (eqb match format with Some f => f | None => lit "zip" end
                (lit "zip")) eqn:Z; cbn [fst snd].
  - split; [exact S|]. split; [|split].
    + intros a Ea. injection Ea as <-. exact Fa.
    + intros Hans _. now rewrite (Q Hans).
    + intros f -> Hne. apply eqb_eq in Z. contradiction.
  - split; [unfold same_store; repeat split|]. split; [|split].
    + discriminate.
    + intros _ [-> | ->]; discriminate Z.
    + reflexivity.
Qed.

Lemma export_holds_own_documents_witness :
  fst (export (lit "u1") [lit "doc-2"; lit "doc-1"; lit "doc-9"] None
              Sample.two_documents)
  = Sent [mkEntry (lit "Q1 Outage.docx") [80; 75]%N].
Proof.
  assert (Hans : answers Sample.two_documents = [])
    by (vm_compute; reflexivity).
  rewrite (proj1 (proj2 (proj2 (export_holds_own_documents
             (lit "u1") [lit "doc-2"; lit "doc-1"; lit "doc-9"] None
             Sample.two_documents))) Hans (or_introl eq_refl)).
  vm_compute. reflexivity.
Defined.


(* ================================================================== *)
(** * Who is calling *)
(* ================================================================== *)

Import Auth.

Section Tokens.




End Tokens.



Section GetOrCreate.

(** The middleware, call by call. *)
Ltac auth :=
  cbv beta iota zeta delta
      [authenticateToken get_or_create bindT retT failT attempt
       select_by_identity select_by_id insert_user update_last_login
       Auth.randomUUID set_users set_fresh set_fate
       users tier_default time fresh fate passed later fst snd tl] in *.

Lemma known_as_created (userId azureId address displayed : jsstring)
      (t1 t2 : N) (tier : Value) :
  known_as azureId address
           (mkUserRow userId azureId address displayed t1 t2 tier) = true.
Proof. unfold known_as. cbn [user_azure_id]. now rewrite eqb_refl. Qed.

(** A login does not change who a row is known as. *)
Lemma filter_known_logged (azureId address userId : jsstring) (now : N)
      (us : list UserRow) :
  filter (known_as azureId address)
         (map (fun u =>
                 if eqb (user_id u) userId
                 then mkUserRow (user_id u) (user_azure_id u) (user_email u)
                                (user_name u) (user_created_at u) now
                                (user_subscription_tier u)
                 else u) us)
  = map (fun u =>
           if eqb (user_id u) userId
           then mkUserRow (user_id u) (user_azure_id u) (user_email u)
                          (user_name u) (user_created_at u) now
                          (user_subscription_tier u)
           else u)
        (filter (known_as azureId address) us).
Proof.
  induction us as [|u us IH]; [reflexivity|].
  cbn [map filter]. rewrite IH.
  assert (E : known_as azureId address
                (if eqb (user_id u) userId
                 then mkUserRow (user_id u) (user_azure_id u) (user_email u)
                                (user_name u) (user_created_at u) now
                                (user_subscription_tier u)
                 else u)
              = known_as azureId address u)
    by (destruct (eqb (user_id u) userId); reflexivity).
  rewrite E. destruct (known_as azureId address u); reflexivity.
Qed.

Lemma filter_id_head (userId : jsstring) (us : list UserRow) (u : UserRow)
      (rest : list UserRow) :
  filter (fun x => eqb (user_id x) userId) us = u :: rest ->
  user_id u = userId.
Proof.
  intros H. assert (I : In u (filter (fun x => eqb (user_id x) userId) us))
    by (rewrite H; now left).
  apply filter_In in I as [_ I]. now apply eqb_eq.
Qed.

Variables (verify : jsstring -> option Claims) (authHeader : option jsstring)
          (token : jsstring) (decoded : Claims) (azureId address : jsstring).
Hypothesis Htoken : token_of authHeader = Some token.
Hypothesis Hverify : verify token = Some decoded.
Hypothesis Hazure : either (oid decoded) (sub decoded) = Some azureId.
Hypothesis Haddress :
  either (email decoded) (preferred_username decoded) = Some address.

Lemma first_call (s : Directory) :
  fate s = [] ->
  filter (known_as azureId address) (users s) = [] ->
  let created :=
    mkUserRow (hd [] (fresh s)) azureId address (displayName decoded)
              (time s) (time s) (tier_default s) in
  let result := authenticateToken verify authHeader s in
  users (snd result) = users s ++ [created]
  /\ fate (snd result) = []
  /\ (exists user, fst result = Next user false /\ id user = hd [] (fresh s))
  /\ (filter (fun u => eqb (user_id u) (hd [] (fresh s))) (users s) = [] ->
      fst result = Next (req_user created) false).
Proof.
  destruct s as [us tier now ids ft]. cbn [fate users]. intros -> F.
  cbv zeta. unfold authenticateToken. rewrite Htoken, Hverify.
  unfold get_or_create. rewrite Hazure, Haddress.
  auth. rewrite F. auth. rewrite filter_app. cbn [filter].
  cbn [user_id]. rewrite eqb_refl.
  destruct (filter (fun u => eqb (user_id u) (hd [] ids)) us) as [|u rest] eqn:Fi;
    cbn [app]; auth.
  - repeat split; eauto.
  - repeat split; [|discriminate].
    eexists. split; [reflexivity|]. cbn [req_user id].
    exact (filter_id_head _ _ Fi).
Qed.

Lemma later_call (s : Directory) (u : UserRow) (rest : list UserRow) :
  fate s = [] ->
  filter (known_as azureId address) (users s) = u :: rest ->
  let result := authenticateToken verify authHeader s in
  fst result = Next (req_user u) false
  /\ length (users (snd result)) = length (users s)
  /\ map user_id (users (snd result)) = map user_id (users s)
  /\ fate (snd result) = [].
Proof.
  destruct s as [us tier now ids ft]. cbn [fate users]. intros -> F.
  cbv zeta. unfold authenticateToken. rewrite Htoken, Hverify.
  unfold get_or_create. rewrite Hazure, Haddress.
  auth. rewrite F. auth.
  split; [reflexivity|]. split; [apply length_map|]. split; [|reflexivity].
  rewrite map_map. apply map_ext. intros x.
  destruct (eqb (user_id x) (user_id u)); reflexivity.
Qed.

Lemma twice (s : Directory) (now : N) (ids : list jsstring) :
  fate s = [] ->
  let first := authenticateToken verify authHeader s in
  let second := authenticateToken verify authHeader (later now ids (snd first)) in
  exists user user',
    fst first = Next user false
    /\ fst second = Next user' false
    /\ id user' = id user
    /\ length (users (snd second)) = length (users (snd first)).
Proof.
  intros Hfate. cbv zeta.
  destruct (filter (known_as azureId address) (users s)) as [|u rest] eqn:F.
  - destruct (first_call s Hfate F) as (U & _ & (user & E & I) & _).
    cbv zeta in *.
    set (s1 := snd (authenticateToken verify authHeader s)) in *.
    assert (F1 : exists u1 rest1,
               filter (known_as azureId address) (users (later now ids s1))
               = u1 :: rest1 /\ user_id u1 = hd [] (fresh s)).
    { cbn [later users]. rewrite U, filter_app, F. cbn [app filter].
      rewrite known_as_created. eauto. }
    destruct F1 as (u1 & rest1 & F1 & I1).
    destruct (@later_call (later now ids s1) u1 rest1 eq_refl F1)
      as (E2 & L2 & _).
    exists user, (req_user u1). repeat split; try assumption.
    cbn [req_user id]. congruence.
  - destruct (later_call s Hfate F) as (E & L & _ & _). cbv zeta in *.
    set (s1 := snd (authenticateToken verify authHeader s)) in *.
    assert (F1 : exists u1 rest1,
               filter (known_as azureId address) (users (later now ids s1))
               = u1 :: rest1 /\ user_id u1 = user_id u).
    { subst s1. destruct s as [us tier t0 ids0 ft]. cbn [fate users] in *.
      subst ft. unfold authenticateToken. rewrite Htoken, Hverify.
      unfold get_or_create. rewrite Hazure, Haddress.
      auth. rewrite F. auth. rewrite filter_known_logged, F. cbn [map].
      eexists. eexists. split; [reflexivity|].
      destruct (eqb (user_id u) (user_id u)); reflexivity. }
    destruct F1 as (u1 & rest1 & F1 & I1).
    destruct (@later_call (later now ids s1) u1 rest1 eq_refl F1)
      as (E2 & L2 & _).
    exists (req_user u), (req_user u1). repeat split; try assumption.
Qed.

End GetOrCreate.

Section Verdicts.

Ltac auth :=
  cbv beta iota zeta delta
      [authenticateToken get_or_create bindT retT failT attempt
       select_by_identity select_by_id insert_user update_last_login
       Auth.randomUUID set_users set_fresh set_fate
       users tier_default time fresh fate passed later fst snd tl] in *.

Lemma known_head (azureId address : jsstring) (us : list UserRow)
      (u : UserRow) (rest : list UserRow) :
  filter (known_as azureId address) us = u :: rest ->
  user_azure_id u = azureId \/ user_email u = address.
Proof.
  intros H.
  assert (I : In u (filter (known_as azureId address) us))
    by (rewrite H; now left).
  apply filter_In in I as [_ I]. unfold known_as in I.
  apply orb_true_iff in I as [I|I]; apply eqb_eq in I; auto.
Qed.

Lemma passing_is_verified (verify : jsstring -> option Claims)
      (authHeader : option jsstring) (s : Directory) (user : User) :
  passed (fst (authenticateToken verify authHeader s)) = Some user ->
  exists token decoded azureId address,
    token_of authHeader = Some token
    /\ verify token = Some decoded
    /\ either (oid decoded) (sub decoded) = Some azureId
    /\ either (email decoded) (preferred_username decoded) = Some address
    /\ (Auth.azureId user = azureId \/ Auth.address user = address
        \/ id user = hd [] (fresh s)).
Proof.
  unfold authenticateToken.
  destruct (token_of authHeader) as [token|] eqn:Et; [|discriminate].
  destruct (verify token) as [decoded|] eqn:Ev; [|discriminate].
  unfold get_or_create.
  destruct (either (oid decoded) (sub decoded)) as [a|] eqn:Ea.
  2:{ intros H. exfalso. revert H. destruct s as [us tier now ids ft].
      auth. destruct ft as [|[|] ft]; auto; try discriminate.
      all: destruct ft as [|[|] ft]; discriminate. }
  destruct (either (email decoded) (preferred_username decoded)) as [e|] eqn:Ee.
  2:{ intros H. exfalso. revert H. destruct s as [us tier now ids ft].
      auth. destruct ft as [|[|] ft]; auto; try discriminate.
      all: destruct ft as [|[|] ft]; discriminate. }
  intros H. exists token, decoded, a, e.
  do 4 (split; [first [reflexivity | assumption]|]).
  destruct s as [us tier now ids ft]. cbn [fresh].
  destruct (filter (known_as a e) us) as [|u rest] eqn:F.
  - right. right. revert H. auth.
    repeat (first [rewrite F | fork]; auth); try discriminate.
    all: rewrite filter_app; cbn [filter user_id]; rewrite eqb_refl.
    all: destruct (filter (fun u => eqb (user_id u) (hd [] ids)) us)
           as [|u0 rest0] eqn:Fi; cbn [app]; auth.
    all: repeat (fork; auth); try discriminate.
    all: intros E; injection E as <-; cbn [req_user id]; try reflexivity.
    all: exact (filter_id_head _ _ Fi).
  - apply known_head in F as K. revert H. auth.
    repeat (first [rewrite F | fork]; auth); try discriminate.
    all: intros E; injection E as <-; cbn [req_user Auth.azureId Auth.address].
    all: destruct K; auto.
Qed.

Lemma refused_untouched (verify : jsstring -> option Claims)
      (authHeader : option jsstring) (s : Directory) :
  (forall token, token_of authHeader = Some token -> verify token = None) ->
  passed (fst (authenticateToken verify authHeader s)) = None
  /\ snd (authenticateToken verify authHeader s) = s.
Proof.
  intros H. unfold authenticateToken.
  destruct (token_of authHeader) as [token|]; [|now split].
  now rewrite (H token eq_refl).
Qed.

Lemma displayName_cases (decoded : Claims) :
  displayName decoded <> []
  /\ (forall n, name decoded = Some n -> n <> [] -> displayName decoded = n)
  /\ (name decoded = None \/ name decoded = Some [] ->
      displayName decoded
      = shown (given_name decoded) ++ lit " " ++ shown (family_name decoded)).
Proof.
  unfold displayName. cbv zeta.
  assert (F : forall x y : jsstring,
             or_else (x ++ lit " " ++ y) (lit "Unknown User")
             = x ++ lit " " ++ y)
    by (intros [|c x] y; reflexivity).
  assert (G : forall x y : jsstring, x ++ lit " " ++ y <> [])
    by (intros [|c x] y; discriminate).
  destruct (name decoded) as [[|c n]|]; cbn [truthy]; rewrite ?F.
  - split; [apply G|]. split; [intros n E; injection E as <-; congruence|].
    reflexivity.
  - split; [discriminate|]. split; [intros m E; now injection E as <-|].
    intros [E|E]; discriminate E.
  - split; [apply G|]. split; [discriminate|]. reflexivity.
Qed.

End Verdicts.

(** X20: a caller is created once.  When no call is rejected, a request
    with a token the verifier accepts and claims that name the caller
    passes; a later request with the same token passes as the user with
    the same identifier, and adds no row to the table of users. *)
Theorem returning_caller_is_recognised
        (verify : jsstring -> option Claims) (authHeader : option jsstring)
        (token : jsstring) (decoded : Claims) (azureId address : jsstring)
        (s : Directory) (now : N) (ids : list jsstring) :
  token_of authHeader = Some token ->
  verify token = Some decoded ->
  either (oid decoded) (sub decoded) = Some azureId ->
  either (email decoded) (preferred_username decoded) = Some address ->
  fate s = [] ->
  let first := authenticateToken verify authHeader s in
  let second :=
    authenticateToken verify authHeader (later now ids (snd first)) in
  exists user user',
    fst first = Next user false
    /\ fst second = Next user' false
    /\ id user' = id user
    /\ length (users (snd second)) = length (users (snd first)).
Proof.
  intros Ht Hv Ha He Hf.
  exact (@twice verify authHeader token decoded azureId address
                Ht Hv Ha He s now ids Hf).
Qed.

Lemma returning_caller_is_recognised_witness :
  let first := authenticateToken verifier (Some (lit "Bearer good")) nobody in
  let second :=
    authenticateToken verifier (Some (lit "Bearer good"))
                      (later 1700000600 [lit "user-2"] (snd first)) in
  exists user user',
    fst first = Next user false
    /\ fst second = Next user' false
    /\ id user' = id user
    /\ length (users (snd second)) = length (users (snd first)).
Proof.
  apply (@returning_caller_is_recognised
           verifier (Some (lit "Bearer good")) (lit "good") carol
           (lit "oid-carol") (lit "carol@example.com") nobody
           1700000600 [lit "user-2"]
           eq_refl eq_refl eq_refl eq_refl eq_refl).
Defined.

(** X21: the first request of a caller writes one row: the identifier
    drawn, the subject and the address of the claims, and a name that is
    never empty: the name claim when there is one, else the given and the
    family name with a space between them, an absent one reading
    [undefined]; the default [Unknown User] is never stored for want of a
    name.  When the identifier is new the caller passes as the user of
    that row. *)
Theorem first_call_creates_the_user
        (verify : jsstring -> option Claims) (authHeader : option jsstring)
        (token : jsstring) (decoded : Claims) (azureId address : jsstring)
        (s : Directory) :
  token_of authHeader = Some token ->
  verify token = Some decoded ->
  either (oid decoded) (sub decoded) = Some azureId ->
  either (email decoded) (preferred_username decoded) = Some address ->
  fate s = [] ->
  filter (known_as azureId address) (users s) = [] ->
  let created :=
    mkUserRow (hd [] (fresh s)) azureId address (displayName decoded)
              (time s) (time s) (tier_default s) in
  let result := authenticateToken verify authHeader s in
  users (snd result) = users s ++ [created]
  /\ (filter (fun u => eqb (user_id u) (hd [] (fresh s))) (users s) = [] ->
      fst result = Next (req_user created) false)
  /\ user_name created <> []
  /\ (forall n, name decoded = Some n -> n <> [] -> user_name created = n)
  /\ (name decoded = None \/ name decoded = Some [] ->
      user_name created
      = shown (given_name decoded) ++ lit " " ++ shown (family_name decoded)).
Proof.
  intros Ht Hv Ha He Hf Hnew. cbv zeta.
  destruct (@first_call verify authHeader token decoded azureId address
                        Ht Hv Ha He s Hf Hnew) as (U & _ & _ & N).
  split; [exact U|]. split; [exact N|]. cbn [user_name].
  apply displayName_cases.
Qed.

Lemma first_call_creates_the_user_witness :
  users (snd (authenticateToken verifier (Some (lit "Bearer good")) nobody))
  = [mkUserRow (lit "user-1") (lit "oid-carol") (lit "carol@example.com")
               (lit "undefined undefined") 1700000000 1700000000
               (VStr (lit "free"))].
Proof.
  apply (proj1 (@first_call_creates_the_user
                  verifier (Some (lit "Bearer good")) (lit "good") carol
                  (lit "oid-carol") (lit "carol@example.com") nobody
                  eq_refl eq_refl eq_refl eq_refl eq_refl eq_refl)).
Defined.

(** X22: nobody passes unverified.  Whatever the database does, a
    request goes on to its route only with a token the verifier accepted
    whose claims name a subject and an address, and then as a user known
    under that subject or that address, or as the one just created under
    the identifier drawn.  A request whose token the verifier refuses
    does not pass and leaves the table of users as it was. *)
Theorem nobody_passes_unverified
        (verify : jsstring -> option Claims) (authHeader : option jsstring)
        (s : Directory) :
  (forall user,
      passed (fst (authenticateToken verify authHeader s)) = Some user ->
      exists token decoded azureId address,
        token_of authHeader = Some token
        /\ verify token = Some decoded
        /\ either (oid decoded) (sub decoded) = Some azureId
        /\ either (email decoded) (preferred_username decoded) = Some address
        /\ (Auth.azureId user = azureId \/ Auth.address user = address
            \/ id user = hd [] (fresh s)))
  /\ ((forall token, token_of authHeader = Some token -> verify token = None) ->
      passed (fst (authenticateToken verify authHeader s)) = None
      /\ snd (authenticateToken verify authHeader s) = s).
Proof.
  split; [intros user; apply passing_is_verified | apply refused_untouched].
Qed.

Lemma nobody_passes_unverified_witness :
  passed (fst (authenticateToken verifier (Some (lit "Bearer forged")) nobody))
  = None.
Proof.
  apply (proj2 (nobody_passes_unverified
                  verifier (Some (lit "Bearer forged")) nobody)).
  intros token E. injection E as <-. reflexivity.
Defined.
